(** * Organizational digital twin: market, messaging and scheduler core

    A shallow embedding of [core/advanced_market.py],
    [core/communication_system.py] and the day scheduler of
    [core/organizational_simulator.py], with the properties of the
    simulation engine stated and proved over it.

    Conventions of the embedding.
    - Python floats are exact rationals ([Q]); equality of floats is [Qeq].
      The one float that is not a number, numpy's [nan], is a constructor of
      [npfloat].
    - The ambient random source ([random.random], [random.uniform]) is a
      stream of draws with a cursor, threaded through the code by a state
      monad; [uuid.uuid4] and [datetime.now] are threaded the same way.
    - Python objects that are shared by reference (a [Message] held both by
      [messages] and by a receiver's queue) live in one store and are
      referred to by their position in it. *)

From Stdlib Require Import QArith Qabs Qminmax Lqa ZArith List Bool Lia.
From stdpp Require Import gmap strings list fin_maps.

Open Scope Q_scope.

(** ** A state monad for the ambient effects *)

Definition prog (S A : Type) : Type := S -> A * S.

Definition ret {S A : Type} (a : A) : prog S A := fun s => (a, s).

Definition bind {S A B : Type} (m : prog S A) (k : A -> prog S B) : prog S B :=
  fun s => let (a, s') := m s in k a s'.

Notation "x <- m ;; k" := (bind m (fun x => k))
  (at level 100, m at next level, right associativity).

(** Code that can raise: [None] is a Python exception leaving the function
    ([TypeError], [KeyError], [ZeroDivisionError]). *)
Definition bindE {S A B : Type} (m : prog S (option A)) (k : A -> prog S (option B))
  : prog S (option B) :=
  fun s => match m s with
           | (Some a, s') => k a s'
           | (None, s') => (None, s')
           end.

Notation "x <-! m ;; k" := (bindE m (fun x => k))
  (at level 100, m at next level, right associativity).

(** Python's [x < y] on floats. *)
Definition Qltb (x y : Q) : bool := negb (Qle_bool y x).

(** Python's builtin [min(a, b)] returns [b] when [b < a] and [a] otherwise;
    [max(a, b)] returns [b] when [b > a] and [a] otherwise. *)
Definition pymin (a b : Q) : Q := if Qltb b a then b else a.
Definition pymax (a b : Q) : Q := if Qltb a b then b else a.

(** ** The random source *)

Record Rng : Type := mkRng {
  draws : nat -> Q;      (* the successive results of random.random() *)
  cursor : nat           (* how many have been consumed *)
}.

(** [random.random()] returns a float of the half-open interval [0, 1). *)
Definition valid_rng (r : Rng) : Prop := forall n, 0 <= draws r n /\ draws r n < 1.

Definition random : prog Rng Q :=
  fun r => (draws r (cursor r), mkRng (draws r) (S (cursor r))).

(** [random.uniform(a, b)] is [a + (b - a) * random()]. *)
Definition uniform (a b : Q) : prog Rng Q :=
  u <- random ;; ret (a + (b - a) * u).

Module Market.

(** *** Enumerations of [advanced_market.py] *)

Inductive MarketPhase : Type := GROWTH | RECESSION | RECOVERY | BOOM | STAGNATION.

Inductive CustomerSegment : Type := ENTERPRISE | MID_MARKET | SMB | STARTUP.

Definition phase_eqb (p q : MarketPhase) : bool :=
  match p, q with
  | GROWTH, GROWTH | RECESSION, RECESSION | RECOVERY, RECOVERY
  | BOOM, BOOM | STAGNATION, STAGNATION => true
  | _, _ => false
  end.

Definition phase_value (p : MarketPhase) : string :=
  match p with
  | GROWTH => "growth" | RECESSION => "recession" | RECOVERY => "recovery"
  | BOOM => "boom" | STAGNATION => "stagnation"
  end.

(** *** EconomicCycleSimulator *)

Record EconomicCycleSimulator : Type := mkCycle {
  current_phase : MarketPhase;
  phase_duration : Z;
  interest_rates : Q;
  inflation_rate : Q;
  unemployment_rate : Q;
  gdp_growth : Q;
  market_volatility : Q;
  tech_sector_performance : Q
}.

(** [EconomicCycleSimulator.__init__] *)
Definition cycle_init : EconomicCycleSimulator :=
  {| current_phase := GROWTH; phase_duration := 0;
     interest_rates := 0.05; inflation_rate := 0.03;
     unemployment_rate := 0.04; gdp_growth := 0.025;
     market_volatility := 0.1; tech_sector_performance := 0.8 |}.

Definition set_phase (e : EconomicCycleSimulator) (p : MarketPhase) (d : Z) : EconomicCycleSimulator :=
  {| current_phase := p; phase_duration := d;
     interest_rates := interest_rates e; inflation_rate := inflation_rate e;
     unemployment_rate := unemployment_rate e; gdp_growth := gdp_growth e;
     market_volatility := market_volatility e;
     tech_sector_performance := tech_sector_performance e |}.

(** The four assignments every branch of [_update_economic_indicators]
    performs; the other fields are not written. *)
Definition set_indicators (e : EconomicCycleSimulator) (g u i t : Q) : EconomicCycleSimulator :=
  {| current_phase := current_phase e; phase_duration := phase_duration e;
     interest_rates := i; inflation_rate := inflation_rate e;
     unemployment_rate := u; gdp_growth := g;
     market_volatility := market_volatility e;
     tech_sector_performance := t |}.

(** The hardcoded ranges of [_update_economic_indicators], per phase:
    (low, high) for gdp growth, unemployment, interest rates and tech sector
    performance. *)
Record Bounds : Type := mkBounds {
  gdp_lo : Q; gdp_hi : Q;
  unemp_lo : Q; unemp_hi : Q;
  rate_lo : Q; rate_hi : Q;
  tech_lo : Q; tech_hi : Q
}.

Definition phase_bounds (p : MarketPhase) : Bounds :=
  match p with
  | GROWTH => mkBounds 0.02 0.04 0.03 0.06 0.02 0.06 0.7 0.9
  | BOOM => mkBounds 0.04 0.07 0.02 0.04 0.01 0.04 0.8 1.0
  | RECESSION => mkBounds (-0.03) 0.01 0.06 0.12 0.00 0.02 0.3 0.6
  | RECOVERY => mkBounds 0.01 0.03 0.05 0.08 0.01 0.03 0.6 0.8
  | STAGNATION => mkBounds (-0.01) 0.01 0.05 0.07 0.02 0.04 0.5 0.7
  end.

Definition redraw (e : EconomicCycleSimulator) (b : Bounds) : prog Rng EconomicCycleSimulator :=
  g <- uniform (gdp_lo b) (gdp_hi b) ;;
  u <- uniform (unemp_lo b) (unemp_hi b) ;;
  i <- uniform (rate_lo b) (rate_hi b) ;;
  t <- uniform (tech_lo b) (tech_hi b) ;;
  ret (set_indicators e g u i t).

Definition _update_economic_indicators (e : EconomicCycleSimulator) : prog Rng EconomicCycleSimulator :=
  if phase_eqb (current_phase e) GROWTH then redraw e (phase_bounds GROWTH)
  else if phase_eqb (current_phase e) BOOM then redraw e (phase_bounds BOOM)
  else if phase_eqb (current_phase e) RECESSION then redraw e (phase_bounds RECESSION)
  else if phase_eqb (current_phase e) RECOVERY then redraw e (phase_bounds RECOVERY)
  else if phase_eqb (current_phase e) STAGNATION then redraw e (phase_bounds STAGNATION)
  else ret e.

(** One arm of the transition chain: draw, and move to [next] with the
    duration reset when the draw is below [p]. *)
Definition maybe_transition (e : EconomicCycleSimulator) (p : Q) (next : MarketPhase)
  : prog Rng EconomicCycleSimulator :=
  u <- random ;;
  if Qltb u p then ret (set_phase e next 0) else ret e.

Definition phase_transition (e : EconomicCycleSimulator) : prog Rng EconomicCycleSimulator :=
  if phase_eqb (current_phase e) GROWTH && (24 <? phase_duration e)%Z
  then maybe_transition e 0.3 BOOM
  else if phase_eqb (current_phase e) BOOM && (12 <? phase_duration e)%Z
  then maybe_transition e 0.4 RECESSION
  else if phase_eqb (current_phase e) RECESSION && (18 <? phase_duration e)%Z
  then maybe_transition e 0.5 RECOVERY
  else if phase_eqb (current_phase e) RECOVERY && (15 <? phase_duration e)%Z
  then maybe_transition e 0.6 GROWTH
  else ret e.

Definition advance_cycle (e : EconomicCycleSimulator) : prog Rng EconomicCycleSimulator :=
  let e1 := set_phase e (current_phase e) (phase_duration e + 1)%Z in
  e2 <- phase_transition e1 ;;
  _update_economic_indicators e2.

(** Values held by a [Dict[str, Any]] of market conditions. *)
Inductive pyval : Type :=
| VNum (q : Q)
| VStr (s : string).

(** [get_market_conditions] *)
Definition get_market_conditions (e : EconomicCycleSimulator) : gmap string pyval :=
  <["phase" := VStr (phase_value (current_phase e))]>
  (<["gdp_growth" := VNum (gdp_growth e)]>
  (<["unemployment_rate" := VNum (unemployment_rate e)]>
  (<["interest_rates" := VNum (interest_rates e)]>
  (<["inflation_rate" := VNum (inflation_rate e)]>
  (<["market_volatility" := VNum (market_volatility e)]>
  (<["tech_sector_performance" := VNum (tech_sector_performance e)]>
  (<["phase_duration" := VNum (inject_Z (phase_duration e))]> ∅))))))).

(** [d.get(k, default)] used as a number: a string there makes the
    comparison that follows raise [TypeError]. *)
Definition get_num (mc : gmap string pyval) (k : string) (default : Q) : option Q :=
  match mc !! k with
  | None => Some default
  | Some (VNum q) => Some q
  | Some (VStr _) => None
  end.

(** [d[k]] used as a number: [KeyError] when absent, [TypeError] on a
    string. *)
Definition item_num (mc : gmap string pyval) (k : string) : option Q :=
  match mc !! k with
  | Some (VNum q) => Some q
  | _ => None
  end.

(** *** VirtualCustomer *)

Record VirtualCustomer : Type := mkCustomer {
  id : string;
  name : string;
  segment : CustomerSegment;
  industry : string;
  size : Z;
  budget : Q;
  satisfaction : Q;
  loyalty : Q;
  churn_probability : Q;
  lifetime_value : Q;
  decision_speed : Q;
  price_sensitivity : Q;
  feature_preferences : gmap string Q;
  adoption_rate : Q;
  support_tickets_per_month : Z;
  expansion_potential : Q;
  contract_length : Z;
  renewal_probability : Q
}.

Definition set_churn_probability (c : VirtualCustomer) (p : Q) : VirtualCustomer :=
  {| id := id c; name := name c; segment := segment c; industry := industry c;
     size := size c; budget := budget c; satisfaction := satisfaction c;
     loyalty := loyalty c; churn_probability := p;
     lifetime_value := lifetime_value c; decision_speed := decision_speed c;
     price_sensitivity := price_sensitivity c;
     feature_preferences := feature_preferences c;
     adoption_rate := adoption_rate c;
     support_tickets_per_month := support_tickets_per_month c;
     expansion_potential := expansion_potential c;
     contract_length := contract_length c;
     renewal_probability := renewal_probability c |}.

(** The sum the method clamps from above. *)
Definition churn_score (c : VirtualCustomer) (competitive_pressure economic_growth price_increase : Q) : Q :=
  let base_churn := 0.1 in
  let satisfaction_impact := (1 - satisfaction c) * 0.3 in
  let loyalty_impact := (1 - loyalty c) * 0.2 in
  let market_impact := 0 in
  let market_impact := if Qltb 0.7 competitive_pressure then market_impact + 0.1 else market_impact in
  let market_impact := if Qltb economic_growth 0.3 then market_impact + 0.15 else market_impact in
  let price_impact :=
    if Qltb 0 price_increase then price_sensitivity c * price_increase * 0.2 else 0 in
  base_churn + satisfaction_impact + loyalty_impact + market_impact + price_impact.

Definition update_churn_probability (c : VirtualCustomer) (market_conditions : gmap string pyval)
  : option VirtualCustomer :=
  cp ← get_num market_conditions "competitive_pressure" 0;
  eg ← get_num market_conditions "economic_growth" 0;
  pi ← get_num market_conditions "price_increase" 0;
  Some (set_churn_probability c (pymin 0.8 (churn_score c cp eg pi))).

(** The dict [calculate_expansion_opportunity] returns; the early return
    has no ["probability"] entry. *)
Record Expansion : Type := mkExpansion {
  potential : Q;
  exp_type : option string;
  exp_value : Q;
  probability : option Q
}.

(** [max(items, key=lambda x: x[1])]: the first item whose key no later
    item exceeds. *)
Fixpoint max_by_value (best : string * Q) (rest : list (string * Q)) : string * Q :=
  match rest with
  | [] => best
  | x :: rest' => max_by_value (if Qltb (snd best) (snd x) then x else best) rest'
  end.

(** [int * float] converts the int to a float first, rounding to nearest:
    [OverflowError] when the int rounds beyond the largest float,
    (2^53 - 1) * 2^971, that is from 2^1024 - 2^970 on in absolute value. *)
Definition float_limit : Z := (2 ^ 1024 - 2 ^ 970)%Z.

Definition float_of_int (n : Z) : option Q :=
  if (Z.abs n <? float_limit)%Z then Some (inject_Z n) else None.

(** [None]: the [OverflowError] of [self.size * 0.1], which the early
    return does not reach. *)
Definition calculate_expansion_opportunity (c : VirtualCustomer) : option Expansion :=
  if Qltb (satisfaction c) 0.6 || Qltb (loyalty c) 0.4
  then Some (mkExpansion 0 None 0 None)
  else
    size_ ← float_of_int (size c);
    let best_opportunity :=
      max_by_value
        ("seat_expansion"%string, size_ * 0.1 * expansion_potential c)
        [("feature_upgrade"%string, budget c * 0.2 * expansion_potential c);
         ("additional_products"%string, lifetime_value c * 0.3 * expansion_potential c)] in
    Some (mkExpansion (expansion_potential c) (Some (fst best_opportunity))
            (snd best_opportunity) (Some (pymin 0.8 (satisfaction c * loyalty c)))).

(** Equality of two customers as the dataclass defines it: field by field,
    floats by numeric equality. *)
Definition segment_eqb (a b : CustomerSegment) : bool :=
  match a, b with
  | ENTERPRISE, ENTERPRISE | MID_MARKET, MID_MARKET | SMB, SMB | STARTUP, STARTUP => true
  | _, _ => false
  end.

Definition prefs_eqb (m1 m2 : gmap string Q) : bool :=
  bool_decide (map_relation (fun _ x y => Qeq_bool x y = true)
                 (fun _ _ => False) (fun _ _ => False) m1 m2).

Definition customer_eqb (a b : VirtualCustomer) : bool :=
  String.eqb (id a) (id b) && String.eqb (name a) (name b)
  && segment_eqb (segment a) (segment b) && String.eqb (industry a) (industry b)
  && (size a =? size b)%Z && Qeq_bool (budget a) (budget b)
  && Qeq_bool (satisfaction a) (satisfaction b) && Qeq_bool (loyalty a) (loyalty b)
  && Qeq_bool (churn_probability a) (churn_probability b)
  && Qeq_bool (lifetime_value a) (lifetime_value b)
  && Qeq_bool (decision_speed a) (decision_speed b)
  && Qeq_bool (price_sensitivity a) (price_sensitivity b)
  && prefs_eqb (feature_preferences a) (feature_preferences b)
  && Qeq_bool (adoption_rate a) (adoption_rate b)
  && (support_tickets_per_month a =? support_tickets_per_month b)%Z
  && Qeq_bool (expansion_potential a) (expansion_potential b)
  && (contract_length a =? contract_length b)%Z
  && Qeq_bool (renewal_probability a) (renewal_probability b).

(** [list.remove(x)]: drops the first element equal to [x]; [ValueError]
    when there is none. *)
Fixpoint list_remove (x : VirtualCustomer) (l : list VirtualCustomer) : option (list VirtualCustomer) :=
  match l with
  | [] => None
  | y :: l' => if customer_eqb y x then Some l' else (y ::.) <$> list_remove x l'
  end.

Fixpoint remove_churned (churned l : list VirtualCustomer) : option (list VirtualCustomer) :=
  match churned with
  | [] => Some l
  | c :: churned' => l' ← list_remove c l; remove_churned churned' l'
  end.

(** *** Competitive landscape *)

Record Competitor : Type := mkCompetitor { share : Q; strength : Q }.

(** The dict of competitors, in insertion order (the order it is iterated
    in, hence the order the draws are consumed in). *)
Definition landscape_init : list (string * Competitor) :=
  [("market_leader"%string, mkCompetitor 0.35 0.9);
   ("challenger_1"%string, mkCompetitor 0.25 0.8);
   ("challenger_2"%string, mkCompetitor 0.20 0.7);
   ("our_company"%string, mkCompetitor 0.05 0.6);
   ("others"%string, mkCompetitor 0.15 0.5)].

(** Float division; [ZeroDivisionError] on a zero divisor. *)
Definition pydiv (x y : Q) : option Q :=
  if Qeq_bool y 0 then None else Some (x / y).

(** Body of the first loop, for one competitor. *)
Definition perturb_one (gdp : Q) (data : Competitor) : prog Rng Competitor :=
  change <- uniform (-0.02) 0.02 ;;
  let change :=
    if Qltb gdp 0
    then (if Qltb 0.7 (strength data) then change + 0.01 else change - 0.01)
    else change in
  let new_share := pymax 0.01 (pymin 0.8 (share data + change)) in
  ret (mkCompetitor new_share (strength data)).

Fixpoint perturb_shares (gdp : Q) (l : list (string * Competitor))
  : prog Rng (list (string * Competitor)) :=
  match l with
  | [] => ret []
  | (competitor, data) :: l' =>
      data' <- perturb_one gdp data ;;
      l'' <- perturb_shares gdp l' ;;
      ret ((competitor, data') :: l'')
  end.

(** [sum(data["share"] for data in ...)]: starts from 0, adds left to right. *)
Definition total_share (l : list (string * Competitor)) : Q :=
  fold_left (fun acc kd => acc + share (snd kd)) l 0.

(** The second loop: every share divided by the total computed before it. *)
Definition normalize_shares (l : list (string * Competitor)) : option (list (string * Competitor)) :=
  let total := total_share l in
  mapM (fun kd => s ← pydiv (share (snd kd)) total;
                  Some (fst kd, mkCompetitor s (strength (snd kd)))) l.

Definition _update_competitive_landscape (market_conditions : gmap string pyval)
    (l : list (string * Competitor)) : prog Rng (option (list (string * Competitor))) :=
  match item_num market_conditions "gdp_growth" with
  | None => ret None
  | Some gdp =>
      l1 <- perturb_shares gdp l ;;
      ret (normalize_shares l1)
  end.

(** *** Market events *)

Record MarketEvent : Type := mkEvent {
  ev_type : string;
  ev_event : string;
  ev_impact : string;
  ev_severity : Q
}.

Definition gated_event (p : Q) (ty ev imp : string) (lo hi : Q) : prog Rng (list MarketEvent) :=
  u <- random ;;
  if Qltb u p
  then (sev <- uniform lo hi ;; ret [mkEvent ty ev imp sev])
  else ret [].

Definition _generate_market_events (market_conditions : gmap string pyval)
  : prog Rng (option (list MarketEvent)) :=
  match item_num market_conditions "gdp_growth",
        item_num market_conditions "tech_sector_performance" with
  | Some gdp, Some tech =>
      let economic :=
        if Qltb gdp 0
        then [mkEvent "economic" "Economic downturn affecting customer budgets" "negative"
                (Qabs gdp * 10)]
        else [] in
      let sector :=
        if Qltb 0.9 tech
        then [mkEvent "sector" "Tech sector boom - increased investment" "positive"
                ((tech - 0.5) * 2)]
        else [] in
      competitive <- gated_event 0.1 "competitive" "Major competitor launches new product"
                       "negative" 0.2 0.7 ;;
      technology <- gated_event 0.05 "technology" "New technology disruption in market"
                       "mixed" 0.3 0.8 ;;
      regulatory <- gated_event 0.03 "regulatory" "New data privacy regulations announced"
                       "negative" 0.1 0.5 ;;
      ret (Some (economic ++ sector ++ competitive ++ technology ++ regulatory))
  | _, _ => ret None
  end.

(** *** AdvancedMarketSimulator *)

(** A float as numpy returns it: a number, or [nan]. *)
Inductive npfloat : Type :=
| NpNum (q : Q)
| NpNaN.

(** [np.mean] of a list of floats: the sum over the length, and [nan] (with
    a warning, no exception) for the empty list. *)
Definition np_mean (l : list Q) : npfloat :=
  match l with
  | [] => NpNaN
  | _ :: _ => NpNum (fold_left Qplus l 0 / inject_Z (Z.of_nat (length l)))
  end.

Record AdvancedMarketSimulator : Type := mkSimulator {
  virtual_customers : list VirtualCustomer;
  economic_cycle : EconomicCycleSimulator;
  total_market_size : Z;
  market_growth_rate : Q;
  competitive_landscape : list (string * Competitor)
}.

(** [AdvancedMarketSimulator.__init__], with the population that
    [_generate_virtual_customers] drew. *)
Definition simulator_init (population : list VirtualCustomer) : AdvancedMarketSimulator :=
  {| virtual_customers := population; economic_cycle := cycle_init;
     total_market_size := 10000000; market_growth_rate := 0.15;
     competitive_landscape := landscape_init |}.

Record ExpansionEntry : Type := mkEntry {
  customer : VirtualCustomer;
  opportunity : Expansion
}.

Record CustomerMetrics : Type := mkMetrics {
  total_customers : Z;
  churned_customers : Z;
  churn_rate : Q;
  expansion_count : Z;
  avg_satisfaction : npfloat;
  avg_loyalty : npfloat
}.

Record MarketResult : Type := mkResult {
  market_conditions : gmap string pyval;
  customer_metrics : CustomerMetrics;
  expansion_opportunities : list ExpansionEntry;
  market_events : list MarketEvent;
  result_landscape : list (string * Competitor);
  market_size : Z
}.

(** The loop over [self.virtual_customers]: every customer is updated in
    place; the result is the updated population, the customers that
    churned, and the expansion opportunities, each in encounter order. An
    exception in the body for one customer ends the loop there. *)
Fixpoint update_customers (mc : gmap string pyval) (cs : list VirtualCustomer)
  : prog Rng (option (list VirtualCustomer * list VirtualCustomer * list ExpansionEntry)) :=
  match cs with
  | [] => ret (Some ([], [], []))
  | c :: cs' =>
      match update_churn_probability c mc with
      | None => ret None
      | Some c' =>
          u <- random ;;
          if Qltb u (churn_probability c')
          then
            r <-! update_customers mc cs' ;;
            let '(updated, churned, expansions) := r in
            ret (Some (c' :: updated, c' :: churned, expansions))
          else
            expansion <-! ret (calculate_expansion_opportunity c') ;;
            r <-! update_customers mc cs' ;;
            let '(updated, churned, expansions) := r in
            if Qltb 0.5 (potential expansion)
            then ret (Some (c' :: updated, churned, mkEntry c' expansion :: expansions))
            else ret (Some (c' :: updated, churned, expansions))
      end
  end.

Definition len {A : Type} (l : list A) : Z := Z.of_nat (length l).

Definition simulate_market_dynamics (s : AdvancedMarketSimulator)
  : prog Rng (option (MarketResult * AdvancedMarketSimulator)) :=
  e <- advance_cycle (economic_cycle s) ;;
  let mc := get_market_conditions e in
  r <-! update_customers mc (virtual_customers s) ;;
  let '(updated, churned, expansions) := r in
  match remove_churned churned updated with
  | None => ret None
  | Some remaining =>
      events <-! _generate_market_events mc ;;
      landscape <-! _update_competitive_landscape mc (competitive_landscape s) ;;
      let metrics :=
        {| total_customers := len remaining;
           churned_customers := len churned;
           churn_rate := inject_Z (len churned)
                         / inject_Z (Z.max 1 (len remaining + len churned));
           expansion_count := len expansions;
           avg_satisfaction := np_mean (map satisfaction remaining);
           avg_loyalty := np_mean (map loyalty remaining) |} in
      ret (Some ({| market_conditions := mc; customer_metrics := metrics;
                    expansion_opportunities := expansions; market_events := events;
                    result_landscape := landscape;
                    market_size := total_market_size s |},
                 {| virtual_customers := remaining; economic_cycle := e;
                    total_market_size := total_market_size s;
                    market_growth_rate := market_growth_rate s;
                    competitive_landscape := landscape |}))
  end.

(** [x] lies in the closed interval from [lo] to [hi]. *)
Definition within (lo x hi : Q) : Prop := lo <= x /\ x <= hi.

(** The customer's size converts to a float. [_generate_virtual_customers]
    draws sizes between 5 and 10000 and no method writes a size. *)
Definition size_in_float_range (c : VirtualCustomer) : Prop :=
  (Z.abs (size c) < float_limit)%Z.

(** The number of draws [advance_cycle] consumes before it redraws the
    indicators: one when the phase has outlasted its minimum, so that the
    transition is put to a draw, and none otherwise. *)
Definition transition_draws (e : EconomicCycleSimulator) : nat :=
  match current_phase e with
  | GROWTH => if (24 <? phase_duration e + 1)%Z then 1 else 0
  | BOOM => if (12 <? phase_duration e + 1)%Z then 1 else 0
  | RECESSION => if (18 <? phase_duration e + 1)%Z then 1 else 0
  | RECOVERY => if (15 <? phase_duration e + 1)%Z then 1 else 0
  | STAGNATION => 0
  end%nat.

(** [random.uniform(lo, hi)] when [random.random()] returns the draw
    number [k] of the source. *)
Definition uniform_at (r : Rng) (k : nat) (lo hi : Q) : Q := lo + (hi - lo) * draws r k.

(** What the second loop of [_update_competitive_landscape] makes of one
    entry when the total is [t]. *)
Definition scale_share (t : Q) (kd : string * Competitor) : string * Competitor :=
  (fst kd, mkCompetitor (share (snd kd) / t) (strength (snd kd))).

(** *** Runs of the economic cycle *)

(** [n] successive calls of [advance_cycle]. *)
Fixpoint advance_n (n : nat) (e : EconomicCycleSimulator) : prog Rng EconomicCycleSimulator :=
  match n with
  | O => ret e
  | S n' => e' <- advance_cycle e ;; advance_n n' e'
  end.

(** The states of the cycle a freshly built engine can be in: the initial
    one, and any state [advance_cycle] makes from a reachable one, whatever
    the random source draws. *)
Inductive reachable : EconomicCycleSimulator -> Prop :=
| reach_init : reachable cycle_init
| reach_step (e : EconomicCycleSimulator) (r : Rng) :
    reachable e -> valid_rng r -> reachable (fst (advance_cycle e r)).

(** *** Sample values *)

(** A source whose every draw is [q]. *)
Definition rng_const (q : Q) : Rng := mkRng (fun _ => q) 0.

Definition set_inflation_volatility (e : EconomicCycleSimulator) (i v : Q) : EconomicCycleSimulator :=
  {| current_phase := current_phase e; phase_duration := phase_duration e;
     interest_rates := interest_rates e; inflation_rate := i;
     unemployment_rate := unemployment_rate e; gdp_growth := gdp_growth e;
     market_volatility := v;
     tech_sector_performance := tech_sector_performance e |}.

Definition sample_customer (sat loy sens : Q) : VirtualCustomer :=
  {| id := "customer_000"; name := "Technology Corp 000"; segment := SMB;
     industry := "Technology"; size := 50; budget := 20000;
     satisfaction := sat; loyalty := loy; churn_probability := 0.1;
     lifetime_value := 40000; decision_speed := 0.5; price_sensitivity := sens;
     feature_preferences := ∅; adoption_rate := 0.5;
     support_tickets_per_month := 2; expansion_potential := 0.3;
     contract_length := 12; renewal_probability := 0.8 |}.

(** *** The transition table of [advance_cycle] *)

(** The phase each arm of the transition chain moves to; no arm starts
    from Stagnation. *)
Definition successor (p : MarketPhase) : MarketPhase :=
  match p with
  | GROWTH => BOOM | BOOM => RECESSION | RECESSION => RECOVERY | RECOVERY => GROWTH
  | STAGNATION => STAGNATION
  end.

(** The duration an arm asks the phase to exceed, and the probability it
    compares its draw with. *)
Definition min_duration (p : MarketPhase) : option Z :=
  match p with
  | GROWTH => Some 24%Z | BOOM => Some 12%Z | RECESSION => Some 18%Z | RECOVERY => Some 15%Z
  | STAGNATION => None
  end.

Definition transition_probability (p : MarketPhase) : Q :=
  match p with
  | GROWTH => 0.3 | BOOM => 0.4 | RECESSION => 0.5 | RECOVERY => 0.6 | STAGNATION => 0
  end.

(** Whether a call of [advance_cycle] on [e] with the source [r] changes
    the phase. *)
Definition transition_due (e : EconomicCycleSimulator) (r : Rng) : bool :=
  match min_duration (current_phase e) with
  | Some d => (d <? phase_duration e + 1)%Z
              && Qltb (draws r (cursor r)) (transition_probability (current_phase e))
  | None => false
  end.

(** *** Other methods of [VirtualCustomer] *)

Definition set_satisfaction (c : VirtualCustomer) (x : Q) : VirtualCustomer :=
  {| id := id c; name := name c; segment := segment c; industry := industry c;
     size := size c; budget := budget c; satisfaction := x;
     loyalty := loyalty c; churn_probability := churn_probability c;
     lifetime_value := lifetime_value c; decision_speed := decision_speed c;
     price_sensitivity := price_sensitivity c;
     feature_preferences := feature_preferences c;
     adoption_rate := adoption_rate c;
     support_tickets_per_month := support_tickets_per_month c;
     expansion_potential := expansion_potential c;
     contract_length := contract_length c;
     renewal_probability := renewal_probability c |}.

Definition set_loyalty (c : VirtualCustomer) (x : Q) : VirtualCustomer :=
  {| id := id c; name := name c; segment := segment c; industry := industry c;
     size := size c; budget := budget c; satisfaction := satisfaction c;
     loyalty := x; churn_probability := churn_probability c;
     lifetime_value := lifetime_value c; decision_speed := decision_speed c;
     price_sensitivity := price_sensitivity c;
     feature_preferences := feature_preferences c;
     adoption_rate := adoption_rate c;
     support_tickets_per_month := support_tickets_per_month c;
     expansion_potential := expansion_potential c;
     contract_length := contract_length c;
     renewal_probability := renewal_probability c |}.

Definition set_size (c : VirtualCustomer) (n : Z) : VirtualCustomer :=
  {| id := id c; name := name c; segment := segment c; industry := industry c;
     size := n; budget := budget c; satisfaction := satisfaction c;
     loyalty := loyalty c; churn_probability := churn_probability c;
     lifetime_value := lifetime_value c; decision_speed := decision_speed c;
     price_sensitivity := price_sensitivity c;
     feature_preferences := feature_preferences c;
     adoption_rate := adoption_rate c;
     support_tickets_per_month := support_tickets_per_month c;
     expansion_potential := expansion_potential c;
     contract_length := contract_length c;
     renewal_probability := renewal_probability c |}.

Definition set_preferences (c : VirtualCustomer) (prefs : gmap string Q) : VirtualCustomer :=
  {| id := id c; name := name c; segment := segment c; industry := industry c;
     size := size c; budget := budget c; satisfaction := satisfaction c;
     loyalty := loyalty c; churn_probability := churn_probability c;
     lifetime_value := lifetime_value c; decision_speed := decision_speed c;
     price_sensitivity := price_sensitivity c;
     feature_preferences := prefs;
     adoption_rate := adoption_rate c;
     support_tickets_per_month := support_tickets_per_month c;
     expansion_potential := expansion_potential c;
     contract_length := contract_length c;
     renewal_probability := renewal_probability c |}.

(** The loop of [react_to_product_changes] over the items of [changes] (in
    iteration order, with numeric impacts), from the reactions gathered so
    far. *)
Fixpoint react_loop (c : VirtualCustomer) (reactions : gmap string Q)
    (changes : list (string * Q)) : gmap string Q * VirtualCustomer :=
  match changes with
  | [] => (reactions, c)
  | (feature, impact) :: rest =>
      match feature_preferences c !! feature with
      | Some preference_weight =>
          let reaction := impact * preference_weight in
          react_loop
            (set_satisfaction c (pymax 0 (pymin 1 (satisfaction c + reaction * 0.1))))
            (<[feature := reaction]> reactions) rest
      | None => react_loop c reactions rest
      end
  end.

Definition react_to_product_changes (c : VirtualCustomer) (changes : list (string * Q))
  : gmap string Q * VirtualCustomer :=
  react_loop c ∅ changes.

(** [n] successive market ticks; [None] as soon as one raises. *)
Fixpoint simulate_n (n : nat) (s : AdvancedMarketSimulator)
  : prog Rng (option AdvancedMarketSimulator) :=
  match n with
  | O => ret (Some s)
  | S n' => rs <-! simulate_market_dynamics s ;; simulate_n n' (snd rs)
  end.

(** *** Segment analysis and campaigns *)

Definition segment_value (g : CustomerSegment) : string :=
  match g with
  | ENTERPRISE => "enterprise" | MID_MARKET => "mid_market"
  | SMB => "smb" | STARTUP => "startup"
  end.

Record SegmentStats : Type := mkSegmentStats {
  seg_count : Z;
  seg_avg_satisfaction : npfloat;
  seg_avg_loyalty : npfloat;
  seg_avg_ltv : npfloat;
  seg_churn_risk : npfloat;
  seg_expansion_potential : npfloat
}.

Definition segment_customers (cs : list VirtualCustomer) (g : CustomerSegment) : list VirtualCustomer :=
  filter (fun c => segment_eqb (segment c) g = true) cs.

Definition segment_stats (l : list VirtualCustomer) : SegmentStats :=
  {| seg_count := len l;
     seg_avg_satisfaction := np_mean (map satisfaction l);
     seg_avg_loyalty := np_mean (map loyalty l);
     seg_avg_ltv := np_mean (map lifetime_value l);
     seg_churn_risk := np_mean (map churn_probability l);
     seg_expansion_potential := np_mean (map expansion_potential l) |}.

(** [get_customer_segments_analysis]: the loop over the four segments; a
    segment without customers gets no entry. *)
Definition get_customer_segments_analysis (s : AdvancedMarketSimulator) : gmap string SegmentStats :=
  fold_left
    (fun segments g =>
       let l := segment_customers (virtual_customers s) g in
       match l with
       | [] => segments
       | _ :: _ => <[segment_value g := segment_stats l]> segments
       end)
    [ENTERPRISE; MID_MARKET; SMB; STARTUP] ∅.

Record CampaignEffect : Type := mkEffect {
  eff_satisfaction : Q;
  eff_loyalty : Q;
  eff_acquisition : Q
}.

Definition campaign_effects (campaign_type : string) : option CampaignEffect :=
  if String.eqb campaign_type "brand_awareness" then Some (mkEffect 0.05 0.03 0.1)
  else if String.eqb campaign_type "product_demo" then Some (mkEffect 0.1 0.05 0.15)
  else if String.eqb campaign_type "customer_success" then Some (mkEffect 0.15 0.1 0.05)
  else if String.eqb campaign_type "pricing_promotion" then Some (mkEffect 0.08 0.02 0.2)
  else None.

Record ImpactResults : Type := mkImpact {
  customers_affected : Z;
  satisfaction_improvement : Q;
  loyalty_improvement : Q;
  acquisition_potential : Q
}.

(** Whether the campaign reaches the customer: [if target_segment:] treats
    [None] and the empty string alike, as no filter. *)
Definition targeted (target_segment : option string) (c : VirtualCustomer) : bool :=
  match target_segment with
  | None => true
  | Some EmptyString => true
  | Some t => String.eqb (segment_value (segment c)) t
  end.

Definition apply_campaign (effects : CampaignEffect) (c : VirtualCustomer) : VirtualCustomer :=
  set_loyalty
    (set_satisfaction c (pymin 1.0 (satisfaction c + eff_satisfaction effects)))
    (pymin 1.0 (loyalty c + eff_loyalty effects)).

(** [simulate_campaign_impact]: the customers are updated in place, so the
    population keeps its order and the customers the campaign does not
    reach keep their values. Each customer is an object of its own (the
    constructor builds them one by one and nothing copies a reference), so
    a customer is updated once. *)
Definition simulate_campaign_impact (s : AdvancedMarketSimulator) (campaign_type : string)
    (target_segment : option string) : ImpactResults * AdvancedMarketSimulator :=
  match campaign_effects campaign_type with
  | None => (mkImpact 0 0 0 0, s)
  | Some effects =>
      let target_customers := filter (fun c => targeted target_segment c = true) (virtual_customers s) in
      (mkImpact (len target_customers) (eff_satisfaction effects) (eff_loyalty effects)
         (eff_acquisition effects),
       {| virtual_customers :=
            map (fun c => if targeted target_segment c then apply_campaign effects c else c)
              (virtual_customers s);
          economic_cycle := economic_cycle s;
          total_market_size := total_market_size s;
          market_growth_rate := market_growth_rate s;
          competitive_landscape := competitive_landscape s |})
  end.

End Market.

(** ** The ambient identifier and clock sources *)

Record Ambient : Type := mkAmbient {
  uuids : nat -> string;     (* the successive results of str(uuid.uuid4()) *)
  uuid_cursor : nat;
  times : nat -> Z;          (* the successive results of datetime.now() *)
  time_cursor : nat
}.

Definition uuid4 : prog Ambient string :=
  fun a => (uuids a (uuid_cursor a),
            mkAmbient (uuids a) (S (uuid_cursor a)) (times a) (time_cursor a)).

Definition now : prog Ambient Z :=
  fun a => (times a (time_cursor a),
            mkAmbient (uuids a) (uuid_cursor a) (times a) (S (time_cursor a))).

(** Running an ambient effect, reading and updating the object, in a program
    over the pair of both. *)
Definition ambient {C A : Type} (m : prog Ambient A) : prog (Ambient * C) A :=
  fun s => let (x, a') := m (fst s) in (x, (a', snd s)).

Definition get {E C : Type} : prog (E * C) C := fun s => (snd s, s).

Definition modify {E C : Type} (f : C -> C) : prog (E * C) unit :=
  fun s => (tt, (fst s, f (snd s))).

Module Comm.

(** *** Enumerations and records of [communication_system.py] *)

Inductive MessageType : Type :=
| TASK_ASSIGNMENT | COLLABORATION_REQUEST | DECISION_NOTIFICATION | STATUS_UPDATE
| MEETING_REQUEST | BUDGET_REQUEST | APPROVAL_REQUEST | GENERAL_COMMUNICATION
| CRISIS_ALERT.

Inductive Priority : Type := LOW | MEDIUM | HIGH | URGENT | CRITICAL.

Definition priority_value (p : Priority) : Z :=
  match p with LOW => 1 | MEDIUM => 2 | HIGH => 3 | URGENT => 4 | CRITICAL => 5 end.

Record Message : Type := mkMessage {
  id : string;
  sender_id : string;
  receiver_id : string;
  message_type : MessageType;
  subject : string;
  content : string;
  priority : Priority;
  created_at : Z;
  read_at : option Z;
  responded_at : option Z;
  metadata : gmap string string
}.

Definition set_read_at (m : Message) (t : Z) : Message :=
  {| id := id m; sender_id := sender_id m; receiver_id := receiver_id m;
     message_type := message_type m; subject := subject m; content := content m;
     priority := priority m; created_at := created_at m;
     read_at := Some t; responded_at := responded_at m; metadata := metadata m |}.

Definition set_responded_at (m : Message) (t : Z) : Message :=
  {| id := id m; sender_id := sender_id m; receiver_id := receiver_id m;
     message_type := message_type m; subject := subject m; content := content m;
     priority := priority m; created_at := created_at m;
     read_at := read_at m; responded_at := Some t; metadata := metadata m |}.

Record Notification : Type := mkNotification {
  notif_id : string;
  agent_id : string;
  message_id : string;
  notif_priority : Priority;
  timestamp : Z;
  acknowledged : bool
}.

(** The state of a [CommunicationSystem] that its messaging methods read
    and write. [messages] is the store of message objects; a queue holds
    references to them, that is, positions in [messages] (a message is
    appended once and never removed, so its position is its identity). *)
Record CommunicationSystem : Type := mkComm {
  messages : list Message;
  message_queues : gmap string (list nat);
  notifications : list Notification
}.

(** [CommunicationSystem.__init__] *)
Definition comm_init : CommunicationSystem :=
  {| messages := []; message_queues := ∅; notifications := [] |}.

Definition set_messages (cs : CommunicationSystem) (l : list Message) : CommunicationSystem :=
  {| messages := l; message_queues := message_queues cs; notifications := notifications cs |}.

(** [NotificationSystem.send_notification]; the escalation of a critical
    message is [pass]. *)
Definition send_notification (agent : string) (m : Message) : prog (Ambient * CommunicationSystem) unit :=
  nid <- ambient uuid4 ;;
  t <- ambient now ;;
  modify (fun cs =>
    {| messages := messages cs; message_queues := message_queues cs;
       notifications := notifications cs ++ [mkNotification nid agent (id m) (priority m) t false] |}).

Definition send_message (sender receiver : string) (mtype : MessageType)
    (subj body : string) (prio : Priority) (meta : gmap string string)
  : prog (Ambient * CommunicationSystem) string :=
  mid <- ambient uuid4 ;;
  created <- ambient now ;;
  let message := mkMessage mid sender receiver mtype subj body prio created None None meta in
  _ <- modify (fun cs =>
    {| messages := messages cs ++ [message];
       message_queues :=
         <[receiver := default [] (message_queues cs !! receiver) ++ [length (messages cs)]]>
           (message_queues cs);
       notifications := notifications cs |}) ;;
  _ <- (if (priority_value HIGH <=? priority_value prio)%Z
        then send_notification receiver message
        else ret tt) ;;
  ret mid.

(** The message [send_message] builds from the next identifier and the next
    clock reading. *)
Definition sent_message (a : Ambient) (sender receiver : string) (mtype : MessageType)
    (subj body : string) (prio : Priority) (meta : gmap string string) : Message :=
  mkMessage (uuids a (uuid_cursor a)) sender receiver mtype subj body prio
    (times a (time_cursor a)) None None meta.

(** [get_messages]: the queue's references resolved against the store. *)
Definition get_messages (cs : CommunicationSystem) (agent : string) (unread_only : bool) : list Message :=
  let agent_messages :=
    omap (fun i => messages cs !! i) (default [] (message_queues cs !! agent)) in
  if unread_only
  then filter (fun msg => read_at msg = None) agent_messages
  else agent_messages.

Definition mark_message_read (mid reader : string) : prog (Ambient * CommunicationSystem) bool :=
  cs <- get ;;
  match list_find (fun message => id message = mid /\ receiver_id message = reader) (messages cs) with
  | Some (i, message) =>
      t <- ambient now ;;
      _ <- modify (fun cs => set_messages cs (<[i := set_read_at message t]> (messages cs))) ;;
      ret true
  | None => ret false
  end.

Definition respond_to_message (original_message_id response_content sender : string)
  : prog (Ambient * CommunicationSystem) (option string) :=
  cs <- get ;;
  match list_find (fun msg => id msg = original_message_id) (messages cs) with
  | None => ret None
  | Some (i, original_message) =>
      t <- ambient now ;;
      _ <- modify (fun cs => set_messages cs (<[i := set_responded_at original_message t]> (messages cs))) ;;
      response_id <- send_message sender (sender_id original_message) GENERAL_COMMUNICATION
                       ("Re: " +:+ subject original_message) response_content
                       (priority original_message)
                       {["in_reply_to"%string := original_message_id]} ;;
      ret (Some response_id)
  end.

Fixpoint broadcast_message (sender : string) (recipient_ids : list string)
    (mtype : MessageType) (subj body : string) (prio : Priority)
  : prog (Ambient * CommunicationSystem) (list string) :=
  match recipient_ids with
  | [] => ret []
  | recipient :: rest =>
      msg_id <- send_message sender recipient mtype subj body prio ∅ ;;
      ids <- broadcast_message sender rest mtype subj body prio ;;
      ret (msg_id :: ids)
  end.

(** *** NegotiationSystem *)

(** What a proposal or a resolution holds under a key: the annotation is
    [Dict[str, Any]]. The code itself reads no value and writes strings; any
    other object a caller put there is known by its identity. *)
Inductive pyobj : Type :=
| PStr (s : string)
| PNum (q : Q)
| PObject (identity : nat).

Definition Dict : Type := gmap string pyobj.

(** A negotiation holds the dicts it was given, its proposals and its
    resolution, by reference: the numbers are identities of dict objects,
    whose contents are in [dict_objects] below. *)
Record Negotiation : Type := mkNegotiation {
  neg_id : string;
  initiator : string;
  other_party : string;
  topic : string;
  status : string;
  proposals : list nat;
  neg_created_at : Z;
  resolution : option nat;
  resolved_at : option Z
}.

(** The negotiation system reaches the communication system through its
    [communication_system] attribute; the model keeps that object's state
    in the field of the same name. [dict_objects] is the contents of the
    dict objects the callers hand to the methods: the methods store these
    objects as they are and [add_counter_proposal] writes into the one it
    is given, so a dict handed over twice is one object here as well. *)
Record NegotiationSystem : Type := mkNegSys {
  communication_system : CommunicationSystem;
  active_negotiations : gmap string Negotiation;
  resolution_history : list Negotiation;
  dict_objects : nat -> Dict
}.

(** [NegotiationSystem.__init__], among the dict objects [objects]. *)
Definition negotiation_init (cs : CommunicationSystem) (objects : nat -> Dict)
  : NegotiationSystem :=
  {| communication_system := cs; active_negotiations := ∅; resolution_history := [];
     dict_objects := objects |}.

(** A method of the communication system called through
    [self.communication_system]. *)
Definition via_comm {A : Type} (m : prog (Ambient * CommunicationSystem) A)
  : prog (Ambient * NegotiationSystem) A :=
  fun s =>
    let '(x, (a', cs')) := m (fst s, communication_system (snd s)) in
    (x, (a', {| communication_system := cs';
                active_negotiations := active_negotiations (snd s);
                resolution_history := resolution_history (snd s);
                dict_objects := dict_objects (snd s) |})).

Definition set_negotiations (ns : NegotiationSystem) (active : gmap string Negotiation)
    (history : list Negotiation) : NegotiationSystem :=
  {| communication_system := communication_system ns; active_negotiations := active;
     resolution_history := history; dict_objects := dict_objects ns |}.

(** [d[k] = v] on the dict object [p], for each key of an update. *)
Definition set_dict (ns : NegotiationSystem) (p : nat) (d : Dict) : NegotiationSystem :=
  {| communication_system := communication_system ns;
     active_negotiations := active_negotiations ns;
     resolution_history := resolution_history ns;
     dict_objects := fun q => if Nat.eqb q p then d else dict_objects ns q |}.

Section Negotiation.

(** [json.dumps(_, indent=2)], which raises [TypeError] ([None]) on a dict
    holding a value it cannot serialise, and [datetime.isoformat], as the
    standard library provides them. *)
Variable json_dumps : Dict -> option string.
Variable isoformat : Z -> string.

(** [json.dumps] of the dict object [p] as it is now. *)
Definition dumps (p : nat) : prog (Ambient * NegotiationSystem) (option string) :=
  ns <- get ;; ret (json_dumps (dict_objects ns p)).

(** The arguments of [send_message] are evaluated before the call: when
    [json.dumps] raises, the negotiation is filed and nothing is sent. *)
Definition initiate_negotiation (initiator_id other_party_id topic_ : string)
    (initial_proposal : nat) : prog (Ambient * NegotiationSystem) (option string) :=
  negotiation_id <- ambient uuid4 ;;
  created <- ambient now ;;
  let negotiation :=
    {| neg_id := negotiation_id; initiator := initiator_id; other_party := other_party_id;
       topic := topic_; status := "active"; proposals := [initial_proposal];
       neg_created_at := created; resolution := None; resolved_at := None |} in
  _ <- modify (fun ns =>
    set_negotiations ns (<[negotiation_id := negotiation]> (active_negotiations ns))
      (resolution_history ns)) ;;
  text <-! dumps initial_proposal ;;
  _ <- via_comm (send_message initiator_id other_party_id COLLABORATION_REQUEST
                   ("Negotiation Request: " +:+ topic_)
                   ("Proposal: " +:+ text)
                   HIGH {["negotiation_id"%string := negotiation_id]}) ;;
  ret (Some negotiation_id).

Definition add_proposal (n : Negotiation) (p : nat) : Negotiation :=
  {| neg_id := neg_id n; initiator := initiator n; other_party := other_party n;
     topic := topic n; status := status n; proposals := proposals n ++ [p];
     neg_created_at := neg_created_at n; resolution := resolution n;
     resolved_at := resolved_at n |}.

(** The two entries [add_counter_proposal] writes into the proposal. *)
Definition stamp (agent : string) (t : Z) (d : Dict) : Dict :=
  <["timestamp"%string := PStr (isoformat t)]> (<["proposed_by"%string := PStr agent]> d).

Definition add_counter_proposal (negotiation_id agent : string) (proposal : nat)
  : prog (Ambient * NegotiationSystem) (option bool) :=
  ns <- get ;;
  match active_negotiations ns !! negotiation_id with
  | None => ret (Some false)
  | Some negotiation =>
      t <- ambient now ;;
      _ <- modify (fun ns => set_dict ns proposal (stamp agent t (dict_objects ns proposal))) ;;
      _ <- modify (fun ns =>
        set_negotiations ns
          (<[negotiation_id := add_proposal negotiation proposal]> (active_negotiations ns))
          (resolution_history ns)) ;;
      let other :=
        if String.eqb agent (initiator negotiation)
        then other_party negotiation else initiator negotiation in
      text <-! dumps proposal ;;
      _ <- via_comm (send_message agent other GENERAL_COMMUNICATION
                       ("Counter-proposal: " +:+ topic negotiation)
                       ("New proposal: " +:+ text)
                       HIGH {["negotiation_id"%string := negotiation_id]}) ;;
      ret (Some true)
  end.

Definition resolve (n : Negotiation) (r : nat) (t : Z) : Negotiation :=
  {| neg_id := neg_id n; initiator := initiator n; other_party := other_party n;
     topic := topic n; status := "resolved"; proposals := proposals n;
     neg_created_at := neg_created_at n; resolution := Some r;
     resolved_at := Some t |}.

Definition notify_resolved (n : Negotiation) (r : nat) (participant : string)
  : prog (Ambient * NegotiationSystem) (option string) :=
  text <-! dumps r ;;
  mid <- via_comm (send_message "system" participant DECISION_NOTIFICATION
                     ("Negotiation Resolved: " +:+ topic n)
                     ("Resolution: " +:+ text) HIGH ∅) ;;
  ret (Some mid).

(** The negotiation is archived before the notices are built: when
    [json.dumps] raises it stays archived and nothing is sent. *)
Definition resolve_negotiation (negotiation_id : string) (r : nat)
  : prog (Ambient * NegotiationSystem) (option bool) :=
  ns <- get ;;
  match active_negotiations ns !! negotiation_id with
  | None => ret (Some false)
  | Some negotiation =>
      t <- ambient now ;;
      let negotiation := resolve negotiation r t in
      _ <- modify (fun ns =>
        set_negotiations ns (delete negotiation_id (active_negotiations ns))
          (resolution_history ns ++ [negotiation])) ;;
      _ <-! notify_resolved negotiation r (initiator negotiation) ;;
      _ <-! notify_resolved negotiation r (other_party negotiation) ;;
      ret (Some true)
  end.

End Negotiation.

(** The two notices [resolve_negotiation] sends, in order. *)
Definition resolved_notice (n : Negotiation) (text participant mid : string) (t : Z) : Message :=
  mkMessage mid "system" participant DECISION_NOTIFICATION
    ("Negotiation Resolved: " +:+ topic n) ("Resolution: " +:+ text) HIGH t
    None None ∅.

(** The negotiation [initiate_negotiation] files. *)
Definition opened (a : Ambient) (initiator_id other_party_id topic_ : string)
    (initial_proposal : nat) : Negotiation :=
  {| neg_id := uuids a (uuid_cursor a); initiator := initiator_id;
     other_party := other_party_id; topic := topic_; status := "active";
     proposals := [initial_proposal]; neg_created_at := times a (time_cursor a);
     resolution := None; resolved_at := None |}.

(** *** Sample values *)

Definition sample_uuids (n : nat) : string :=
  match n with
  | 0%nat => "uuid-a" | 1%nat => "uuid-b" | 2%nat => "uuid-c" | 3%nat => "uuid-d"
  | 4%nat => "uuid-e" | 5%nat => "uuid-f" | 6%nat => "uuid-g" | _ => "uuid-h"
  end.

Definition sample_ambient : Ambient := mkAmbient sample_uuids 0 (fun n => Z.of_nat n) 0.

Definition sample_message (receiver : string) : Message :=
  mkMessage "msg-1" "alice" receiver STATUS_UPDATE "Weekly status" "All green" MEDIUM 0
    None None ∅.

Definition sample_comm : CommunicationSystem :=
  {| messages := [sample_message "bob"];
     message_queues := {["bob"%string := [0%nat]]};
     notifications := [] |}.

(** A serialiser that refuses every object that is neither a string nor a
    number. *)
Definition sample_json (d : Dict) : option string :=
  if forallb (fun kv => match snd kv with PObject _ => false | _ => true end) (map_to_list d)
  then Some "{...}"%string else None.

Definition sample_iso (t : Z) : string := "2024-01-01T00:00:00".

(** Three dict objects: two proposals, and a dict holding an object json
    cannot serialise. *)
Definition sample_objects (p : nat) : Dict :=
  match p with
  | 0%nat => {["amount"%string := PStr "100"]}
  | 1%nat => {["amount"%string := PStr "80"]}
  | 2%nat => {["attachment"%string := PObject 7]}
  | _ => ∅
  end.

Definition sample_negotiation : Negotiation :=
  {| neg_id := "uuid-a"; initiator := "alice"; other_party := "bob"; topic := "budget";
     status := "active"; proposals := [0%nat];
     neg_created_at := 0; resolution := None; resolved_at := None |}.

(** A negotiation system in which alice has opened a negotiation with bob. *)
Definition sample_negsys : NegotiationSystem :=
  {| communication_system := sample_comm;
     active_negotiations := {["uuid-a"%string := sample_negotiation]};
     resolution_history := [];
     dict_objects := sample_objects |}.

(** *** The negotiation state machine *)

(** What holds of every negotiation the system keeps: an active one is
    filed under its own id, has the status active, at least one proposal
    and no resolution; an archived one has the status resolved, a
    resolution and the time it was resolved. *)
Definition active_ok (k : string) (n : Negotiation) : Prop :=
  neg_id n = k /\ status n = "active"%string /\ proposals n <> []
  /\ resolution n = None /\ resolved_at n = None.

Definition archived_ok (n : Negotiation) : Prop :=
  status n = "resolved"%string /\ proposals n <> []
  /\ is_Some (resolution n) /\ is_Some (resolved_at n).

Definition negotiations_ok (ns : NegotiationSystem) : Prop :=
  (forall k n, active_negotiations ns !! k = Some n -> active_ok k n)
  /\ Forall archived_ok (resolution_history ns).

(** The party a counter-proposal by [agent] is announced to. *)
Definition counterpart (n : Negotiation) (agent : string) : string :=
  if String.eqb agent (initiator n) then other_party n else initiator n.

(** *** Queues and the message store *)

Definition queue_of (cs : CommunicationSystem) (agent : string) : list nat :=
  default [] (message_queues cs !! agent).

(** The positions, counted from [k], of the messages of [l] addressed to
    [agent]. *)
Fixpoint indices_from (k : nat) (l : list Message) (agent : string) : list nat :=
  match l with
  | [] => []
  | m :: l' =>
      if decide (receiver_id m = agent)
      then k :: indices_from (S k) l' agent
      else indices_from (S k) l' agent
  end.

(** Every queue holds exactly the messages addressed to its agent, each
    once, in the order they were sent. *)
Definition queues_exact (cs : CommunicationSystem) : Prop :=
  forall agent, queue_of cs agent = indices_from 0 (messages cs) agent.

(** *** Analytics *)

Definition message_type_value (t : MessageType) : string :=
  match t with
  | TASK_ASSIGNMENT => "task_assignment"
  | COLLABORATION_REQUEST => "collaboration_request"
  | DECISION_NOTIFICATION => "decision_notification"
  | STATUS_UPDATE => "status_update"
  | MEETING_REQUEST => "meeting_request"
  | BUDGET_REQUEST => "budget_request"
  | APPROVAL_REQUEST => "approval_request"
  | GENERAL_COMMUNICATION => "general_communication"
  | CRISIS_ALERT => "crisis_alert"
  end.

Definition priority_name (p : Priority) : string :=
  match p with
  | LOW => "LOW" | MEDIUM => "MEDIUM" | HIGH => "HIGH" | URGENT => "URGENT"
  | CRITICAL => "CRITICAL"
  end.

(** [(later - earlier).days], clock readings being microseconds: the
    difference in whole days, rounded down. *)
Definition days_between (later earlier : Z) : Z := ((later - earlier) / 86400000000)%Z.

(** [d[k] = d.get(k, 0) + 1] *)
Definition bump (k : string) (d : gmap string Z) : gmap string Z :=
  <[k := (default 0 (d !! k) + 1)%Z]> d.

Record Analytics : Type := mkAnalytics {
  total_messages : Z;
  messages_by_type : gmap string Z;
  messages_by_priority : gmap string Z;
  response_rate : Q;
  average_response_time : Q;
  most_active_senders : gmap string Z;
  communication_patterns : gmap string Z
}.

Definition recent_messages (cs : CommunicationSystem) (cutoff_date time_period_days : Z) : list Message :=
  filter (fun msg => (days_between cutoff_date (created_at msg) <= time_period_days)%Z) (messages cs).

Definition analytics_of (recent : list Message) : Analytics :=
  let responded_messages := filter (fun msg => responded_at msg <> None) recent in
  {| total_messages := Z.of_nat (length recent);
     messages_by_type :=
       fold_left (fun d msg => bump (message_type_value (message_type msg)) d) recent ∅;
     messages_by_priority :=
       fold_left (fun d msg => bump (priority_name (priority msg)) d) recent ∅;
     response_rate :=
       match recent with
       | [] => 0.0
       | _ :: _ => inject_Z (Z.of_nat (length responded_messages))
                   / inject_Z (Z.of_nat (length recent))
       end;
     average_response_time := 0.0;
     most_active_senders := fold_left (fun d msg => bump (sender_id msg) d) recent ∅;
     communication_patterns := ∅ |}.

Definition get_communication_analytics (time_period_days : Z)
  : prog (Ambient * CommunicationSystem) Analytics :=
  cutoff_date <- ambient now ;;
  cs <- get ;;
  ret (analytics_of (recent_messages cs cutoff_date time_period_days)).

End Comm.

Module Sim.

(** *** The day scheduler of [organizational_simulator.py] *)

Section Scheduler.

(** The agents, the organizational memory and the event lists, and a daily
    snapshot: objects of the agent layer, which the scheduler passes on
    without looking inside. *)
Variable Organization : Type.
Variable Snapshot : Type.
Variables Activities Collaborations Negotiations Events : Type.
Variable Summary : Type.

Record OrganizationalSimulator : Type := mkOrgSim {
  simulation_day : Z;
  is_running : bool;
  market_simulator : Market.AdvancedMarketSimulator;
  performance_metrics : gmap string Market.npfloat;
  financial_metrics : gmap string Q;
  organizational_health : gmap string Q;
  daily_snapshots : list Snapshot;
  organization : Organization
}.

(** The random source and the clock the scheduler and its callees draw
    from. *)
Definition Env : Type := Rng * Ambient.

Definition State : Type := Env * OrganizationalSimulator.

(** The per-day steps that work on the agent layer; each may read and
    write the whole simulator and draw from the environment, and each may
    raise ([None]): the agents run a language model, [_process_collaborations]
    and [_process_negotiations] call [add_lesson_learned] and
    [mediate_negotiation], which no class defines, when their draws take
    them there, and [_update_organizational_metrics] divides by the number
    of agents. *)
Variable _process_daily_agent_activities :
  Market.MarketResult -> prog State (option Activities).
Variable _process_collaborations : prog State (option Collaborations).
Variable _process_negotiations : prog State (option Negotiations).
Variable _update_organizational_metrics :
  Market.MarketResult -> Activities -> prog State (option unit).
Variable _generate_daily_events : Market.MarketResult -> prog State (option Events).
Variable _update_financial_metrics : Market.MarketResult -> prog State (option unit).

(** The comprehension [{role: activities["agent_status"] ...}] of the
    snapshot ([KeyError] when an entry lacks the key) and the dict the
    snapshot is, once all its entries are evaluated. *)
Variable agent_summary : Activities -> option Summary.

(** [datetime.now() + timedelta(days=n)]: [OverflowError] when the number
    of days or the resulting date is out of range. *)
Variable plus_days : Z -> Z -> option Z.
Variable snapshot_of :
  Z -> Z -> Market.MarketResult -> Activities -> Summary -> Collaborations ->
  Negotiations -> Events -> OrganizationalSimulator -> Snapshot.

(** What [advance_day] returns: the dict [{"status": "simulation_not_running"}]
    or the day's snapshot. *)
Inductive DayResult : Type :=
| NotRunning (status_ : string)
| Day (snapshot : Snapshot).

Definition set_day (s : OrganizationalSimulator) (d : Z) : OrganizationalSimulator :=
  {| simulation_day := d; is_running := is_running s;
     market_simulator := market_simulator s;
     performance_metrics := performance_metrics s;
     financial_metrics := financial_metrics s;
     organizational_health := organizational_health s;
     daily_snapshots := daily_snapshots s; organization := organization s |}.

Definition set_snapshots (s : OrganizationalSimulator) (l : list Snapshot) : OrganizationalSimulator :=
  {| simulation_day := simulation_day s; is_running := is_running s;
     market_simulator := market_simulator s;
     performance_metrics := performance_metrics s;
     financial_metrics := financial_metrics s;
     organizational_health := organizational_health s;
     daily_snapshots := l; organization := organization s |}.

(** [self.market_simulator.simulate_market_dynamics()] *)
Definition market_tick : prog State (option Market.MarketResult) :=
  fun st =>
    let '((rng, amb), s) := st in
    match Market.simulate_market_dynamics (market_simulator s) rng with
    | (Some (result, m'), rng') =>
        (Some result,
         ((rng', amb),
          {| simulation_day := simulation_day s; is_running := is_running s;
             market_simulator := m';
             performance_metrics := performance_metrics s;
             financial_metrics := financial_metrics s;
             organizational_health := organizational_health s;
             daily_snapshots := daily_snapshots s; organization := organization s |}))
    | (None, rng') => (None, ((rng', amb), s))
    end.

Definition clock : prog State Z :=
  fun st => let '((rng, amb), s) := st in
            let (t, amb') := now amb in (t, ((rng, amb'), s)).

(** The names an instance of [CommunicationSystem] answers to: the
    attributes its constructor sets and the methods of the class, which
    defines no [__getattr__] and has no base class. *)
Definition communication_system_members : list string :=
  ["messages"; "message_queues"; "organizational_memory"; "meeting_rooms";
   "notification_system"; "send_message"; "get_messages"; "mark_message_read";
   "respond_to_message"; "broadcast_message"; "create_meeting"; "conduct_meeting";
   "get_communication_analytics"]%string.

(** [_capture_daily_snapshot] returns one dict display, evaluated entry by
    entry: the day, the reading of the clock, the market results and the
    activities, the agent summary, copies of the three metric dicts, the
    day's interactions and, last, the communication statistics, whose
    first entry is [len(self.communication_system.message_history)].
    Reading an attribute the object does not answer to is an
    [AttributeError]. *)
Definition _capture_daily_snapshot (market_results : Market.MarketResult)
    (agent_activities : Activities) (collaborations : Collaborations)
    (negotiations : Negotiations) (events : Events) : prog State (option Snapshot) :=
  timestamp <- clock ;;
  summary <-! ret (agent_summary agent_activities) ;;
  s <- get ;;
  if bool_decide ("message_history"%string ∈ communication_system_members)
  then ret (Some (snapshot_of (simulation_day s) timestamp market_results agent_activities
                    summary collaborations negotiations events s))
  else ret None.

(** [l[-365:]] once the list is longer than 365. *)
Definition keep_last_year (l : list Snapshot) : list Snapshot :=
  if (365 <? Z.of_nat (length l))%Z then drop (length l - 365) l else l.

Definition advance_day : prog State (option DayResult) :=
  s <- get ;;
  if negb (is_running s)
  then ret (Some (NotRunning "simulation_not_running"))
  else
    _ <- modify (fun s => set_day s (simulation_day s + 1)%Z) ;;
    s <- get ;;
    today <- clock ;;
    current_date <-! ret (plus_days today (simulation_day s)) ;;
    market_results <-! market_tick ;;
    agent_activities <-! _process_daily_agent_activities market_results ;;
    collaborations <-! _process_collaborations ;;
    negotiations <-! _process_negotiations ;;
    _ <-! _update_organizational_metrics market_results agent_activities ;;
    events <-! _generate_daily_events market_results ;;
    _ <-! _update_financial_metrics market_results ;;
    daily_snapshot <-! _capture_daily_snapshot market_results agent_activities
                         collaborations negotiations events ;;
    _ <- modify (fun s => set_snapshots s (keep_last_year (daily_snapshots s ++ [daily_snapshot]))) ;;
    ret (Some (Day daily_snapshot)).

End Scheduler.

(** *** Sample values *)

(** A stopped simulator on its third day, with an agent layer that does
    nothing. *)
Definition sample_simulator : OrganizationalSimulator unit unit :=
  {| simulation_day := 3; is_running := false;
     market_simulator := Market.simulator_init [];
     performance_metrics := {["customer_satisfaction"%string := Market.NpNum 0.5]};
     financial_metrics := {["budget"%string := 1000000]};
     organizational_health := {["morale"%string := 0.75]};
     daily_snapshots := [tt; tt; tt]; organization := tt |}.

Definition sample_env : Env := (Market.rng_const 0, Comm.sample_ambient).

End Sim.

Module Memory.

(** *** OrganizationalMemory of [communication_system.py] *)

(** The values a decision, lesson, practice or event dict holds under its
    keys. *)
Inductive jval : Type :=
| JStr (s : string)
| JNum (q : Q)
| JList (l : list string).

(** [d.get(k, default)] *)
Definition get_or (d : gmap string jval) (k : string) (default : jval) : jval :=
  match d !! k with Some v => v | None => default end.

Record DecisionRecord : Type := mkDecision {
  dec_id : string;
  dec_timestamp : string;
  decision : gmap string jval;
  dec_context : jval;
  dec_impact : jval;
  decision_maker : jval;
  rationale : jval
}.

Record LessonRecord : Type := mkLesson {
  les_id : string;
  les_timestamp : string;
  lesson : gmap string jval;
  category : jval;
  source_project : jval;
  applicability : jval
}.

Record PracticeRecord : Type := mkPractice {
  pra_id : string;
  pra_timestamp : string;
  practice : gmap string jval;
  department : jval;
  effectiveness_score : jval;
  implementation_guide : jval
}.

Record EventRecord : Type := mkEventRecord {
  evt_id : string;
  evt_timestamp : string;
  event : gmap string jval;
  evt_type : jval;
  impact_level : jval;
  stakeholders : jval
}.

Section WithValues.

(** The type of a metric's value, and [datetime.isoformat]. *)
Variable V : Type.
Variable isoformat : Z -> string.

Record OrganizationalMemory : Type := mkMemory {
  knowledge_base : gmap string jval;
  decisions_archive : list DecisionRecord;
  project_history : list jval;
  lessons_learned : list LessonRecord;
  best_practices : list PracticeRecord;
  organizational_events : list EventRecord;
  performance_history : gmap string (list (string * V))
}.

(** [OrganizationalMemory.__init__] *)
Definition memory_init : OrganizationalMemory :=
  {| knowledge_base := ∅; decisions_archive := []; project_history := [];
     lessons_learned := []; best_practices := []; organizational_events := [];
     performance_history := ∅ |}.


Definition store_lesson_learned (l : gmap string jval) : prog (Ambient * OrganizationalMemory) unit :=
  rid <- ambient uuid4 ;;
  t <- ambient now ;;
  let lesson_record :=
    mkLesson rid (isoformat t) l (get_or l "category" (JStr "general"))
      (get_or l "project" (JStr EmptyString)) (get_or l "applicability" (JList [])) in
  modify (fun mem =>
    {| knowledge_base := knowledge_base mem;
       decisions_archive := decisions_archive mem;
       project_history := project_history mem;
       lessons_learned := lessons_learned mem ++ [lesson_record];
       best_practices := best_practices mem;
       organizational_events := organizational_events mem;
       performance_history := performance_history mem |}).

Definition store_best_practice (p : gmap string jval) : prog (Ambient * OrganizationalMemory) unit :=
  rid <- ambient uuid4 ;;
  t <- ambient now ;;
  let practice_record :=
    mkPractice rid (isoformat t) p (get_or p "department" (JStr "organization"))
      (get_or p "effectiveness" (JNum 0.0)) (get_or p "implementation" (JStr EmptyString)) in
  modify (fun mem =>
    {| knowledge_base := knowledge_base mem;
       decisions_archive := decisions_archive mem;
       project_history := project_history mem;
       lessons_learned := lessons_learned mem;
       best_practices := best_practices mem ++ [practice_record];
       organizational_events := organizational_events mem;
       performance_history := performance_history mem |}).

Definition log_event (e : gmap string jval) : prog (Ambient * OrganizationalMemory) unit :=
  rid <- ambient uuid4 ;;
  t <- ambient now ;;
  let event_record :=
    mkEventRecord rid (isoformat t) e (get_or e "type" (JStr "general"))
      (get_or e "impact" (JStr "medium")) (get_or e "stakeholders" (JList [])) in
  modify (fun mem =>
    {| knowledge_base := knowledge_base mem;
       decisions_archive := decisions_archive mem;
       project_history := project_history mem;
       lessons_learned := lessons_learned mem;
       best_practices := best_practices mem;
       organizational_events := organizational_events mem ++ [event_record];
       performance_history := performance_history mem |}).


(** [json.dumps(record).lower()], one function per kind of record. *)
Variable dumps_lower_decision : DecisionRecord -> string.
Variable dumps_lower_lesson : LessonRecord -> string.
Variable dumps_lower_practice : PracticeRecord -> string.
Variable lower : string -> string.




(** Python's [l[-n:]] for an integer [n]: the last [n] elements when [n] is
    positive, the whole list when [n] is 0, and the list without its first
    [-n] elements when [n] is negative. *)
Definition last_slice {A : Type} (n : Z) (l : list A) : list A :=
  if (0 <? n)%Z then drop (length l - Z.to_nat n) l
  else drop (Z.to_nat (- n)) l.

Definition get_performance_trends (mem : OrganizationalMemory) (metric : string) (time_period : Z)
  : list (string * V) :=
  last_slice time_period (default [] (performance_history mem !! metric)).

(** One round of the loop of [update_performance_history]. *)
Definition record_metric (timestamp : string) (history : gmap string (list (string * V)))
    (mv : string * V) : gmap string (list (string * V)) :=
  let series := default [] (history !! fst mv) ++ [(timestamp, snd mv)] in
  <[fst mv := if (100 <? Z.of_nat (length series))%Z then last_slice 100 series else series]>
    history.

Definition update_performance_history (metrics : list (string * V))
  : prog (Ambient * OrganizationalMemory) unit :=
  t <- ambient now ;;
  modify (fun mem =>
    {| knowledge_base := knowledge_base mem;
       decisions_archive := decisions_archive mem;
       project_history := project_history mem;
       lessons_learned := lessons_learned mem;
       best_practices := best_practices mem;
       organizational_events := organizational_events mem;
       performance_history :=
         fold_left (record_metric (isoformat t)) metrics (performance_history mem) |}).

End WithValues.

End Memory.

(** * Properties *)

(** ** Comparisons, clamps and draws *)

Lemma Qltb_true (x y : Q) : Qltb x y = true <-> x < y.
Proof.
  unfold Qltb. rewrite negb_true_iff. split.
  - intros H. apply Qnot_le_lt. intros Hle.
    apply Qle_bool_iff in Hle. congruence.
  - intros H. destruct (Qle_bool y x) eqn:E; [|reflexivity].
    apply Qle_bool_iff in E. lra.
Qed.

Lemma Qltb_false (x y : Q) : Qltb x y = false <-> y <= x.
Proof.
  unfold Qltb. rewrite negb_false_iff. apply Qle_bool_iff.
Qed.

Lemma pymin_spec (a b : Q) : pymin a b <= a /\ pymin a b <= b /\ (pymin a b == a \/ pymin a b == b).
Proof.
  unfold pymin. destruct (Qltb b a) eqn:E.
  - apply Qltb_true in E. repeat split; lra.
  - apply Qltb_false in E. repeat split; lra.
Qed.

Lemma pymax_spec (a b : Q) : a <= pymax a b /\ b <= pymax a b /\ (pymax a b == a \/ pymax a b == b).
Proof.
  unfold pymax. destruct (Qltb a b) eqn:E.
  - apply Qltb_true in E. repeat split; lra.
  - apply Qltb_false in E. repeat split; lra.
Qed.

Lemma random_valid (r : Rng) :
  valid_rng r -> valid_rng (snd (random r)) /\ 0 <= fst (random r) /\ fst (random r) < 1.
Proof.
  intros H. split; [intros n; apply (H n)|apply (H (cursor r))].
Qed.

Lemma uniform_valid (a b : Q) (r : Rng) : valid_rng r -> valid_rng (snd (uniform a b r)).
Proof. intros H n. apply (H n). Qed.

Lemma uniform_range (a b : Q) (r : Rng) :
  valid_rng r -> a <= b -> a <= fst (uniform a b r) /\ fst (uniform a b r) <= b.
Proof.
  intros H Hab. destruct (H (cursor r)) as [H0 H1].
  unfold uniform, bind, random, ret. simpl. split; nra.
Qed.

Lemma ratio_bounds (a b : nat) :
  (a <= b)%nat -> (0 < b)%nat ->
  0 <= inject_Z (Z.of_nat a) / inject_Z (Z.of_nat b)
  /\ inject_Z (Z.of_nat a) / inject_Z (Z.of_nat b) <= 1.
Proof.
  intros Hab Hb.
  assert (Hpos : 0 < inject_Z (Z.of_nat b)).
  { change 0 with (inject_Z 0). rewrite <- Zlt_Qlt. lia. }
  assert (Ha : 0 <= inject_Z (Z.of_nat a)).
  { change 0 with (inject_Z 0). rewrite <- Zle_Qle. lia. }
  assert (Hle : inject_Z (Z.of_nat a) <= inject_Z (Z.of_nat b)).
  { rewrite <- Zle_Qle. lia. }
  split.
  - apply Qle_shift_div_l; [exact Hpos | lra].
  - apply Qle_shift_div_r; [exact Hpos | lra].
Qed.

Module CommProps.
Import Comm.

(** *** Messaging *)

Lemma send_message_spec (a : Ambient) (cs : CommunicationSystem)
    (sender receiver : string) (mtype : MessageType) (subj body : string)
    (prio : Priority) (meta : gmap string string) :
  let out := send_message sender receiver mtype subj body prio meta (a, cs) in
  fst out = uuids a (uuid_cursor a)
  /\ messages (snd (snd out))
     = messages cs ++ [sent_message a sender receiver mtype subj body prio meta]
  /\ message_queues (snd (snd out))
     = <[receiver := default [] (message_queues cs !! receiver) ++ [length (messages cs)]]>
         (message_queues cs)
  /\ uuids (fst (snd out)) = uuids a /\ times (fst (snd out)) = times a.
Proof.
  destruct prio; repeat split.
Qed.

(** C10. [mark_message_read] returns true exactly when some stored message
    has the given id and the given reader as its receiver; it then stamps
    the first such message and no other. When it returns false (as it does
    for an existing id presented by anyone but the receiver) nothing has
    changed, no read timestamp in particular. *)
Theorem mark_message_read_spec (mid reader : string) (a : Ambient) (cs : CommunicationSystem) :
  let out := mark_message_read mid reader (a, cs) in
  (fst out = true <->
     exists m, m ∈ messages cs /\ id m = mid /\ receiver_id m = reader)
  /\ (fst out = true ->
      exists i m, messages cs !! i = Some m /\ id m = mid /\ receiver_id m = reader
        /\ messages (snd (snd out)) = <[i := set_read_at m (times a (time_cursor a))]> (messages cs))
  /\ (fst out = false -> snd out = (a, cs))
  /\ ((forall m, m ∈ messages cs -> id m = mid -> receiver_id m <> reader) ->
      out = (false, (a, cs))).
Proof.
  cbv zeta. unfold mark_message_read, bind, get. simpl.
  destruct (list_find _ (messages cs)) as [[i m]|] eqn:E.
  - apply list_find_Some in E as (Hi & [Hid Hrcv] & _). simpl.
    split; [|split; [|split]].
    + split; [intros _|reflexivity].
      exists m. split; [eapply list_elem_of_lookup_2; exact Hi | auto].
    + intros _. exists i, m. auto.
    + discriminate.
    + intros H. exfalso. apply (H m); [eapply list_elem_of_lookup_2; exact Hi | | ]; assumption.
  - rewrite list_find_None, Forall_forall in E. simpl.
    split; [|split; [|split]].
    + split; [discriminate|]. intros (m & Hin & Hid & Hrcv).
      exfalso. apply (E m Hin). auto.
    + discriminate.
    + reflexivity.
    + reflexivity.
Qed.

Lemma mark_message_read_spec_witness :
  fst (mark_message_read "msg-1" "bob" (sample_ambient, sample_comm)) = true
  /\ (exists i m, messages sample_comm !! i = Some m /\ id m = "msg-1"%string
        /\ receiver_id m = "bob"%string
        /\ messages (snd (snd (mark_message_read "msg-1" "bob" (sample_ambient, sample_comm))))
           = <[i := set_read_at m 0]> (messages sample_comm))
  /\ (forall m, m ∈ messages sample_comm -> id m = "msg-1"%string ->
        receiver_id m <> "carol"%string)
  /\ mark_message_read "msg-1" "carol" (sample_ambient, sample_comm)
     = (false, (sample_ambient, sample_comm)).
Proof.
  assert (Hother : forall m, m ∈ messages sample_comm -> id m = "msg-1"%string ->
                             receiver_id m <> "carol"%string).
  { intros m Hm _. apply list_elem_of_singleton in Hm. subst m. discriminate. }
  split; [reflexivity|]. split; [|split; [exact Hother|]].
  - apply (proj1 (proj2 (mark_message_read_spec "msg-1" "bob" sample_ambient sample_comm))).
    reflexivity.
  - apply (proj2 (proj2 (proj2
      (mark_message_read_spec "msg-1" "carol" sample_ambient sample_comm)))).
    exact Hother.
Defined.

(** What [respond_to_message] does once the original is found at position
    [i]: it stamps the original with the next clock reading, whatever its
    earlier stamp, and sends the reply to the original's sender. *)
Lemma respond_found (oid body sender : string) (a : Ambient) (cs : CommunicationSystem)
    (i : nat) (m : Message) :
  list_find (fun msg => id msg = oid) (messages cs) = Some (i, m) ->
  let out := respond_to_message oid body sender (a, cs) in
  let a1 := snd (now a) in
  fst out = Some (uuids a (uuid_cursor a))
  /\ messages (snd (snd out))
     = <[i := set_responded_at m (times a (time_cursor a))]> (messages cs)
       ++ [sent_message a1 sender (sender_id m) GENERAL_COMMUNICATION
             ("Re: " +:+ subject m) body (priority m) {["in_reply_to"%string := oid]}]
  /\ uuids (fst (snd out)) = uuids a /\ times (fst (snd out)) = times a.
Proof.
  intros E. cbv zeta. unfold respond_to_message, bind, get. simpl. rewrite E.
  destruct (priority m) eqn:Ep; simpl; rewrite ?Ep; repeat split.
Qed.

Lemma respond_keeps_found (oid : string) (l : list Message) (i : nat) (m : Message)
    (t : Z) (extra : list Message) :
  list_find (fun msg => id msg = oid) l = Some (i, m) ->
  list_find (fun msg => id msg = oid) (<[i := set_responded_at m t]> l ++ extra)
  = Some (i, set_responded_at m t).
Proof.
  intros E. apply list_find_app_l. apply list_find_Some.
  apply list_find_Some in E as (Hi & Hid & Hfirst).
  split; [|split].
  - apply list_lookup_insert_eq. eapply lookup_lt_Some; exact Hi.
  - exact Hid.
  - intros j y Hj Hlt. rewrite list_lookup_insert_ne in Hj by lia.
    eapply Hfirst; eassumption.
Qed.

(** C7. [respond_to_message] returns none exactly when no stored message has
    the given id, and then changes nothing. When the original exists it
    returns the id of the reply and stamps the original with the current
    time, whether or not it carried a stamp already; a second response
    succeeds as well and leaves the time of the second as the stamp. *)
Theorem respond_to_message_spec (oid body sender : string) (a : Ambient) (cs : CommunicationSystem) :
  let out := respond_to_message oid body sender (a, cs) in
  (fst out = None <-> forall m, m ∈ messages cs -> id m <> oid)
  /\ (fst out = None -> snd out = (a, cs))
  /\ (forall i m,
        list_find (fun msg => id msg = oid) (messages cs) = Some (i, m) ->
        fst out = Some (uuids a (uuid_cursor a))
        /\ messages (snd (snd out)) !! i = Some (set_responded_at m (times a (time_cursor a)))
        /\ forall body2 sender2,
             let out2 := respond_to_message oid body2 sender2 (snd out) in
             fst out2 = Some (uuids a (uuid_cursor (fst (snd out))))
             /\ responded_at <$> (messages (snd (snd out2)) !! i)
                = Some (Some (times a (time_cursor (fst (snd out)))))).
Proof.
  cbv zeta. split; [|split].
  - unfold respond_to_message, bind, get. simpl.
    destruct (list_find _ (messages cs)) as [[i m]|] eqn:E.
    + apply list_find_Some in E as (Hi & Hid & _).
      split; [destruct (priority m); discriminate|].
      intros H. exfalso. apply (H m); [eapply list_elem_of_lookup_2; exact Hi | exact Hid].
    + rewrite list_find_None, Forall_forall in E. split; [intros _; exact E | reflexivity].
  - unfold respond_to_message, bind, get. simpl.
    destruct (list_find _ (messages cs)) as [[i m]|] eqn:E; [|reflexivity].
    destruct (priority m); discriminate.
  - intros i m E.
    destruct (respond_found oid body sender a cs i m E) as (Hr & Hm & Hu & Ht).
    assert (Hlt : (i < length (messages cs))%nat).
    { apply list_find_Some in E as (Hi & _). eapply lookup_lt_Some; exact Hi. }
    split; [exact Hr|]. split.
    + rewrite Hm. rewrite lookup_app_l by (rewrite length_insert; exact Hlt).
      apply list_lookup_insert_eq. exact Hlt.
    + intros body2 sender2.
      destruct (respond_to_message oid body sender (a, cs)) as [rid [a1 cs1]].
      simpl in *.
      match type of Hm with _ = _ ++ ?extra =>
        pose proof (respond_keeps_found oid (messages cs) i m (times a (time_cursor a)) extra E)
          as E1
      end.
      rewrite <- Hm in E1.
      destruct (respond_found oid body2 sender2 a1 cs1 i _ E1) as (Hr2 & Hm2 & _ & _).
      rewrite Hu in Hr2. rewrite Ht in Hm2. split; [exact Hr2|].
      rewrite Hm2. rewrite lookup_app_l
        by (rewrite length_insert, Hm, length_app, length_insert; lia).
      rewrite list_lookup_insert_eq
        by (rewrite Hm, length_app, length_insert; lia).
      reflexivity.
Qed.

Lemma respond_to_message_spec_witness :
  list_find (fun msg => id msg = "msg-1"%string) (messages sample_comm)
  = Some (0%nat, sample_message "bob")
  /\ fst (respond_to_message "msg-1" "On it" "bob" (sample_ambient, sample_comm))
     = Some "uuid-a"%string
  /\ responded_at <$>
       (messages (snd (snd (respond_to_message "msg-1" "On it" "bob"
                              (sample_ambient, sample_comm)))) !! 0%nat)
     = Some (Some 0%Z)
  /\ responded_at <$>
       (messages (snd (snd (respond_to_message "msg-1" "Done" "carol"
                              (snd (respond_to_message "msg-1" "On it" "bob"
                                      (sample_ambient, sample_comm)))))) !! 0%nat)
     = Some (Some 2%Z).
Proof.
  assert (E : list_find (fun msg => id msg = "msg-1"%string) (messages sample_comm)
              = Some (0%nat, sample_message "bob")) by reflexivity.
  destruct (proj2 (proj2 (respond_to_message_spec "msg-1" "On it" "bob"
                            sample_ambient sample_comm)) 0%nat (sample_message "bob") E)
    as (H1 & H2 & H3).
  split; [exact E|]. split; [exact H1|]. split.
  - rewrite H2. reflexivity.
  - exact (proj2 (H3 "Done"%string "carol"%string)).
Defined.

(** *** Negotiation *)

Section NegotiationProps.

Variable json_dumps : Dict -> option string.
Variable isoformat : Z -> string.

(** A call through [self.communication_system] leaves the negotiations and
    the dict objects alone. *)
Lemma via_comm_frame {A : Type} (m : prog (Ambient * CommunicationSystem) A)
    (s : Ambient * NegotiationSystem) :
  let out := via_comm m s in
  let inner := m (fst s, communication_system (snd s)) in
  fst out = fst inner
  /\ fst (snd out) = fst (snd inner)
  /\ communication_system (snd (snd out)) = snd (snd inner)
  /\ active_negotiations (snd (snd out)) = active_negotiations (snd s)
  /\ resolution_history (snd (snd out)) = resolution_history (snd s)
  /\ dict_objects (snd (snd out)) = dict_objects (snd s).
Proof.
  cbv zeta. unfold via_comm.
  destruct (m (fst s, communication_system (snd s))) as [x [a' cs']].
  repeat split.
Qed.

Lemma via_send_spec (a : Ambient) (ns : NegotiationSystem)
    (sender receiver : string) (mtype : MessageType) (subj body : string)
    (prio : Priority) (meta : gmap string string) :
  let out := via_comm (send_message sender receiver mtype subj body prio meta) (a, ns) in
  fst out = uuids a (uuid_cursor a)
  /\ active_negotiations (snd (snd out)) = active_negotiations ns
  /\ resolution_history (snd (snd out)) = resolution_history ns
  /\ dict_objects (snd (snd out)) = dict_objects ns
  /\ messages (communication_system (snd (snd out)))
     = messages (communication_system ns)
       ++ [sent_message a sender receiver mtype subj body prio meta].
Proof.
  cbv zeta.
  destruct (via_comm_frame (send_message sender receiver mtype subj body prio meta) (a, ns))
    as (Hf & _ & Hc & Ha & Hh & Hd).
  destruct (send_message_spec a (communication_system ns) sender receiver mtype subj body
              prio meta) as (Hid & Hm & _).
  cbn [fst snd] in *.
  split; [rewrite Hf; exact Hid|]. split; [exact Ha|]. split; [exact Hh|].
  split; [exact Hd|]. rewrite Hc. exact Hm.
Qed.

(** One notice of [resolve_negotiation]: sent when the resolution
    serialises, and an exception that changes nothing otherwise. *)
Lemma notify_resolved_spec (n : Negotiation) (r : nat) (participant : string)
    (s : Ambient * NegotiationSystem) :
  let out := notify_resolved json_dumps n r participant s in
  active_negotiations (snd (snd out)) = active_negotiations (snd s)
  /\ resolution_history (snd (snd out)) = resolution_history (snd s)
  /\ dict_objects (snd (snd out)) = dict_objects (snd s)
  /\ (forall text, json_dumps (dict_objects (snd s) r) = Some text ->
        is_Some (fst out)
        /\ messages (communication_system (snd (snd out)))
           = messages (communication_system (snd s))
             ++ [resolved_notice n text participant
                   (uuids (fst s) (uuid_cursor (fst s)))
                   (times (fst s) (time_cursor (fst s)))])
  /\ (json_dumps (dict_objects (snd s) r) = None -> out = (None, s)).
Proof.
  cbv zeta. unfold notify_resolved, dumps, bindE, bind, get, ret. cbn [fst snd].
  destruct (json_dumps (dict_objects (snd s) r)) as [text|] eqn:E.
  - destruct s as [a ns]. cbn [fst snd] in *.
    match goal with |- context [via_comm (send_message ?sd ?rc ?ty ?su ?bo ?pr ?me) (a, ns)] =>
      destruct (via_send_spec a ns sd rc ty su bo pr me) as (_ & Ha & Hh & Hd & Hm);
      generalize dependent (via_comm (send_message sd rc ty su bo pr me) (a, ns))
    end.
    intros [x [a' ns']] Ha Hh Hd Hm. cbn [fst snd] in *.
    split; [exact Ha|]. split; [exact Hh|]. split; [exact Hd|].
    split; [|discriminate].
    intros text' Ht. injection Ht as <-. split; [eauto | exact Hm].
  - split; [reflexivity|]. split; [reflexivity|]. split; [reflexivity|].
    split; [discriminate | reflexivity].
Qed.

Lemma resolve_negotiation_inactive (nid : string) (r : nat)
    (a : Ambient) (ns : NegotiationSystem) :
  active_negotiations ns !! nid = None ->
  resolve_negotiation json_dumps nid r (a, ns) = (Some false, (a, ns)).
Proof.
  intros Hn. unfold resolve_negotiation, bind, get. cbn [fst snd]. rewrite Hn. reflexivity.
Qed.

Lemma add_counter_proposal_unknown (nid agent : string) (proposal : nat)
    (a : Ambient) (ns : NegotiationSystem) :
  active_negotiations ns !! nid = None ->
  add_counter_proposal json_dumps isoformat nid agent proposal (a, ns)
  = (Some false, (a, ns)).
Proof.
  intros H. unfold add_counter_proposal, bind, get. cbn [fst snd]. rewrite H. reflexivity.
Qed.

(** What [resolve_negotiation] makes of an active negotiation. *)
Lemma resolve_negotiation_active (nid : string) (r : nat)
    (a : Ambient) (ns : NegotiationSystem) (n : Negotiation) :
  active_negotiations ns !! nid = Some n ->
  let out := resolve_negotiation json_dumps nid r (a, ns) in
  active_negotiations (snd (snd out)) = delete nid (active_negotiations ns)
  /\ resolution_history (snd (snd out))
     = resolution_history ns ++ [resolve n r (times a (time_cursor a))]
  /\ dict_objects (snd (snd out)) = dict_objects ns
  /\ (forall text, json_dumps (dict_objects ns r) = Some text ->
        fst out = Some true
        /\ exists mid1 t1 mid2 t2,
             messages (communication_system (snd (snd out)))
             = messages (communication_system ns)
               ++ [resolved_notice n text (initiator n) mid1 t1;
                   resolved_notice n text (other_party n) mid2 t2])
  /\ (json_dumps (dict_objects ns r) = None ->
      fst out = None
      /\ communication_system (snd (snd out)) = communication_system ns).
Proof.
  intros Hn. cbv zeta. unfold resolve_negotiation, bind, bindE, get, modify, ambient, ret.
  cbn [fst snd]. rewrite Hn. unfold now. cbn [fst snd].
  set (archived := resolve n r (times a (time_cursor a))).
  match goal with |- context [notify_resolved json_dumps archived r (initiator archived) ?s] =>
    pose proof (notify_resolved_spec archived r (initiator archived) s)
      as (Ha1 & Hh1 & Hd1 & Hs1 & Hn1);
    cbv zeta in Ha1, Hh1, Hd1, Hs1, Hn1;
    generalize dependent (notify_resolved json_dumps archived r (initiator archived) s)
  end.
  intros [x1 [a2 ns2]] Ha1 Hh1 Hd1 Hs1 Hn1.
  cbn [fst snd set_negotiations communication_system active_negotiations resolution_history
       dict_objects] in *.
  destruct (json_dumps (dict_objects ns r)) as [text|] eqn:E.
  - destruct (Hs1 text eq_refl) as ([mid Hx1] & Hm1). cbn [fst] in Hx1. subst x1.
    pose proof (notify_resolved_spec archived r (other_party archived) (a2, ns2))
      as (Ha2 & Hh2 & Hd2 & Hs2 & _).
    cbv zeta in Ha2, Hh2, Hd2, Hs2. cbn [fst snd] in Ha2, Hh2, Hd2, Hs2.
    rewrite Hd1 in Hs2. destruct (Hs2 text E) as ([mid2 Hx2] & Hm2).
    generalize dependent (notify_resolved json_dumps archived r (other_party archived)
                            (a2, ns2)).
    intros [x2 [a3 ns3]] Ha2 Hh2 Hd2 _ Hx2 Hm2. cbn [fst snd] in *. subst x2.
    cbn [fst snd].
    split; [rewrite Ha2, Ha1; reflexivity|]. split; [rewrite Hh2, Hh1; reflexivity|].
    split; [rewrite Hd2, Hd1; reflexivity|]. split; [|discriminate].
    intros text' Ht. injection Ht as <-. split; [reflexivity|].
    do 4 eexists. rewrite Hm2, Hm1, <- app_assoc. reflexivity.
  - specialize (Hn1 eq_refl). injection Hn1 as -> -> ->. cbn [fst snd].
    split; [reflexivity|]. split; [reflexivity|]. split; [reflexivity|].
    split; [discriminate|]. intros _. split; reflexivity.
Qed.

(** After [resolve_negotiation], whatever it returned and also when it
    raised, the id is not active. *)
Lemma resolve_negotiation_gone (nid : string) (r : nat) (a : Ambient) (ns : NegotiationSystem) :
  active_negotiations (snd (snd (resolve_negotiation json_dumps nid r (a, ns)))) !! nid = None.
Proof.
  destruct (active_negotiations ns !! nid) as [n|] eqn:Hn.
  - destruct (resolve_negotiation_active nid r a ns n Hn) as (Ha & _).
    rewrite Ha. apply lookup_delete_eq.
  - rewrite (resolve_negotiation_inactive nid r a ns Hn). exact Hn.
Qed.

(** C5. [add_counter_proposal] on an id that is not among the active
    negotiations returns false and leaves the negotiation system, the dict
    objects, the communication system and the ambient sources as they
    were; an id that [resolve_negotiation] has been called on is such an
    id, whatever that call returned. *)
Theorem add_counter_proposal_inactive (nid agent : string) (proposal : nat) :
  (forall a ns,
      active_negotiations ns !! nid = None ->
      add_counter_proposal json_dumps isoformat nid agent proposal (a, ns)
      = (Some false, (a, ns)))
  /\ (forall a ns r,
        let s := snd (resolve_negotiation json_dumps nid r (a, ns)) in
        active_negotiations (snd s) !! nid = None
        /\ add_counter_proposal json_dumps isoformat nid agent proposal s = (Some false, s)).
Proof.
  split; [intros a ns; apply add_counter_proposal_unknown|].
  intros a ns r. cbv zeta.
  pose proof (resolve_negotiation_gone nid r a ns) as Hgone.
  split; [exact Hgone|].
  generalize dependent (resolve_negotiation json_dumps nid r (a, ns)).
  intros [b [a' ns']] Hgone. apply add_counter_proposal_unknown. exact Hgone.
Qed.

(** C6, as the code has it. Resolving an active negotiation removes it
    from the active set (and nothing else), appends it to the history with
    the status resolved and the given resolution as its payload, and leaves
    the dict objects alone. When json can serialise the resolution, it then
    sends one notice to the initiator and one to the other party and
    returns true; when it cannot, the call raises with the negotiation
    archived and no notice sent. Resolving an id that is not active returns
    false and changes nothing. *)
Theorem resolve_negotiation_spec (nid : string) (r : nat)
    (a : Ambient) (ns : NegotiationSystem) :
  (forall n,
      active_negotiations ns !! nid = Some n ->
      let out := resolve_negotiation json_dumps nid r (a, ns) in
      let ns' := snd (snd out) in
      let archived := resolve n r (times a (time_cursor a)) in
      active_negotiations ns' = delete nid (active_negotiations ns)
      /\ active_negotiations ns' !! nid = None
      /\ resolution_history ns' = resolution_history ns ++ [archived]
      /\ status archived = "resolved"%string
      /\ resolution archived = Some r
      /\ dict_objects ns' = dict_objects ns
      /\ (forall text, json_dumps (dict_objects ns r) = Some text ->
            fst out = Some true
            /\ exists mid1 t1 mid2 t2,
                 messages (communication_system ns')
                 = messages (communication_system ns)
                   ++ [resolved_notice n text (initiator n) mid1 t1;
                       resolved_notice n text (other_party n) mid2 t2])
      /\ (json_dumps (dict_objects ns r) = None ->
          fst out = None /\ communication_system ns' = communication_system ns))
  /\ (active_negotiations ns !! nid = None ->
      resolve_negotiation json_dumps nid r (a, ns) = (Some false, (a, ns))).
Proof.
  split; [|apply resolve_negotiation_inactive].
  intros n Hn. cbv zeta.
  destruct (resolve_negotiation_active nid r a ns n Hn) as (Ha & Hh & Hd & Hs & Hnone).
  split; [exact Ha|].
  split; [rewrite Ha; apply lookup_delete_eq|].
  split; [exact Hh|]. split; [reflexivity|]. split; [reflexivity|].
  split; [exact Hd|]. split; [exact Hs | exact Hnone].
Qed.

(** Replaces a call through the communication system by its result,
    keeping what [via_comm_frame] says of the active negotiations. *)
Ltac frame_via_comm H :=
  match goal with
  | |- context [via_comm ?m ?s] =>
      destruct (via_comm_frame m s) as (_ & _ & _ & H & _);
      generalize dependent (via_comm m s)
  end.

End NegotiationProps.

Lemma sample_negsys_lookup :
  active_negotiations sample_negsys !! "uuid-a"%string = Some sample_negotiation
  /\ active_negotiations sample_negsys !! "uuid-z"%string = None.
Proof.
  split.
  - apply lookup_singleton_eq.
  - apply lookup_singleton_ne. discriminate.
Qed.

Lemma sample_json_values :
  sample_json (sample_objects 1) = Some "{...}"%string
  /\ sample_json (sample_objects 2) = None.
Proof. split; vm_compute; reflexivity. Qed.

Lemma add_counter_proposal_inactive_witness :
  (active_negotiations sample_negsys !! "uuid-z"%string = None
   /\ add_counter_proposal sample_json sample_iso "uuid-z" "bob" 1
        (sample_ambient, sample_negsys) = (Some false, (sample_ambient, sample_negsys)))
  /\ (let s := snd (resolve_negotiation sample_json "uuid-a" 1
                      (sample_ambient, sample_negsys)) in
      active_negotiations (snd s) !! "uuid-a"%string = None
      /\ add_counter_proposal sample_json sample_iso "uuid-a" "bob" 1 s = (Some false, s)).
Proof.
  destruct sample_negsys_lookup as [Ha Hz].
  split; [split|].
  - exact Hz.
  - exact (proj1 (add_counter_proposal_inactive sample_json sample_iso "uuid-z" "bob" 1)
             sample_ambient sample_negsys Hz).
  - exact (proj2 (add_counter_proposal_inactive sample_json sample_iso "uuid-a" "bob" 1)
             sample_ambient sample_negsys 1%nat).
Defined.

Lemma resolve_negotiation_spec_witness :
  (active_negotiations sample_negsys !! "uuid-a"%string = Some sample_negotiation
   /\ sample_json (dict_objects sample_negsys 1) = Some "{...}"%string
   /\ let out := resolve_negotiation sample_json "uuid-a" 1 (sample_ambient, sample_negsys) in
      fst out = Some true
      /\ exists mid1 t1 mid2 t2,
           messages (communication_system (snd (snd out)))
           = messages (communication_system sample_negsys)
             ++ [resolved_notice sample_negotiation "{...}" (initiator sample_negotiation)
                   mid1 t1;
                 resolved_notice sample_negotiation "{...}" (other_party sample_negotiation)
                   mid2 t2])
  /\ (active_negotiations sample_negsys !! "uuid-z"%string = None
      /\ resolve_negotiation sample_json "uuid-z" 1 (sample_ambient, sample_negsys)
         = (Some false, (sample_ambient, sample_negsys))).
Proof.
  destruct sample_negsys_lookup as [Ha Hz].
  destruct sample_json_values as [H1 _].
  split; [split; [exact Ha | split; [exact H1|]]|split; [exact Hz|]].
  - exact (proj1 (proj2 (proj2 (proj2 (proj2 (proj2 (proj2
             (proj1 (resolve_negotiation_spec sample_json "uuid-a" 1 sample_ambient
                       sample_negsys) sample_negotiation Ha)))))))
             "{...}"%string H1).
  - exact (proj2 (resolve_negotiation_spec sample_json "uuid-z" 1 sample_ambient
                    sample_negsys) Hz).
Defined.

(** C6, as the spec words it, fails for a resolution json cannot
    serialise: resolving the active negotiation with the dict that holds
    such an object raises; the negotiation has left the active set and is
    in the history with the status resolved, and no message has been sent
    to either party. *)
Lemma resolve_negotiation_unserialisable :
  let out := resolve_negotiation sample_json "uuid-a" 2 (sample_ambient, sample_negsys) in
  active_negotiations sample_negsys !! "uuid-a"%string = Some sample_negotiation
  /\ fst out = None
  /\ active_negotiations (snd (snd out)) !! "uuid-a"%string = None
  /\ (exists n, resolution_history (snd (snd out)) = [n]
                /\ neg_id n = "uuid-a"%string /\ status n = "resolved"%string
                /\ resolution n = Some 2%nat)
  /\ messages (communication_system (snd (snd out)))
     = messages (communication_system sample_negsys).
Proof.
  cbv zeta. destruct sample_negsys_lookup as [Ha _].
  destruct sample_json_values as [_ H2].
  destruct (resolve_negotiation_active sample_json "uuid-a" 2 sample_ambient sample_negsys
              sample_negotiation Ha) as (Hact & Hh & _ & _ & Hnone).
  destruct (Hnone H2) as [Hraise Hcs].
  split; [exact Ha|]. split; [exact Hraise|].
  split; [rewrite Hact; apply lookup_delete_eq|].
  split; [|rewrite Hcs; reflexivity].
  eexists. split; [rewrite Hh; reflexivity|]. repeat split.
Qed.

(** *** Queues *)

Lemma indices_from_app (l : list Message) (m : Message) (k : nat) (agent : string) :
  indices_from k (l ++ [m]) agent
  = indices_from k l agent
    ++ (if decide (receiver_id m = agent) then [(k + length l)%nat] else []).
Proof.
  revert k. induction l as [|x l IH]; intros k; cbn [app indices_from length].
  - rewrite Nat.add_0_r. destruct (decide _); reflexivity.
  - rewrite IH. replace (S k + length l)%nat with (k + S (length l))%nat by lia.
    destruct (decide (receiver_id x = agent)); reflexivity.
Qed.

Lemma indices_from_ext (l1 l2 : list Message) (k : nat) (agent : string) :
  map receiver_id l1 = map receiver_id l2 ->
  indices_from k l1 agent = indices_from k l2 agent.
Proof.
  revert l2 k. induction l1 as [|x l1 IH]; intros [|y l2] k H; try discriminate H.
  - reflexivity.
  - cbn [map] in H. injection H as Hxy H. cbn [indices_from]. rewrite Hxy.
    rewrite (IH l2 (S k) H). reflexivity.
Qed.

Lemma indices_from_lookup (l pre : list Message) (agent : string) :
  omap (fun i => (pre ++ l) !! i) (indices_from (length pre) l agent)
  = filter (fun m => receiver_id m = agent) l.
Proof.
  revert pre. induction l as [|x l IH]; intros pre; cbn [indices_from]; [reflexivity|].
  specialize (IH (pre ++ [x])). rewrite <- app_assoc, length_app in IH.
  cbn [app length] in IH. rewrite Nat.add_1_r in IH.
  rewrite filter_cons. destruct (decide (receiver_id x = agent)).
  - cbn [omap list_omap]. rewrite list_lookup_middle by reflexivity. rewrite IH. reflexivity.
  - exact IH.
Qed.

Lemma map_receiver_insert (l : list Message) (i : nat) (m m' : Message) :
  l !! i = Some m -> receiver_id m' = receiver_id m ->
  map receiver_id (<[i := m']> l) = map receiver_id l.
Proof.
  intros Hi Hr. change (receiver_id <$> <[i := m']> l = receiver_id <$> l).
  rewrite list_fmap_insert, Hr. apply list_insert_id.
  rewrite list_lookup_fmap, Hi. reflexivity.
Qed.

(** What the queues hold, read through the invariant. *)
Lemma get_messages_exact (cs : CommunicationSystem) (agent : string) :
  queues_exact cs ->
  get_messages cs agent false = filter (fun m => receiver_id m = agent) (messages cs)
  /\ get_messages cs agent true
     = filter (fun m => read_at m = None)
         (filter (fun m => receiver_id m = agent) (messages cs)).
Proof.
  intros Hq. unfold get_messages. fold (queue_of cs agent). rewrite (Hq agent).
  pose proof (indices_from_lookup (messages cs) [] agent) as H.
  cbn [app length] in H. rewrite H. split; reflexivity.
Qed.

Lemma send_message_exact (a : Ambient) (cs : CommunicationSystem)
    (sender receiver : string) (mtype : MessageType) (subj body : string)
    (prio : Priority) (meta : gmap string string) :
  queues_exact cs ->
  queues_exact (snd (snd (send_message sender receiver mtype subj body prio meta (a, cs)))).
Proof.
  intros Hq agent.
  destruct (send_message_spec a cs sender receiver mtype subj body prio meta)
    as (_ & Hm & Hqs & _).
  unfold queue_of. rewrite Hm, Hqs, indices_from_app. cbn [receiver_id sent_message plus].
  fold (queue_of cs receiver). destruct (decide (receiver = agent)) as [->|Hne].
  - rewrite lookup_insert_eq. cbn [default]. rewrite (Hq agent). reflexivity.
  - rewrite lookup_insert_ne by exact Hne. rewrite app_nil_r. apply (Hq agent).
Qed.

Lemma mark_message_read_unfold (mid reader : string) (a : Ambient) (cs : CommunicationSystem) :
  mark_message_read mid reader (a, cs)
  = match list_find (fun message => id message = mid /\ receiver_id message = reader)
            (messages cs) with
    | Some (i, m) =>
        (true, (snd (now a),
                set_messages cs (<[i := set_read_at m (times a (time_cursor a))]> (messages cs))))
    | None => (false, (a, cs))
    end.
Proof.
  unfold mark_message_read, bind, get. cbn [fst snd].
  destruct (list_find _ (messages cs)) as [[i m]|]; reflexivity.
Qed.

Lemma mark_message_read_exact (mid reader : string) (a : Ambient) (cs : CommunicationSystem) :
  queues_exact cs -> queues_exact (snd (snd (mark_message_read mid reader (a, cs)))).
Proof.
  intros Hq. rewrite mark_message_read_unfold.
  destruct (list_find _ (messages cs)) as [[i m]|] eqn:E; [|exact Hq].
  apply list_find_Some in E as (Hi & _ & _).
  intros agent. unfold queue_of. cbn [snd message_queues set_messages messages].
  fold (queue_of cs agent). rewrite (Hq agent).
  apply indices_from_ext. symmetry. eapply map_receiver_insert; [exact Hi | reflexivity].
Qed.

Lemma respond_to_message_unfold (oid body sender : string) (a : Ambient)
    (cs : CommunicationSystem) (i : nat) (m : Message) :
  list_find (fun msg => id msg = oid) (messages cs) = Some (i, m) ->
  respond_to_message oid body sender (a, cs)
  = let out := send_message sender (sender_id m) GENERAL_COMMUNICATION
                 ("Re: " +:+ subject m) body (priority m)
                 {["in_reply_to"%string := oid]}
                 (snd (now a),
                  set_messages cs (<[i := set_responded_at m (times a (time_cursor a))]>
                                     (messages cs))) in
    (Some (fst out), snd out).
Proof.
  intros E. unfold respond_to_message, bind, get, modify, ambient, ret. cbn [fst snd].
  rewrite E. unfold now. cbn [fst snd].
  destruct (send_message _ _ _ _ _ _ _ _) as [rid s']. reflexivity.
Qed.

Lemma respond_to_message_exact (oid body sender : string) (a : Ambient) (cs : CommunicationSystem) :
  queues_exact cs -> queues_exact (snd (snd (respond_to_message oid body sender (a, cs)))).
Proof.
  intros Hq.
  destruct (list_find (fun msg => id msg = oid) (messages cs)) as [[i m]|] eqn:E.
  - rewrite (respond_to_message_unfold oid body sender a cs i m E). cbv zeta. cbn [snd].
    apply send_message_exact.
    apply list_find_Some in E as (Hi & _ & _).
    intros agent. unfold queue_of. cbn [message_queues set_messages messages].
    fold (queue_of cs agent). rewrite (Hq agent).
    apply indices_from_ext. symmetry. eapply map_receiver_insert; [exact Hi | reflexivity].
  - unfold respond_to_message, bind, get. cbn [fst snd]. rewrite E. exact Hq.
Qed.

Lemma broadcast_message_spec (recipients : list string) (sender : string) (mtype : MessageType)
    (subj body : string) (prio : Priority) (a : Ambient) (cs : CommunicationSystem) :
  let out := broadcast_message sender recipients mtype subj body prio (a, cs) in
  length (fst out) = length recipients
  /\ (exists sent,
        messages (snd (snd out)) = messages cs ++ sent
        /\ map receiver_id sent = recipients
        /\ map id sent = fst out
        /\ Forall (fun m => sender_id m = sender /\ message_type m = mtype
                            /\ subject m = subj /\ content m = body /\ priority m = prio
                            /\ read_at m = None /\ responded_at m = None) sent)
  /\ (queues_exact cs -> queues_exact (snd (snd out))).
Proof.
  revert a cs. induction recipients as [|recipient rest IH]; intros a cs; cbv zeta.
  - cbn [broadcast_message ret fst snd length]. split; [reflexivity|]. split; [|auto].
    exists []. rewrite app_nil_r. repeat split. constructor.
  - cbn [broadcast_message]. unfold bind.
    pose proof (send_message_spec a cs sender recipient mtype subj body prio ∅)
      as (Hid & Hm & _).
    pose proof (send_message_exact a cs sender recipient mtype subj body prio ∅) as Hex.
    generalize dependent (send_message sender recipient mtype subj body prio ∅ (a, cs)).
    intros [mid [a1 cs1]] Hid Hm Hex. cbn [fst snd] in *.
    specialize (IH a1 cs1). cbv zeta in IH.
    destruct (broadcast_message sender rest mtype subj body prio (a1, cs1)) as [ids [a2 cs2]].
    cbn [fst snd ret length] in *.
    destruct IH as (Hlen & (sent & Hm2 & Hr & Hi & HF) & Hq2).
    split; [rewrite Hlen; reflexivity|]. split; [|auto].
    exists (sent_message a sender recipient mtype subj body prio ∅ :: sent).
    split; [rewrite Hm2, Hm, <- app_assoc; reflexivity|].
    split; [cbn [map receiver_id sent_message]; rewrite Hr; reflexivity|].
    split; [cbn [map id sent_message]; rewrite Hi, Hid; reflexivity|].
    constructor; [repeat split | exact HF].
Qed.

(** X11. The queues stay exact: starting from a communication system in
    which every queue holds exactly the messages addressed to its agent,
    each once and in send order (as in a new system), [send_message],
    [mark_message_read], [respond_to_message] and [broadcast_message] all
    lead to such a system again; and in such a system [get_messages] returns
    exactly the stored messages addressed to the agent, in send order,
    restricted to those without a read time when only unread ones are
    asked for. *)
Theorem queues_exact_invariant :
  queues_exact comm_init
  /\ (forall a cs, queues_exact cs ->
        (forall sender receiver mtype subj body prio meta,
            queues_exact (snd (snd (send_message sender receiver mtype subj body prio meta
                                      (a, cs)))))
        /\ (forall mid reader, queues_exact (snd (snd (mark_message_read mid reader (a, cs)))))
        /\ (forall oid body sender,
              queues_exact (snd (snd (respond_to_message oid body sender (a, cs)))))
        /\ (forall sender recipients mtype subj body prio,
              queues_exact (snd (snd (broadcast_message sender recipients mtype subj body prio
                                        (a, cs)))))
        /\ (forall agent,
              get_messages cs agent false
              = filter (fun m => receiver_id m = agent) (messages cs)
              /\ get_messages cs agent true
                 = filter (fun m => read_at m = None)
                     (filter (fun m => receiver_id m = agent) (messages cs)))).
Proof.
  split.
  - intros agent. unfold queue_of. cbn [comm_init message_queues messages indices_from].
    rewrite lookup_empty. reflexivity.
  - intros a cs Hq. split; [|split; [|split; [|split]]].
    + intros. apply send_message_exact. exact Hq.
    + intros. apply mark_message_read_exact. exact Hq.
    + intros. apply respond_to_message_exact. exact Hq.
    + intros sender recipients mtype subj body prio.
      apply (broadcast_message_spec recipients sender mtype subj body prio a cs). exact Hq.
    + intros agent. apply get_messages_exact. exact Hq.
Qed.

Lemma queues_exact_invariant_witness :
  queues_exact comm_init
  /\ queues_exact (snd (snd (send_message "alice" "bob" STATUS_UPDATE "Weekly status" "All green"
                               MEDIUM ∅ (sample_ambient, comm_init))))
  /\ get_messages comm_init "bob" true
     = filter (fun m => read_at m = None)
         (filter (fun m => receiver_id m = "bob"%string) (messages comm_init)).
Proof.
  destruct queues_exact_invariant as [H0 H].
  destruct (H sample_ambient comm_init H0) as (Hs & _ & _ & _ & Hg).
  split; [exact H0|]. split; [apply Hs|]. apply (Hg "bob"%string).
Defined.

(** X12. [send_message] returns the fresh id, appends one unread,
    unanswered message with the given fields to the store, and adds one
    unacknowledged notification for the receiver exactly when the priority
    is High or above; below High the notifications are untouched. *)
Theorem send_message_delivers (a : Ambient) (cs : CommunicationSystem)
    (sender receiver : string) (mtype : MessageType) (subj body : string)
    (prio : Priority) (meta : gmap string string) :
  let out := send_message sender receiver mtype subj body prio meta (a, cs) in
  let mid := uuids a (uuid_cursor a) in
  fst out = mid
  /\ messages (snd (snd out))
     = messages cs ++ [mkMessage mid sender receiver mtype subj body prio
                         (times a (time_cursor a)) None None meta]
  /\ ((priority_value prio < 3)%Z -> notifications (snd (snd out)) = notifications cs)
  /\ ((3 <= priority_value prio)%Z ->
      notifications (snd (snd out))
      = notifications cs
        ++ [mkNotification (uuids a (S (uuid_cursor a))) receiver mid prio
              (times a (S (time_cursor a))) false]).
Proof.
  cbv zeta. destruct prio; cbn [priority_value].
  all: split; [reflexivity|]; split; [reflexivity|].
  all: split; intros H; first [reflexivity | lia].
Qed.

Lemma send_message_delivers_witness :
  (priority_value MEDIUM < 3)%Z
  /\ notifications (snd (snd (send_message "alice" "bob" STATUS_UPDATE "Weekly status"
                                 "All green" MEDIUM ∅ (sample_ambient, comm_init))))
     = notifications comm_init
  /\ (3 <= priority_value URGENT)%Z
  /\ notifications (snd (snd (send_message "alice" "bob" CRISIS_ALERT "Outage" "Site down"
                                 URGENT ∅ (sample_ambient, comm_init))))
     = notifications comm_init
       ++ [mkNotification (uuids sample_ambient (S (uuid_cursor sample_ambient))) "bob"
             (uuids sample_ambient (uuid_cursor sample_ambient)) URGENT
             (times sample_ambient (S (time_cursor sample_ambient))) false].
Proof.
  split; [cbn; lia|].
  split; [apply (send_message_delivers sample_ambient comm_init "alice" "bob" STATUS_UPDATE
                   "Weekly status" "All green" MEDIUM ∅); cbn; lia|].
  split; [cbn; lia|].
  apply (send_message_delivers sample_ambient comm_init "alice" "bob" CRISIS_ALERT
           "Outage" "Site down" URGENT ∅). cbn; lia.
Defined.

(** X13. In a system with exact queues, a message sent under an id no
    stored message carries shows up once, last, in the receiver's unread
    messages and in nobody else's; when the receiver then marks that id as
    read, the call succeeds and the receiver's unread messages are what they
    were before the send. *)
Theorem send_then_mark_read (a : Ambient) (cs : CommunicationSystem)
    (sender receiver : string) (mtype : MessageType) (subj body : string)
    (prio : Priority) (meta : gmap string string) :
  queues_exact cs ->
  (forall m, m ∈ messages cs -> id m <> uuids a (uuid_cursor a)) ->
  let o1 := send_message sender receiver mtype subj body prio meta (a, cs) in
  let o2 := mark_message_read (fst o1) receiver (snd o1) in
  get_messages (snd (snd o1)) receiver true
  = get_messages cs receiver true
    ++ [sent_message a sender receiver mtype subj body prio meta]
  /\ (forall other, other <> receiver ->
        get_messages (snd (snd o1)) other true = get_messages cs other true)
  /\ fst o2 = true
  /\ get_messages (snd (snd o2)) receiver true = get_messages cs receiver true.
Proof.
  intros Hq Hfresh. cbv zeta.
  pose proof (send_message_spec a cs sender receiver mtype subj body prio meta)
    as (Hid & Hm & _).
  pose proof (send_message_exact a cs sender receiver mtype subj body prio meta Hq) as Hq1.
  generalize dependent (send_message sender receiver mtype subj body prio meta (a, cs)).
  intros [mid [a1 cs1]] Hid Hm Hq1. cbn [fst snd] in *. subst mid.
  set (m := sent_message a sender receiver mtype subj body prio meta) in *.
  assert (Hunread : forall agent,
            get_messages cs1 agent true
            = get_messages cs agent true
              ++ (if decide (receiver = agent) then [m] else [])).
  { intros agent.
    rewrite (proj2 (get_messages_exact cs1 agent Hq1)),
            (proj2 (get_messages_exact cs agent Hq)), Hm.
    rewrite !filter_app. f_equal.
    rewrite filter_cons, filter_nil.
    change (receiver_id m) with receiver.
    destruct (decide (receiver = agent)); [|reflexivity].
    rewrite filter_cons, filter_nil.
    change (read_at m) with (@None Z).
    match goal with |- context [decide ?P] => destruct (decide P) end; congruence. }
  split; [rewrite Hunread; destruct (decide (receiver = receiver)); congruence|].
  split.
  { intros other Hne. rewrite Hunread.
    destruct (decide (receiver = other)); [congruence | apply app_nil_r]. }
  rewrite mark_message_read_unfold.
  assert (Hfind : list_find (fun message => id message = uuids a (uuid_cursor a)
                                             /\ receiver_id message = receiver) (messages cs1)
                  = Some (length (messages cs), m)).
  { rewrite Hm. rewrite list_find_app_r.
    - cbn [list_find]. destruct (decide _) as [_|Hn]; [reflexivity|].
      exfalso. apply Hn. split; reflexivity.
    - apply list_find_None, Forall_forall. intros x Hx [Hxid _].
      exact (Hfresh x Hx Hxid). }
  rewrite Hfind. cbn [fst snd]. split; [reflexivity|].
  assert (Hq2 : queues_exact
            (set_messages cs1 (<[length (messages cs) := set_read_at m (times a1 (time_cursor a1))]>
                                 (messages cs1)))).
  { pose proof (mark_message_read_exact (uuids a (uuid_cursor a)) receiver a1 cs1 Hq1) as H.
    rewrite mark_message_read_unfold, Hfind in H. exact H. }
  rewrite (proj2 (get_messages_exact _ receiver Hq2)),
          (proj2 (get_messages_exact cs receiver Hq)).
  cbn [messages set_messages]. rewrite Hm.
  rewrite insert_app_r_alt by lia. rewrite Nat.sub_diag. cbn [insert list_insert].
  rewrite !filter_app. rewrite <- app_nil_r. f_equal.
  rewrite filter_cons, filter_nil.
  change (receiver_id (set_read_at m (times a1 (time_cursor a1)))) with receiver.
  destruct (decide (receiver = receiver)); [|congruence].
  rewrite filter_cons, filter_nil.
  change (read_at (set_read_at m (times a1 (time_cursor a1))))
    with (Some (times a1 (time_cursor a1))).
  match goal with |- context [decide ?P] => destruct (decide P) end;
    [discriminate | reflexivity].
Qed.

Lemma send_then_mark_read_witness :
  queues_exact comm_init
  /\ (forall m, m ∈ messages comm_init -> id m <> uuids sample_ambient (uuid_cursor sample_ambient))
  /\ fst (mark_message_read
            (fst (send_message "alice" "bob" STATUS_UPDATE "Weekly status" "All green" MEDIUM ∅
                    (sample_ambient, comm_init)))
            "bob"
            (snd (send_message "alice" "bob" STATUS_UPDATE "Weekly status" "All green" MEDIUM ∅
                    (sample_ambient, comm_init)))) = true.
Proof.
  assert (H0 : queues_exact comm_init).
  { intros agent. unfold queue_of. cbn [comm_init message_queues messages indices_from].
    rewrite lookup_empty. reflexivity. }
  assert (H1 : forall m, m ∈ messages comm_init ->
                         id m <> uuids sample_ambient (uuid_cursor sample_ambient)).
  { intros m Hm. inversion Hm. }
  split; [exact H0|]. split; [exact H1|].
  exact (proj1 (proj2 (proj2 (send_then_mark_read sample_ambient comm_init "alice" "bob"
                                STATUS_UPDATE "Weekly status" "All green" MEDIUM ∅ H0 H1)))).
Defined.

(** X14. [broadcast_message] returns one id per recipient, in order, and
    appends one message per recipient, in order, each from the sender with
    the broadcast's type, subject, body and priority, unread and
    unanswered. With no recipient it returns no id and sends nothing. *)
Theorem broadcast_message_delivers (recipients : list string) (sender : string)
    (mtype : MessageType) (subj body : string) (prio : Priority)
    (a : Ambient) (cs : CommunicationSystem) :
  let out := broadcast_message sender recipients mtype subj body prio (a, cs) in
  length (fst out) = length recipients
  /\ exists sent,
       messages (snd (snd out)) = messages cs ++ sent
       /\ map receiver_id sent = recipients
       /\ map id sent = fst out
       /\ Forall (fun m => sender_id m = sender /\ message_type m = mtype
                           /\ subject m = subj /\ content m = body /\ priority m = prio
                           /\ read_at m = None /\ responded_at m = None) sent.
Proof.
  cbv zeta.
  destruct (broadcast_message_spec recipients sender mtype subj body prio a cs)
    as (H1 & H2 & _).
  split; [exact H1 | exact H2].
Qed.

(** X24. When the original exists, [respond_to_message] appends exactly
    one message: from the responder, whoever that is, to the sender of the
    original, of type general communication, with the original's subject
    prefixed by Re:, the original's priority, and the original's id under
    in_reply_to; apart from the stamp on the original the stored messages
    are as before. *)
Theorem respond_to_message_reply (oid body sender : string) (a : Ambient)
    (cs : CommunicationSystem) (i : nat) (m : Message) :
  list_find (fun msg => id msg = oid) (messages cs) = Some (i, m) ->
  let out := respond_to_message oid body sender (a, cs) in
  exists reply,
    messages (snd (snd out))
    = <[i := set_responded_at m (times a (time_cursor a))]> (messages cs) ++ [reply]
    /\ fst out = Some (id reply)
    /\ sender_id reply = sender /\ receiver_id reply = sender_id m
    /\ message_type reply = GENERAL_COMMUNICATION
    /\ subject reply = ("Re: " +:+ subject m)%string
    /\ content reply = body /\ priority reply = priority m
    /\ metadata reply !! "in_reply_to"%string = Some oid
    /\ read_at reply = None /\ responded_at reply = None.
Proof.
  intros E. cbv zeta.
  destruct (respond_found oid body sender a cs i m E) as (Hr & Hm & _).
  eexists. split; [exact Hm|]. split; [exact Hr|].
  cbn [sender_id receiver_id message_type subject content priority metadata read_at
       responded_at sent_message].
  repeat split.
Qed.

Lemma respond_to_message_reply_witness :
  list_find (fun msg => id msg = "msg-1"%string) (messages sample_comm)
  = Some (0%nat, sample_message "bob")
  /\ exists reply,
       messages (snd (snd (respond_to_message "msg-1" "On it" "carol"
                             (sample_ambient, sample_comm))))
       = <[0%nat := set_responded_at (sample_message "bob")
                      (times sample_ambient (time_cursor sample_ambient))]>
           (messages sample_comm) ++ [reply]
       /\ sender_id reply = "carol"%string
       /\ receiver_id reply = sender_id (sample_message "bob").
Proof.
  assert (E : list_find (fun msg => id msg = "msg-1"%string) (messages sample_comm)
              = Some (0%nat, sample_message "bob")) by reflexivity.
  split; [exact E|].
  destruct (respond_to_message_reply "msg-1" "On it" "carol" sample_ambient sample_comm
              0%nat (sample_message "bob") E) as (reply & H1 & _ & H3 & H4 & _).
  exists reply. split; [exact H1|]. split; [exact H3 | exact H4].
Defined.

(** *** Analytics *)

Lemma bump_lookup (k k' : string) (d : gmap string Z) :
  bump k d !! k' = if decide (k = k') then Some (default 0 (d !! k) + 1)%Z else d !! k'.
Proof.
  unfold bump. destruct (decide (k = k')) as [->|Hne].
  - apply lookup_insert_eq.
  - apply lookup_insert_ne. exact Hne.
Qed.

(** The counting loops: what a key is mapped to is how many of the
    messages carry it, added to what was there before. *)
Lemma bump_fold_count (key : Message -> string) (l : list Message) (acc : gmap string Z)
    (k : string) :
  fold_left (fun d msg => bump (key msg) d) l acc !! k
  = match length (filter (fun m => key m = k) l) with
    | O => acc !! k
    | S c => Some (default 0 (acc !! k) + Z.of_nat (S c))%Z
    end.
Proof.
  revert acc. induction l as [|x l IH]; intros acc; cbn [fold_left].
  - reflexivity.
  - rewrite IH, bump_lookup, filter_cons.
    destruct (decide (key x = k)) as [Hk|Hk]; [|reflexivity].
    cbn [length]. rewrite Hk.
    destruct (length (filter (fun m => key m = k) l)) as [|c]; cbn [default].
    + reflexivity.
    + f_equal. unfold Datatypes.id. lia.
Qed.

(** X22. [get_communication_analytics] reads the clock and changes nothing
    in the communication system. Over the messages it counts as recent, the
    total is their number, the response rate is a number of [0, 1] and is 0
    when there is none (no division takes place), and each message type and
    each sender that occurs is mapped to the number of recent messages with
    that type or from that sender, the others having no entry. *)
Theorem get_communication_analytics_spec (period : Z) (a : Ambient) (cs : CommunicationSystem) :
  let out := get_communication_analytics period (a, cs) in
  let recent := recent_messages cs (times a (time_cursor a)) period in
  snd (snd out) = cs
  /\ total_messages (fst out) = Z.of_nat (length recent)
  /\ (0 <= response_rate (fst out) /\ response_rate (fst out) <= 1)
  /\ (recent = [] -> response_rate (fst out) = 0.0)
  /\ (forall k,
        messages_by_type (fst out) !! k
        = match length (filter (fun m => message_type_value (message_type m) = k) recent) with
          | O => None
          | S c => Some (Z.of_nat (S c))
          end)
  /\ (forall who,
        most_active_senders (fst out) !! who
        = match length (filter (fun m => sender_id m = who) recent) with
          | O => None
          | S c => Some (Z.of_nat (S c))
          end).
Proof.
  cbv zeta. unfold get_communication_analytics, bind, ambient, get, ret, now.
  cbn [fst snd]. generalize (recent_messages cs (times a (time_cursor a)) period).
  intros recent. unfold analytics_of.
  cbn [total_messages response_rate messages_by_type most_active_senders].
  split; [reflexivity|]. split; [reflexivity|]. split; [|split; [|split]].
  - destruct recent as [|m recent]; [split; lra|].
    apply ratio_bounds; [apply length_filter | cbn [length]; lia].
  - intros ->. reflexivity.
  - intros k. rewrite bump_fold_count, lookup_empty.
    destruct (length _); [reflexivity|]. cbn [default]. f_equal.
  - intros who. rewrite bump_fold_count, lookup_empty.
    destruct (length _); [reflexivity|]. cbn [default]. f_equal.
Qed.

Lemma get_communication_analytics_spec_witness :
  recent_messages comm_init (times sample_ambient (time_cursor sample_ambient)) 30 = []
  /\ response_rate (fst (get_communication_analytics 30 (sample_ambient, comm_init))) = 0.0.
Proof.
  split; [reflexivity|].
  apply (get_communication_analytics_spec 30 sample_ambient comm_init). reflexivity.
Defined.

(** *** The negotiation state machine *)

Section NegotiationMachine.

Variable json_dumps : Dict -> option string.
Variable isoformat : Z -> string.

Lemma initiate_negotiation_spec (a : Ambient) (ns : NegotiationSystem)
    (initiator_id other_party_id topic_ : string) (initial_proposal : nat) :
  let out := initiate_negotiation json_dumps initiator_id other_party_id topic_
               initial_proposal (a, ns) in
  let nid := uuids a (uuid_cursor a) in
  active_negotiations (snd (snd out))
  = <[nid := opened a initiator_id other_party_id topic_ initial_proposal]>
      (active_negotiations ns)
  /\ resolution_history (snd (snd out)) = resolution_history ns
  /\ dict_objects (snd (snd out)) = dict_objects ns
  /\ (forall text, json_dumps (dict_objects ns initial_proposal) = Some text ->
        fst out = Some nid
        /\ exists mid t,
             messages (communication_system (snd (snd out)))
             = messages (communication_system ns)
               ++ [mkMessage mid initiator_id other_party_id COLLABORATION_REQUEST
                     ("Negotiation Request: " +:+ topic_)
                     ("Proposal: " +:+ text) HIGH t None None
                     {["negotiation_id"%string := nid]}])
  /\ (json_dumps (dict_objects ns initial_proposal) = None ->
      fst out = None /\ communication_system (snd (snd out)) = communication_system ns).
Proof.
  cbv zeta. unfold initiate_negotiation, dumps, bind, bindE, get, modify, ambient, ret,
    uuid4, now.
  cbn [fst snd set_negotiations dict_objects].
  destruct (json_dumps (dict_objects ns initial_proposal)) as [text|] eqn:E.
  - match goal with |- context [via_comm (send_message ?s ?r ?ty ?su ?bo ?pr ?me) (?a1, ?ns1)] =>
      destruct (via_send_spec a1 ns1 s r ty su bo pr me) as (_ & Ha & Hh & Hd & Hm);
      generalize dependent (via_comm (send_message s r ty su bo pr me) (a1, ns1))
    end.
    intros [x [a' ns']] Ha Hh Hd Hm.
    cbn [fst snd active_negotiations resolution_history communication_system dict_objects]
      in *.
    split; [exact Ha|]. split; [exact Hh|]. split; [exact Hd|]. split; [|discriminate].
    intros text' Ht. injection Ht as <-. split; [reflexivity|].
    do 2 eexists. rewrite Hm. reflexivity.
  - cbn [fst snd active_negotiations resolution_history communication_system dict_objects].
    split; [reflexivity|]. split; [reflexivity|]. split; [reflexivity|].
    split; [discriminate|]. intros _. split; reflexivity.
Qed.

Lemma add_counter_proposal_active (a : Ambient) (ns : NegotiationSystem)
    (nid agent : string) (proposal : nat) (n : Negotiation) :
  active_negotiations ns !! nid = Some n ->
  let out := add_counter_proposal json_dumps isoformat nid agent proposal (a, ns) in
  let d := stamp isoformat agent (times a (time_cursor a)) (dict_objects ns proposal) in
  active_negotiations (snd (snd out))
  = <[nid := add_proposal n proposal]> (active_negotiations ns)
  /\ resolution_history (snd (snd out)) = resolution_history ns
  /\ dict_objects (snd (snd out))
     = (fun q => if Nat.eqb q proposal then d else dict_objects ns q)
  /\ (forall text, json_dumps d = Some text ->
        fst out = Some true
        /\ exists mid t,
             messages (communication_system (snd (snd out)))
             = messages (communication_system ns)
               ++ [mkMessage mid agent (counterpart n agent) GENERAL_COMMUNICATION
                     ("Counter-proposal: " +:+ topic n)
                     ("New proposal: " +:+ text) HIGH t None None
                     {["negotiation_id"%string := nid]}])
  /\ (json_dumps d = None ->
      fst out = None /\ communication_system (snd (snd out)) = communication_system ns).
Proof.
  intros Hn. cbv zeta.
  unfold add_counter_proposal, dumps, bind, bindE, get, modify, ambient, ret.
  cbn [fst snd]. rewrite Hn. unfold now.
  cbn [fst snd set_negotiations set_dict dict_objects]. rewrite Nat.eqb_refl.
  destruct (json_dumps (stamp isoformat agent (times a (time_cursor a))
                          (dict_objects ns proposal))) as [text|] eqn:E.
  - match goal with |- context [via_comm (send_message ?s ?r ?ty ?su ?bo ?pr ?me) (?a1, ?ns1)] =>
      destruct (via_send_spec a1 ns1 s r ty su bo pr me) as (_ & Ha & Hh & Hd & Hm);
      generalize dependent (via_comm (send_message s r ty su bo pr me) (a1, ns1))
    end.
    intros [x [a' ns']] Ha Hh Hd Hm.
    cbn [fst snd active_negotiations resolution_history communication_system dict_objects]
      in *.
    split; [exact Ha|]. split; [exact Hh|]. split; [exact Hd|]. split; [|discriminate].
    intros text' Ht. injection Ht as <-. split; [reflexivity|].
    do 2 eexists. rewrite Hm. reflexivity.
  - cbn [fst snd active_negotiations resolution_history communication_system dict_objects].
    split; [reflexivity|]. split; [reflexivity|]. split; [reflexivity|].
    split; [discriminate|]. intros _. split; reflexivity.
Qed.

(** X15. [initiate_negotiation] files, under a fresh id, an active
    negotiation between the two parties whose only proposal is the dict it
    was given, held by reference; the other active negotiations, the
    history and the dict objects are left as they were. When json can
    serialise the proposal, one high-priority collaboration request
    carrying the id and the serialised proposal goes from the initiator to
    the other party and the id is returned; when it cannot, the call
    raises with the negotiation filed and no request sent. *)
Theorem initiate_negotiation_opens (a : Ambient) (ns : NegotiationSystem)
    (initiator_id other_party_id topic_ : string) (initial_proposal : nat) :
  let out := initiate_negotiation json_dumps initiator_id other_party_id topic_
               initial_proposal (a, ns) in
  let nid := uuids a (uuid_cursor a) in
  (exists n, active_negotiations (snd (snd out)) !! nid = Some n
             /\ active_ok nid n /\ initiator n = initiator_id
             /\ other_party n = other_party_id /\ topic n = topic_
             /\ proposals n = [initial_proposal])
  /\ (forall k, k <> nid ->
        active_negotiations (snd (snd out)) !! k = active_negotiations ns !! k)
  /\ resolution_history (snd (snd out)) = resolution_history ns
  /\ dict_objects (snd (snd out)) = dict_objects ns
  /\ (forall text, json_dumps (dict_objects ns initial_proposal) = Some text ->
        fst out = Some nid
        /\ exists m, messages (communication_system (snd (snd out)))
                     = messages (communication_system ns) ++ [m]
                     /\ sender_id m = initiator_id /\ receiver_id m = other_party_id
                     /\ message_type m = COLLABORATION_REQUEST /\ priority m = HIGH
                     /\ content m = ("Proposal: " +:+ text)%string
                     /\ metadata m !! "negotiation_id"%string = Some nid)
  /\ (json_dumps (dict_objects ns initial_proposal) = None ->
      fst out = None /\ communication_system (snd (snd out)) = communication_system ns).
Proof.
  cbv zeta.
  destruct (initiate_negotiation_spec a ns initiator_id other_party_id topic_ initial_proposal)
    as (Ha & Hh & Hd & Hs & Hnone).
  split; [|split; [|split; [exact Hh | split; [exact Hd | split; [|exact Hnone]]]]].
  - eexists. rewrite Ha, lookup_insert_eq. split; [reflexivity|].
    split.
    { unfold active_ok. cbn [opened neg_id status proposals resolution resolved_at].
      split; [reflexivity|]. split; [reflexivity|]. split; [discriminate|].
      split; reflexivity. }
    split; [reflexivity|]. split; [reflexivity|]. split; reflexivity.
  - intros k Hk. rewrite Ha. apply lookup_insert_ne. congruence.
  - intros text Ht. destruct (Hs text Ht) as (Hid & mid & t & Hm).
    split; [exact Hid|]. eexists. split; [exact Hm|].
    cbn [sender_id receiver_id message_type priority content metadata].
    repeat split.
Qed.

(** X16. On an active negotiation [add_counter_proposal] writes the agent
    and the time into the dict it was given, the caller's object, and
    appends that object to the negotiation's proposals. No other dict
    object changes; but whoever holds that object sees the two entries: an
    earlier proposal of this or of another negotiation, active or archived,
    that is the same dict has changed with it. The negotiations themselves
    and the history are otherwise as before. It does not ask the agent to
    be a party: when json can serialise the stamped dict, the announcement
    goes to the other party when the agent is the initiator, and to the
    initiator in every other case, and the call returns true; when it
    cannot, the call raises with the proposal appended and nothing sent. *)
Theorem add_counter_proposal_appends (a : Ambient) (ns : NegotiationSystem)
    (nid agent : string) (proposal : nat) (n : Negotiation) :
  active_negotiations ns !! nid = Some n ->
  let out := add_counter_proposal json_dumps isoformat nid agent proposal (a, ns) in
  let ns' := snd (snd out) in
  let d := stamp isoformat agent (times a (time_cursor a)) (dict_objects ns proposal) in
  (exists n', active_negotiations ns' !! nid = Some n'
              /\ proposals n' = proposals n ++ [proposal]
              /\ status n' = status n /\ resolution n' = resolution n
              /\ neg_id n' = neg_id n)
  /\ dict_objects ns' proposal = d
  /\ d !! "proposed_by"%string = Some (PStr agent)
  /\ d !! "timestamp"%string = Some (PStr (isoformat (times a (time_cursor a))))
  /\ (forall k, k <> "proposed_by"%string -> k <> "timestamp"%string ->
        d !! k = dict_objects ns proposal !! k)
  /\ (forall q, q <> proposal -> dict_objects ns' q = dict_objects ns q)
  /\ (forall k, k <> nid -> active_negotiations ns' !! k = active_negotiations ns !! k)
  /\ resolution_history ns' = resolution_history ns
  /\ (forall text, json_dumps d = Some text ->
        fst out = Some true
        /\ exists m, messages (communication_system ns')
                     = messages (communication_system ns) ++ [m]
                     /\ sender_id m = agent
                     /\ receiver_id m = (if String.eqb agent (initiator n)
                                         then other_party n else initiator n)
                     /\ priority m = HIGH
                     /\ content m = ("New proposal: " +:+ text)%string)
  /\ (json_dumps d = None ->
      fst out = None /\ communication_system ns' = communication_system ns).
Proof.
  intros Hn. cbv zeta.
  destruct (add_counter_proposal_active a ns nid agent proposal n Hn)
    as (Ha & Hh & Hd & Hs & Hnone).
  split; [|split; [|split; [|split; [|split; [|split; [|split; [|split;
    [exact Hh | split; [|exact Hnone]]]]]]]]].
  - eexists. rewrite Ha, lookup_insert_eq. split; [reflexivity|]. repeat split.
  - rewrite Hd. rewrite Nat.eqb_refl. reflexivity.
  - unfold stamp, Dict. rewrite lookup_insert_ne by discriminate. apply lookup_insert_eq.
  - unfold stamp, Dict. apply lookup_insert_eq.
  - intros k H1 H2. unfold stamp, Dict. rewrite !lookup_insert_ne by congruence. reflexivity.
  - intros q Hq. rewrite Hd. apply Nat.eqb_neq in Hq. rewrite Hq. reflexivity.
  - intros k Hk. rewrite Ha. apply lookup_insert_ne. congruence.
  - intros text Ht. destruct (Hs text Ht) as (Hok & mid & t & Hm).
    split; [exact Hok|]. eexists. split; [exact Hm|]. repeat split.
Qed.

Lemma negotiations_ok_initiate (a : Ambient) (ns : NegotiationSystem)
    (initiator_id other_party_id topic_ : string) (initial_proposal : nat) :
  negotiations_ok ns ->
  negotiations_ok (snd (snd (initiate_negotiation json_dumps initiator_id other_party_id
                               topic_ initial_proposal (a, ns)))).
Proof.
  intros [Hact Hhist].
  destruct (initiate_negotiation_spec a ns initiator_id other_party_id topic_ initial_proposal)
    as (Ha & Hh & _).
  split.
  - intros k n. rewrite Ha. intros H.
    apply lookup_insert_Some in H as [[<- <-] | [_ H]]; [|exact (Hact k n H)].
    repeat split. discriminate.
  - rewrite Hh. exact Hhist.
Qed.

Lemma negotiations_ok_counter (a : Ambient) (ns : NegotiationSystem)
    (nid agent : string) (proposal : nat) :
  negotiations_ok ns ->
  negotiations_ok (snd (snd (add_counter_proposal json_dumps isoformat nid agent proposal
                               (a, ns)))).
Proof.
  intros [Hact Hhist].
  destruct (active_negotiations ns !! nid) as [n|] eqn:Hn.
  - destruct (add_counter_proposal_active a ns nid agent proposal n Hn) as (Ha & Hh & _).
    split.
    + intros k n'. rewrite Ha. intros H.
      apply lookup_insert_Some in H as [[<- <-] | [_ H]]; [|exact (Hact k n' H)].
      destruct (Hact nid n Hn) as (H1 & H2 & H3 & H4 & H5).
      repeat split; cbn [neg_id status proposals resolution resolved_at add_proposal];
        try assumption.
      intros E. apply app_eq_nil in E as [_ E]. discriminate.
    + rewrite Hh. exact Hhist.
  - rewrite (add_counter_proposal_unknown json_dumps isoformat nid agent proposal a ns Hn).
    split; assumption.
Qed.

Lemma negotiations_ok_resolve (a : Ambient) (ns : NegotiationSystem)
    (nid : string) (r : nat) :
  negotiations_ok ns ->
  negotiations_ok (snd (snd (resolve_negotiation json_dumps nid r (a, ns)))).
Proof.
  intros [Hact Hhist].
  destruct (active_negotiations ns !! nid) as [n|] eqn:Hn.
  - destruct (resolve_negotiation_active json_dumps nid r a ns n Hn) as (Ha & Hh & _).
    split.
    + intros k n'. rewrite Ha. intros H.
      apply lookup_delete_Some in H as [_ H]. exact (Hact k n' H).
    + rewrite Hh. apply Forall_app. split; [exact Hhist|].
      constructor; [|constructor].
      destruct (Hact nid n Hn) as (_ & _ & H3 & _).
      repeat split; cbn [status proposals resolution resolved_at resolve]; eauto.
  - rewrite (resolve_negotiation_inactive json_dumps nid r a ns Hn). split; assumption.
Qed.

(** X17. The negotiation state machine keeps its books: in a new system,
    and after any [initiate_negotiation], [add_counter_proposal] or
    [resolve_negotiation] on a system of which this holds, whether the call
    returned or raised, every active negotiation is filed under its own id
    with the status active, at least one proposal and no resolution, and
    every archived one has the status resolved, a resolution and a
    resolution time. The history is only ever appended to. *)
Theorem negotiations_ok_invariant :
  (forall cs objects, negotiations_ok (negotiation_init cs objects))
  /\ (forall a ns, negotiations_ok ns ->
        (forall i o t p,
            let ns' := snd (snd (initiate_negotiation json_dumps i o t p (a, ns))) in
            negotiations_ok ns' /\ resolution_history ns' = resolution_history ns)
        /\ (forall nid agent p,
              let ns' := snd (snd (add_counter_proposal json_dumps isoformat nid agent p
                                     (a, ns))) in
              negotiations_ok ns' /\ resolution_history ns' = resolution_history ns)
        /\ (forall nid r,
              let ns' := snd (snd (resolve_negotiation json_dumps nid r (a, ns))) in
              negotiations_ok ns'
              /\ exists added, resolution_history ns' = resolution_history ns ++ added)).
Proof.
  split.
  - intros cs objects. split; [|constructor].
    intros k n H. cbn [negotiation_init active_negotiations] in H.
    rewrite lookup_empty in H. discriminate.
  - intros a ns Hok. split; [|split].
    + intros i o t p. cbv zeta. split; [apply negotiations_ok_initiate; exact Hok|].
      apply (initiate_negotiation_spec a ns i o t p).
    + intros nid agent p. cbv zeta. split; [apply negotiations_ok_counter; exact Hok|].
      destruct (active_negotiations ns !! nid) as [n|] eqn:Hn.
      * apply (add_counter_proposal_active a ns nid agent p n Hn).
      * rewrite (add_counter_proposal_unknown json_dumps isoformat nid agent p a ns Hn).
        reflexivity.
    + intros nid r. cbv zeta. split; [apply negotiations_ok_resolve; exact Hok|].
      destruct (active_negotiations ns !! nid) as [n|] eqn:Hn.
      * destruct (resolve_negotiation_active json_dumps nid r a ns n Hn) as (_ & Hh & _).
        eexists. exact Hh.
      * rewrite (resolve_negotiation_inactive json_dumps nid r a ns Hn).
        exists []. rewrite app_nil_r. reflexivity.
Qed.

(** X18. Initiate, one counter-proposal, resolve, with dicts json can
    serialise at each step: each call succeeds; at the end the negotiation
    is no longer active and the history has gained exactly one entry, that
    negotiation, resolved with the given resolution and holding the initial
    proposal followed by the counter-proposal, both by reference. The
    counter-proposal's dict carries the agent and the time; the initial
    proposal's dict is as it was given when it is another object, and is
    that same stamped dict when the caller passed one dict for both. Four
    messages have been sent in all: the request, the counter-proposal and
    one notice to each party. *)
Theorem negotiation_round (a : Ambient) (ns : NegotiationSystem)
    (initiator_id other_party_id topic_ agent : string) (p0 p1 r : nat) :
  let o1 := initiate_negotiation json_dumps initiator_id other_party_id topic_ p0 (a, ns) in
  let nid := uuids a (uuid_cursor a) in
  let a1 := fst (snd o1) in
  let o2 := add_counter_proposal json_dumps isoformat nid agent p1 (snd o1) in
  let o3 := resolve_negotiation json_dumps nid r (snd o2) in
  let d1 := stamp isoformat agent (times a1 (time_cursor a1)) (dict_objects ns p1) in
  let after q := if Nat.eqb q p1 then d1 else dict_objects ns q in
  is_Some (json_dumps (dict_objects ns p0)) ->
  is_Some (json_dumps d1) ->
  is_Some (json_dumps (after r)) ->
  fst o1 = Some nid /\ fst o2 = Some true /\ fst o3 = Some true
  /\ active_negotiations (snd (snd o3)) !! nid = None
  /\ (exists n, resolution_history (snd (snd o3)) = resolution_history ns ++ [n]
               /\ neg_id n = nid /\ status n = "resolved"%string
               /\ resolution n = Some r
               /\ initiator n = initiator_id /\ other_party n = other_party_id
               /\ proposals n = [p0; p1])
  /\ dict_objects (snd (snd o3)) = after
  /\ d1 !! "proposed_by"%string = Some (PStr agent)
  /\ (p0 <> p1 -> after p0 = dict_objects ns p0)
  /\ (p0 = p1 -> map after [p0; p1] = [d1; d1])
  /\ exists m1 m2 m3 m4,
       messages (communication_system (snd (snd o3)))
       = messages (communication_system ns) ++ [m1; m2; m3; m4]
       /\ receiver_id m1 = other_party_id
       /\ sender_id m2 = agent
       /\ receiver_id m3 = initiator_id /\ receiver_id m4 = other_party_id.
Proof.
  cbv zeta. intros [text0 H0].
  destruct (initiate_negotiation_spec a ns initiator_id other_party_id topic_ p0)
    as (Ha1 & Hh1 & Hd1 & Hs1 & _).
  destruct (Hs1 text0 H0) as (Hid & mid1 & t1 & Hm1). clear Hs1.
  generalize dependent (initiate_negotiation json_dumps initiator_id other_party_id topic_
                          p0 (a, ns)).
  intros [nid' [a1 ns1]] Ha1 Hh1 Hd1 Hid Hm1. cbn [fst snd] in *.
  intros [text1 H1] [text2 H2].
  assert (Hn1 : active_negotiations ns1 !! uuids a (uuid_cursor a)
                = Some (opened a initiator_id other_party_id topic_ p0)).
  { rewrite Ha1. apply lookup_insert_eq. }
  destruct (add_counter_proposal_active a1 ns1 (uuids a (uuid_cursor a)) agent p1 _ Hn1)
    as (Ha2 & Hh2 & Hd2 & Hs2 & _).
  rewrite Hd1 in Hd2, Hs2.
  destruct (Hs2 text1 H1) as (Hok2 & mid2 & t2 & Hm2). clear Hs2.
  generalize dependent (add_counter_proposal json_dumps isoformat (uuids a (uuid_cursor a))
                          agent p1 (a1, ns1)).
  intros [b2 [a2 ns2]] Ha2 Hh2 Hd2 Hok2 Hm2. cbn [fst snd] in *.
  assert (Hn2 : active_negotiations ns2 !! uuids a (uuid_cursor a)
                = Some (add_proposal (opened a initiator_id other_party_id topic_ p0) p1)).
  { rewrite Ha2. apply lookup_insert_eq. }
  destruct (resolve_negotiation_active json_dumps (uuids a (uuid_cursor a)) r a2 ns2 _ Hn2)
    as (Ha3 & Hh3 & Hd3 & Hs3 & _).
  rewrite Hd2 in Hd3, Hs3.
  destruct (Hs3 text2 H2) as (Hok3 & mid3 & t3 & mid4 & t4 & Hm3). clear Hs3.
  generalize dependent (resolve_negotiation json_dumps (uuids a (uuid_cursor a)) r (a2, ns2)).
  intros [b3 [a3 ns3]] Ha3 Hh3 Hd3 Hok3 Hm3. cbn [fst snd] in *.
  split; [exact Hid|]. split; [exact Hok2|]. split; [exact Hok3|].
  split; [rewrite Ha3; apply lookup_delete_eq|].
  split.
  { eexists. split; [rewrite Hh3, Hh2, Hh1; reflexivity|].
    cbn [neg_id status resolution initiator other_party proposals resolve add_proposal opened].
    repeat split. }
  split; [exact Hd3|].
  split; [unfold stamp, Dict; rewrite lookup_insert_ne by discriminate; apply lookup_insert_eq|].
  split; [intros Hne; apply Nat.eqb_neq in Hne; rewrite Hne; reflexivity|].
  split; [intros ->; cbn [map]; rewrite Nat.eqb_refl; reflexivity|].
  do 4 eexists. split.
  - rewrite Hm3, Hm2, Hm1, <- !app_assoc. reflexivity.
  - repeat split.
Qed.

End NegotiationMachine.

Lemma initiate_negotiation_opens_witness :
  sample_json (dict_objects sample_negsys 1) = Some "{...}"%string
  /\ fst (initiate_negotiation sample_json "carol" "dave" "hiring" 1
            (sample_ambient, sample_negsys))
     = Some (uuids sample_ambient (uuid_cursor sample_ambient))
  /\ sample_json (dict_objects sample_negsys 2) = None
  /\ fst (initiate_negotiation sample_json "carol" "dave" "hiring" 2
            (sample_ambient, sample_negsys)) = None
  /\ communication_system
       (snd (snd (initiate_negotiation sample_json "carol" "dave" "hiring" 2
                    (sample_ambient, sample_negsys))))
     = communication_system sample_negsys.
Proof.
  destruct sample_json_values as [H1 H2].
  split; [exact H1|].
  split; [exact (proj1 (proj1 (proj2 (proj2 (proj2 (proj2
                   (initiate_negotiation_opens sample_json sample_ambient sample_negsys
                      "carol" "dave" "hiring" 1))))) "{...}"%string H1))|].
  split; [exact H2|].
  exact (proj2 (proj2 (proj2 (proj2 (proj2
           (initiate_negotiation_opens sample_json sample_ambient sample_negsys
              "carol" "dave" "hiring" 2))))) H2).
Defined.

Lemma sample_stamped_json :
  sample_json (stamp sample_iso "carol" (times sample_ambient (time_cursor sample_ambient))
                 (dict_objects sample_negsys 0)) = Some "{...}"%string.
Proof. vm_compute. reflexivity. Qed.

Lemma add_counter_proposal_appends_witness :
  active_negotiations sample_negsys !! "uuid-a"%string = Some sample_negotiation
  /\ sample_json (stamp sample_iso "carol" (times sample_ambient (time_cursor sample_ambient))
                    (dict_objects sample_negsys 0)) = Some "{...}"%string
  /\ fst (add_counter_proposal sample_json sample_iso "uuid-a" "carol" 0
            (sample_ambient, sample_negsys)) = Some true
  /\ (exists n',
        active_negotiations
          (snd (snd (add_counter_proposal sample_json sample_iso "uuid-a" "carol" 0
                       (sample_ambient, sample_negsys)))) !! "uuid-a"%string = Some n'
        /\ proposals n' = proposals sample_negotiation ++ [0%nat])
  /\ dict_objects
       (snd (snd (add_counter_proposal sample_json sample_iso "uuid-a" "carol" 0
                    (sample_ambient, sample_negsys)))) 0%nat
     = stamp sample_iso "carol" (times sample_ambient (time_cursor sample_ambient))
         (dict_objects sample_negsys 0).
Proof.
  destruct sample_negsys_lookup as [Ha _].
  pose proof sample_stamped_json as Hj.
  destruct (add_counter_proposal_appends sample_json sample_iso sample_ambient sample_negsys
              "uuid-a" "carol" 0 sample_negotiation Ha)
    as ((n' & Hn' & Hp & _) & Hd & _ & _ & _ & _ & _ & _ & Hs & _).
  split; [exact Ha|]. split; [exact Hj|].
  split; [exact (proj1 (Hs _ Hj))|].
  split; [exists n'; split; [exact Hn' | exact Hp] | exact Hd].
Defined.

Lemma negotiations_ok_invariant_witness :
  negotiations_ok (negotiation_init comm_init sample_objects)
  /\ negotiations_ok
       (snd (snd (resolve_negotiation sample_json "uuid-z" 1
                    (sample_ambient, negotiation_init comm_init sample_objects)))).
Proof.
  destruct (negotiations_ok_invariant sample_json sample_iso) as [H0 H].
  split; [apply H0|].
  destruct (H sample_ambient (negotiation_init comm_init sample_objects)
              (H0 comm_init sample_objects)) as (_ & _ & Hr).
  apply (Hr "uuid-z"%string 1%nat).
Defined.

Lemma negotiation_round_witness :
  let a1 := fst (snd (initiate_negotiation sample_json "carol" "dave" "hiring" 0
                        (sample_ambient, sample_negsys))) in
  let d1 := stamp sample_iso "dave" (times a1 (time_cursor a1)) (dict_objects sample_negsys 0) in
  is_Some (sample_json (dict_objects sample_negsys 0))
  /\ is_Some (sample_json d1)
  /\ is_Some (sample_json (if Nat.eqb 1 0 then d1 else dict_objects sample_negsys 1))
  /\ exists n,
       resolution_history
         (snd (snd (resolve_negotiation sample_json
                      (uuids sample_ambient (uuid_cursor sample_ambient)) 1
                      (snd (add_counter_proposal sample_json sample_iso
                              (uuids sample_ambient (uuid_cursor sample_ambient)) "dave" 0
                              (snd (initiate_negotiation sample_json "carol" "dave" "hiring"
                                      0 (sample_ambient, sample_negsys))))))))
       = resolution_history sample_negsys ++ [n]
       /\ proposals n = [0%nat; 0%nat] /\ resolution n = Some 1%nat.
Proof.
  cbv zeta.
  assert (H0 : is_Some (sample_json (dict_objects sample_negsys 0)))
    by (vm_compute; eauto).
  assert (H1 : is_Some (sample_json
                 (stamp sample_iso "dave"
                    (times (fst (snd (initiate_negotiation sample_json "carol" "dave"
                                        "hiring" 0 (sample_ambient, sample_negsys))))
                       (time_cursor (fst (snd (initiate_negotiation sample_json "carol"
                                                 "dave" "hiring" 0
                                                 (sample_ambient, sample_negsys))))))
                    (dict_objects sample_negsys 0))))
    by (vm_compute; eauto).
  assert (H2 : is_Some (sample_json
                 (if Nat.eqb 1 0
                  then stamp sample_iso "dave"
                         (times (fst (snd (initiate_negotiation sample_json "carol" "dave"
                                             "hiring" 0 (sample_ambient, sample_negsys))))
                            (time_cursor (fst (snd (initiate_negotiation sample_json "carol"
                                                      "dave" "hiring" 0
                                                      (sample_ambient, sample_negsys))))))
                         (dict_objects sample_negsys 0)
                  else dict_objects sample_negsys 1)))
    by (vm_compute; eauto).
  split; [exact H0|]. split; [exact H1|]. split; [exact H2|].
  destruct (negotiation_round sample_json sample_iso sample_ambient sample_negsys
              "carol" "dave" "hiring" "dave" 0 0 1 H0 H1 H2)
    as (_ & _ & _ & _ & (n & Hh & _ & _ & Hr & _ & _ & Hp) & _).
  exists n. split; [exact Hh|]. split; [exact Hp | exact Hr].
Defined.

End CommProps.

Module MarketProps.
Import Market.

Lemma phase_eqb_eq (p q : MarketPhase) : phase_eqb p q = true <-> p = q.
Proof. destruct p, q; simpl; split; congruence. Qed.

(** *** The economic cycle *)

Lemma update_indicators_phase (e : EconomicCycleSimulator) (r : Rng) :
  current_phase (fst (_update_economic_indicators e r)) = current_phase e.
Proof.
  unfold _update_economic_indicators.
  destruct (current_phase e) eqn:E; simpl; exact E.
Qed.

Lemma update_indicators_draws (e : EconomicCycleSimulator) (r : Rng) :
  draws (snd (_update_economic_indicators e r)) = draws r.
Proof.
  unfold _update_economic_indicators.
  destruct (current_phase e); reflexivity.
Qed.

Lemma maybe_transition_cases (e : EconomicCycleSimulator) (p : Q) (next : MarketPhase) (r : Rng) :
  (fst (maybe_transition e p next r) = e \/ fst (maybe_transition e p next r) = set_phase e next 0)
  /\ draws (snd (maybe_transition e p next r)) = draws r.
Proof.
  unfold maybe_transition, bind, random, ret.
  destruct (Qltb _ p); simpl; auto.
Qed.

(** The transition chain moves along Growth, Boom, Recession, Recovery and
    back, or stays; it writes only the phase and its duration. *)
Lemma phase_transition_cases (e : EconomicCycleSimulator) (r : Rng) :
  (fst (phase_transition e r) = e
   \/ exists next, next <> STAGNATION /\ fst (phase_transition e r) = set_phase e next 0)
  /\ draws (snd (phase_transition e r)) = draws r.
Proof.
  unfold phase_transition.
  repeat match goal with
  | |- context [if ?b then _ else _] => destruct b
  end;
  try (split; [left|]; reflexivity);
  match goal with
  | |- context [maybe_transition ?e ?p ?n ?r] =>
      destruct (maybe_transition_cases e p n r) as [[H | H] Hd];
      (split; [|exact Hd]); [left; exact H | right; exists n; split; [discriminate | exact H]]
  end.
Qed.

Lemma advance_cycle_draws (e : EconomicCycleSimulator) (r : Rng) :
  draws (snd (advance_cycle e r)) = draws r.
Proof.
  unfold advance_cycle, bind.
  destruct (phase_transition _ r) as [e2 r2] eqn:E.
  rewrite update_indicators_draws.
  pose proof (proj2 (phase_transition_cases
    (set_phase e (current_phase e) (phase_duration e + 1)%Z) r)) as Hd.
  rewrite E in Hd. exact Hd.
Qed.

Lemma advance_cycle_valid (e : EconomicCycleSimulator) (r : Rng) :
  valid_rng r -> valid_rng (snd (advance_cycle e r)).
Proof.
  intros H n. rewrite advance_cycle_draws. apply H.
Qed.

Lemma advance_cycle_no_stagnation (e : EconomicCycleSimulator) (r : Rng) :
  current_phase e <> STAGNATION -> current_phase (fst (advance_cycle e r)) <> STAGNATION.
Proof.
  intros Hp. unfold advance_cycle, bind.
  destruct (phase_transition _ r) as [e2 r2] eqn:E.
  rewrite update_indicators_phase.
  destruct (phase_transition_cases
    (set_phase e (current_phase e) (phase_duration e + 1)%Z) r) as [[H | [n [Hn H]]] _];
    rewrite E in H; simpl in H; subst e2; simpl; assumption.
Qed.

Lemma reachable_advance_n (n : nat) (e : EconomicCycleSimulator) (r : Rng) :
  reachable e -> valid_rng r -> reachable (fst (advance_n n e r)).
Proof.
  revert e r. induction n as [|n IH]; intros e r He Hr; simpl.
  - exact He.
  - unfold bind. destruct (advance_cycle e r) as [e' r'] eqn:E.
    apply IH.
    + replace e' with (fst (advance_cycle e r)) by (rewrite E; reflexivity).
      apply reach_step; assumption.
    + replace r' with (snd (advance_cycle e r)) by (rewrite E; reflexivity).
      apply advance_cycle_valid; assumption.
Qed.

Lemma rng_const_valid (q : Q) : 0 <= q -> q < 1 -> valid_rng (rng_const q).
Proof. intros H0 H1 n. simpl. split; assumption. Qed.

(** C9. From the engine's initial economic state (phase Growth) no sequence
    of [advance_cycle] calls, whatever the draws, reaches the phase
    Stagnation, and each of Growth, Boom, Recession and Recovery is reached
    by some sequence: the reachable phases are exactly those four. *)
Theorem stagnation_unreachable :
  (forall e, reachable e -> current_phase e <> STAGNATION)
  /\ (forall p, p <> STAGNATION -> exists e, reachable e /\ current_phase e = p).
Proof.
  split.
  - intros e He. induction He as [|e r He IH Hr].
    + discriminate.
    + apply advance_cycle_no_stagnation. exact IH.
  - intros p Hp.
    assert (Hv : valid_rng (rng_const 0)) by (apply rng_const_valid; lra).
    destruct p.
    + exists cycle_init. split; [constructor | reflexivity].
    + exists (fst (advance_n 38 cycle_init (rng_const 0))).
      split; [apply reachable_advance_n; [constructor | exact Hv] | vm_compute; reflexivity].
    + exists (fst (advance_n 57 cycle_init (rng_const 0))).
      split; [apply reachable_advance_n; [constructor | exact Hv] | vm_compute; reflexivity].
    + exists (fst (advance_n 25 cycle_init (rng_const 0))).
      split; [apply reachable_advance_n; [constructor | exact Hv] | vm_compute; reflexivity].
    + contradiction.
Qed.

Lemma stagnation_unreachable_witness :
  reachable (fst (advance_cycle cycle_init (rng_const 0)))
  /\ current_phase (fst (advance_cycle cycle_init (rng_const 0))) <> STAGNATION
  /\ BOOM <> STAGNATION
  /\ exists e, reachable e /\ current_phase e = BOOM.
Proof.
  assert (Hr : reachable (fst (advance_cycle cycle_init (rng_const 0)))).
  { apply reach_step; [constructor | apply rng_const_valid; lra]. }
  split; [exact Hr|].
  split; [exact (proj1 stagnation_unreachable _ Hr)|].
  split; [discriminate|].
  apply (proj2 stagnation_unreachable BOOM). discriminate.
Defined.

(** *** Indicators after an advance *)

Lemma bounds_ordered (p : MarketPhase) :
  let b := phase_bounds p in
  gdp_lo b <= gdp_hi b /\ unemp_lo b <= unemp_hi b
  /\ rate_lo b <= rate_hi b /\ tech_lo b <= tech_hi b.
Proof. destruct p; simpl; repeat split; lra. Qed.

Lemma redraw_spec (e : EconomicCycleSimulator) (b : Bounds) (r : Rng) :
  valid_rng r ->
  gdp_lo b <= gdp_hi b -> unemp_lo b <= unemp_hi b ->
  rate_lo b <= rate_hi b -> tech_lo b <= tech_hi b ->
  let e' := fst (redraw e b r) in
  within (gdp_lo b) (gdp_growth e') (gdp_hi b)
  /\ within (unemp_lo b) (unemployment_rate e') (unemp_hi b)
  /\ within (rate_lo b) (interest_rates e') (rate_hi b)
  /\ within (tech_lo b) (tech_sector_performance e') (tech_hi b)
  /\ inflation_rate e' = inflation_rate e
  /\ market_volatility e' = market_volatility e
  /\ current_phase e' = current_phase e.
Proof.
  intros Hr Hg Hu Hi Ht. unfold redraw, bind, uniform, random, ret, within. simpl.
  pose proof (Hr (cursor r)) as [? ?].
  pose proof (Hr (S (cursor r))) as [? ?].
  pose proof (Hr (S (S (cursor r)))) as [? ?].
  pose proof (Hr (S (S (S (cursor r))))) as [? ?].
  repeat split; try reflexivity; nra.
Qed.

Lemma update_indicators_redraw (e : EconomicCycleSimulator) (r : Rng) :
  _update_economic_indicators e r = redraw e (phase_bounds (current_phase e)) r.
Proof.
  unfold _update_economic_indicators. destruct (current_phase e); reflexivity.
Qed.

Lemma phase_transition_keeps (e : EconomicCycleSimulator) (r : Rng) :
  inflation_rate (fst (phase_transition e r)) = inflation_rate e
  /\ market_volatility (fst (phase_transition e r)) = market_volatility e.
Proof.
  destruct (phase_transition_cases e r) as [[H | [n [_ H]]] _]; rewrite H; split; reflexivity.
Qed.

Lemma phase_transition_valid (e : EconomicCycleSimulator) (r : Rng) :
  valid_rng r -> valid_rng (snd (phase_transition e r)).
Proof.
  intros H n. rewrite (proj2 (phase_transition_cases e r)). apply H.
Qed.

(** The draws [phase_transition] consumes: it moves the cursor by
    [transition_draws] and leaves the stream alone. *)
Lemma phase_transition_cursor (e : EconomicCycleSimulator) (r : Rng) :
  let e1 := set_phase e (current_phase e) (phase_duration e + 1)%Z in
  cursor (snd (phase_transition e1 r)) = (cursor r + transition_draws e)%nat
  /\ draws (snd (phase_transition e1 r)) = draws r.
Proof.
  cbv zeta. unfold phase_transition, maybe_transition, transition_draws, bind, random, ret.
  cbn [current_phase phase_duration set_phase].
  destruct (current_phase e); cbn [phase_eqb andb];
    try (split; [cbn [snd cursor]; lia | reflexivity]);
    match goal with |- context [(?d <? phase_duration e + 1)%Z] =>
      destruct (d <? phase_duration e + 1)%Z
    end; cbn [andb fst snd cursor draws];
    try (split; [lia | reflexivity]);
    match goal with |- context [Qltb ?u ?p] => destruct (Qltb u p) end;
    cbn [snd cursor draws]; (split; [lia | reflexivity]).
Qed.

(** What [redraw] makes of the four draws it consumes. *)
Lemma redraw_values (e : EconomicCycleSimulator) (b : Bounds) (r : Rng) :
  let e' := fst (redraw e b r) in
  let k := cursor r in
  gdp_growth e' = uniform_at r k (gdp_lo b) (gdp_hi b)
  /\ unemployment_rate e' = uniform_at r (k + 1) (unemp_lo b) (unemp_hi b)
  /\ interest_rates e' = uniform_at r (k + 2) (rate_lo b) (rate_hi b)
  /\ tech_sector_performance e' = uniform_at r (k + 3) (tech_lo b) (tech_hi b)
  /\ cursor (snd (redraw e b r)) = (k + 4)%nat
  /\ draws (snd (redraw e b r)) = draws r.
Proof.
  cbv zeta. unfold redraw, bind, uniform, random, ret, uniform_at.
  cbn [fst snd cursor draws gdp_growth unemployment_rate interest_rates
       tech_sector_performance set_indicators].
  replace (cursor r + 1)%nat with (S (cursor r)) by lia.
  replace (cursor r + 2)%nat with (S (S (cursor r))) by lia.
  replace (cursor r + 3)%nat with (S (S (S (cursor r)))) by lia.
  replace (cursor r + 4)%nat with (S (S (S (S (cursor r))))) by lia.
  repeat split.
Qed.

(** C4, as the code has it. On every call of [advance_cycle], once the
    phase is resolved, gdp growth, unemployment, interest rates and tech
    sector performance are redrawn, in this order, each as
    [random.uniform] between the hardcoded bounds of the phase the cycle is
    then in, from four successive draws that follow the draw of the
    transition if there was one; so each lies within those bounds. The
    inflation rate and the market volatility are not redrawn: they are what
    they were before the call. *)
Theorem advance_cycle_indicators (e : EconomicCycleSimulator) (r : Rng) :
  valid_rng r ->
  let e' := fst (advance_cycle e r) in
  let r' := snd (advance_cycle e r) in
  let b := phase_bounds (current_phase e') in
  let k := (cursor r + transition_draws e)%nat in
  (gdp_growth e' = uniform_at r k (gdp_lo b) (gdp_hi b)
   /\ unemployment_rate e' = uniform_at r (k + 1) (unemp_lo b) (unemp_hi b)
   /\ interest_rates e' = uniform_at r (k + 2) (rate_lo b) (rate_hi b)
   /\ tech_sector_performance e' = uniform_at r (k + 3) (tech_lo b) (tech_hi b)
   /\ cursor r' = (k + 4)%nat /\ draws r' = draws r)
  /\ within (gdp_lo b) (gdp_growth e') (gdp_hi b)
  /\ within (unemp_lo b) (unemployment_rate e') (unemp_hi b)
  /\ within (rate_lo b) (interest_rates e') (rate_hi b)
  /\ within (tech_lo b) (tech_sector_performance e') (tech_hi b)
  /\ inflation_rate e' = inflation_rate e
  /\ market_volatility e' = market_volatility e.
Proof.
  intros Hr. cbv zeta. unfold advance_cycle, bind.
  set (e1 := set_phase e (current_phase e) (phase_duration e + 1)%Z).
  pose proof (phase_transition_keeps e1 r) as [Hinf Hvol].
  pose proof (phase_transition_valid e1 r Hr) as Hr2.
  pose proof (phase_transition_cursor e r) as [Hcur Hdraws]. cbv zeta in Hcur, Hdraws.
  fold e1 in Hcur, Hdraws.
  destruct (phase_transition e1 r) as [e2 r2]. cbn [fst snd] in Hinf, Hvol, Hr2, Hcur, Hdraws.
  rewrite update_indicators_redraw.
  destruct (bounds_ordered (current_phase e2)) as (Hg & Hu & Hi & Ht).
  destruct (redraw_spec e2 (phase_bounds (current_phase e2)) r2 Hr2 Hg Hu Hi Ht)
    as (H1 & H2 & H3 & H4 & H5 & H6 & H7).
  destruct (redraw_values e2 (phase_bounds (current_phase e2)) r2)
    as (V1 & V2 & V3 & V4 & V5 & V6).
  unfold uniform_at in *. rewrite Hcur, Hdraws in *.
  rewrite H7, H5, H6, Hinf, Hvol.
  split; [repeat split; assumption|].
  do 4 (split; [assumption|]). split; reflexivity.
Qed.

Lemma advance_cycle_indicators_witness :
  valid_rng (rng_const 0.5)
  /\ gdp_growth (fst (advance_cycle cycle_init (rng_const 0.5))) == 0.03
  /\ unemployment_rate (fst (advance_cycle cycle_init (rng_const 0.5))) == 0.045
  /\ cursor (snd (advance_cycle cycle_init (rng_const 0.5))) = 4%nat
  /\ inflation_rate (fst (advance_cycle cycle_init (rng_const 0.5)))
     = inflation_rate cycle_init.
Proof.
  assert (Hv : valid_rng (rng_const 0.5)) by (apply rng_const_valid; lra).
  split; [exact Hv|].
  destruct (advance_cycle_indicators cycle_init (rng_const 0.5) Hv)
    as ((V1 & V2 & _ & _ & V5 & _) & _ & _ & _ & _ & Hinf & _).
  split; [rewrite V1; vm_compute; reflexivity|].
  split; [rewrite V2; vm_compute; reflexivity|].
  split; [rewrite V5; reflexivity | exact Hinf].
Defined.

(** C4, as the spec words it, fails for two of the six indicators: with the
    same phase and the same draws, a cycle whose inflation rate is 0.5 and
    volatility 0.9 keeps 0.5 and 0.9 across [advance_cycle], and the initial
    cycle keeps its 0.03 and 0.1; what these two hold after the call is
    their previous value, not a draw within bounds of the phase. *)
Lemma inflation_volatility_not_redrawn :
  let e := set_inflation_volatility cycle_init 0.5 0.9 in
  current_phase (fst (advance_cycle e (rng_const 0)))
    = current_phase (fst (advance_cycle cycle_init (rng_const 0)))
  /\ inflation_rate (fst (advance_cycle e (rng_const 0))) = 0.5
  /\ market_volatility (fst (advance_cycle e (rng_const 0))) = 0.9
  /\ inflation_rate (fst (advance_cycle cycle_init (rng_const 0))) = 0.03
  /\ market_volatility (fst (advance_cycle cycle_init (rng_const 0))) = 0.1.
Proof. vm_compute. repeat split. Qed.

(** *** The competitive landscape *)

Lemma total_share_acc (l : list (string * Competitor)) (a : Q) :
  fold_left (fun acc kd => acc + share (snd kd)) l a
  == a + fold_left (fun acc kd => acc + share (snd kd)) l 0.
Proof.
  revert a. induction l as [|x l IH]; intros a; simpl.
  - lra.
  - rewrite (IH (a + share (snd x))), (IH (0 + share (snd x))). lra.
Qed.

Lemma total_share_cons (x : string * Competitor) (l : list (string * Competitor)) :
  total_share (x :: l) == share (snd x) + total_share l.
Proof.
  unfold total_share. simpl. rewrite total_share_acc. lra.
Qed.

Lemma total_share_nonneg (l : list (string * Competitor)) :
  Forall (fun kd => 0 <= share (snd kd)) l -> 0 <= total_share l.
Proof.
  induction 1 as [|x l Hx _ IH].
  - unfold total_share; simpl; lra.
  - rewrite total_share_cons. lra.
Qed.

Lemma total_share_pos (l : list (string * Competitor)) :
  l <> [] -> Forall (fun kd => within 0.01 (share (snd kd)) 0.8) l -> 0 < total_share l.
Proof.
  intros Hne H. destruct H as [|x l [Hx _] Hl]; [congruence|].
  rewrite total_share_cons.
  assert (0 <= total_share l).
  { apply total_share_nonneg. eapply Forall_impl; [exact Hl|].
    intros kd [? _]; simpl in *; lra. }
  lra.
Qed.

Lemma share_le_total (l : list (string * Competitor)) :
  Forall (fun kd => 0 <= share (snd kd)) l ->
  Forall (fun kd => share (snd kd) <= total_share l) l.
Proof.
  induction 1 as [|x l Hx Hl IH]; constructor.
  - rewrite total_share_cons. pose proof (total_share_nonneg l Hl). lra.
  - eapply Forall_impl; [exact IH|]. intros kd Hkd; simpl in *.
    rewrite total_share_cons. lra.
Qed.

Lemma total_share_scaled (t : Q) (l : list (string * Competitor)) :
  ~ t == 0 -> total_share (map (scale_share t) l) == total_share l / t.
Proof.
  intros Ht. induction l as [|x l IH].
  - unfold total_share; simpl. field. exact Ht.
  - change (map (scale_share t) (x :: l)) with (scale_share t x :: map (scale_share t) l).
    rewrite !total_share_cons, IH. simpl. field. exact Ht.
Qed.

Lemma perturb_one_clamped (gdp : Q) (d : Competitor) (r : Rng) :
  within 0.01 (share (fst (perturb_one gdp d r))) 0.8
  /\ strength (fst (perturb_one gdp d r)) = strength d.
Proof.
  unfold perturb_one, bind, ret, within. simpl. split; [|reflexivity].
  match goal with |- context [pymin 0.8 ?x] =>
    pose proof (pymin_spec 0.8 x) as (Hm1 & _ & _);
    pose proof (pymax_spec 0.01 (pymin 0.8 x)) as (HM1 & _ & [HM | HM])
  end; split; lra.
Qed.

Lemma perturb_shares_clamped (gdp : Q) (l : list (string * Competitor)) (r : Rng) :
  Forall (fun kd => within 0.01 (share (snd kd)) 0.8) (fst (perturb_shares gdp l r))
  /\ map fst (fst (perturb_shares gdp l r)) = map fst l.
Proof.
  revert r. induction l as [|[k d] l IH]; intros r; simpl.
  - split; [constructor | reflexivity].
  - unfold bind.
    pose proof (perturb_one_clamped gdp d r) as [Hd _].
    destruct (perturb_one gdp d r) as [d' r1].
    specialize (IH r1). destruct (perturb_shares gdp l r1) as [l' r2].
    simpl in *. destruct IH as [IH1 IH2]. split.
    + constructor; assumption.
    + f_equal. exact IH2.
Qed.

Lemma normalize_shares_some (l : list (string * Competitor)) :
  l = [] \/ 0 < total_share l ->
  normalize_shares l = Some (map (scale_share (total_share l)) l).
Proof.
  intros H. unfold normalize_shares. apply mapM_Some.
  destruct H as [-> | Hpos]; [constructor|].
  apply Forall2_fmap_r, Forall_Forall2_diag, Forall_forall. intros kd _.
  unfold pydiv. destruct (Qeq_bool (total_share l) 0) eqn:E.
  - apply Qeq_bool_iff in E. lra.
  - reflexivity.
Qed.

Lemma mc_gdp_growth (e : EconomicCycleSimulator) :
  item_num (get_market_conditions e) "gdp_growth" = Some (gdp_growth e).
Proof. reflexivity. Qed.

Lemma mc_tech (e : EconomicCycleSimulator) :
  item_num (get_market_conditions e) "tech_sector_performance" = Some (tech_sector_performance e).
Proof. reflexivity. Qed.

(** The update never raises on the conditions the cycle reports, whatever
    the landscape holds. *)
Lemma update_landscape_some (e : EconomicCycleSimulator) (l : list (string * Competitor)) (r : Rng) :
  let l1 := fst (perturb_shares (gdp_growth e) l r) in
  _update_competitive_landscape (get_market_conditions e) l r
  = (Some (map (scale_share (total_share l1)) l1), snd (perturb_shares (gdp_growth e) l r)).
Proof.
  unfold _update_competitive_landscape. rewrite mc_gdp_growth. unfold bind, ret.
  pose proof (perturb_shares_clamped (gdp_growth e) l r) as [Hc Hk].
  destruct (perturb_shares (gdp_growth e) l r) as [l1 r1]. simpl in *.
  rewrite normalize_shares_some; [reflexivity|].
  destruct l1 as [|x l1]; [left; reflexivity | right].
  apply total_share_pos; [discriminate | exact Hc].
Qed.

(** C1. On a landscape with at least one competitor (the constructor's has
    five, and no method adds or removes one), the update first brings every
    share into [0.01, 0.8], then divides by their total: the update returns,
    the shares it leaves sum to 1, and each lies in [0, 1]. *)
Theorem landscape_update_normalized (e : EconomicCycleSimulator)
    (l : list (string * Competitor)) (r : Rng) :
  l <> [] ->
  let l1 := fst (perturb_shares (gdp_growth e) l r) in
  Forall (fun kd => within 0.01 (share (snd kd)) 0.8) l1
  /\ exists l2,
       fst (_update_competitive_landscape (get_market_conditions e) l r) = Some l2
       /\ normalize_shares l1 = Some l2
       /\ total_share l2 == 1
       /\ Forall (fun kd => within 0 (share (snd kd)) 1) l2
       /\ map fst l2 = map fst l.
Proof.
  intros Hne l1.
  pose proof (perturb_shares_clamped (gdp_growth e) l r) as [Hc Hk].
  fold l1 in Hc, Hk.
  assert (Hne1 : l1 <> []).
  { intros E. rewrite E in Hk. destruct l; [congruence | discriminate]. }
  pose proof (total_share_pos l1 Hne1 Hc) as Hpos.
  split; [exact Hc|].
  exists (map (scale_share (total_share l1)) l1).
  split; [rewrite update_landscape_some; reflexivity|].
  split; [apply normalize_shares_some; right; exact Hpos|].
  split; [rewrite total_share_scaled by lra; field; lra|].
  split.
  - apply Forall_fmap.
    assert (Hnn : Forall (fun kd => 0 <= share (snd kd)) l1).
    { eapply Forall_impl; [exact Hc|]. intros kd [? _]; simpl in *; lra. }
    pose proof (share_le_total l1 Hnn) as Hle.
    rewrite Forall_forall in Hnn, Hle |- *. intros kd Hin.
    specialize (Hnn kd Hin). specialize (Hle kd Hin).
    unfold within, scale_share. simpl in *. split.
    + apply Qle_shift_div_l; [exact Hpos | lra].
    + apply Qle_shift_div_r; [exact Hpos | lra].
  - rewrite <- Hk. rewrite <- list_fmap_compose. reflexivity.
Qed.

Lemma landscape_update_normalized_witness :
  landscape_init <> []
  /\ let l1 := fst (perturb_shares (gdp_growth cycle_init) landscape_init (rng_const 0)) in
     Forall (fun kd => within 0.01 (share (snd kd)) 0.8) l1
     /\ exists l2,
          fst (_update_competitive_landscape (get_market_conditions cycle_init)
                 landscape_init (rng_const 0)) = Some l2
          /\ normalize_shares l1 = Some l2
          /\ total_share l2 == 1
          /\ Forall (fun kd => within 0 (share (snd kd)) 1) l2
          /\ map fst l2 = map fst landscape_init.
Proof.
  split.
  - discriminate.
  - apply (landscape_update_normalized cycle_init landscape_init (rng_const 0)).
    discriminate.
Defined.

(** *** Churn probability *)

Lemma update_churn_inv (c c' : VirtualCustomer) (mc : gmap string pyval) :
  update_churn_probability c mc = Some c' ->
  exists cp eg pi,
    get_num mc "competitive_pressure" 0 = Some cp
    /\ get_num mc "economic_growth" 0 = Some eg
    /\ get_num mc "price_increase" 0 = Some pi
    /\ c' = set_churn_probability c (pymin 0.8 (churn_score c cp eg pi)).
Proof.
  unfold update_churn_probability. intros H.
  destruct (get_num mc "competitive_pressure" 0) as [cp|]; [|discriminate].
  destruct (get_num mc "economic_growth" 0) as [eg|]; [|discriminate].
  destruct (get_num mc "price_increase" 0) as [pi|]; [|discriminate].
  simpl in H. injection H as <-. exists cp, eg, pi. auto.
Qed.

Lemma churn_score_nonneg (c : VirtualCustomer) (cp eg pi : Q) :
  satisfaction c <= 1 -> loyalty c <= 1 ->
  0 <= price_sensitivity c \/ pi <= 0 ->
  0 <= churn_score c cp eg pi.
Proof.
  intros Hs Hl Hp. unfold churn_score.
  assert (Hprice : 0 <= (if Qltb 0 pi then price_sensitivity c * pi * 0.2 else 0)).
  { destruct (Qltb 0 pi) eqn:E; [|lra].
    apply Qltb_true in E. destruct Hp as [Hp | Hp]; [nra | lra]. }
  destruct (Qltb 0.7 cp), (Qltb eg 0.3); nra.
Qed.

Lemma pymin_lower (a x : Q) : 0 <= a -> 0 <= x -> 0 <= pymin a x.
Proof.
  intros Ha Hx. destruct (pymin_spec a x) as (_ & _ & [H | H]); lra.
Qed.

Lemma mc_churn_keys (e : EconomicCycleSimulator) :
  get_num (get_market_conditions e) "competitive_pressure" 0 = Some 0
  /\ get_num (get_market_conditions e) "economic_growth" 0 = Some 0
  /\ get_num (get_market_conditions e) "price_increase" 0 = Some 0.
Proof. repeat split. Qed.

Lemma events_some (e : EconomicCycleSimulator) (r : Rng) :
  exists events r', _generate_market_events (get_market_conditions e) r = (Some events, r').
Proof.
  unfold _generate_market_events. rewrite mc_gdp_growth, mc_tech. unfold bind.
  repeat match goal with |- context [gated_event ?p ?a ?b ?c ?lo ?hi ?r] =>
    destruct (gated_event p a b c lo hi r)
  end.
  eauto.
Qed.

Lemma segment_eqb_refl (g : CustomerSegment) : segment_eqb g g = true.
Proof. destruct g; reflexivity. Qed.

Lemma Qeq_bool_refl (x : Q) : Qeq_bool x x = true.
Proof. apply Qeq_bool_iff. reflexivity. Qed.

Lemma prefs_eqb_refl (m : gmap string Q) : prefs_eqb m m = true.
Proof.
  unfold prefs_eqb. apply bool_decide_eq_true_2. intros i.
  destruct (m !! i); cbn; [apply Qeq_bool_refl | exact I].
Qed.

Lemma customer_eqb_refl (c : VirtualCustomer) : customer_eqb c c = true.
Proof.
  unfold customer_eqb.
  rewrite !String.eqb_refl, !Z.eqb_refl, !Qeq_bool_refl, segment_eqb_refl, prefs_eqb_refl.
  reflexivity.
Qed.

Lemma list_remove_spec (c : VirtualCustomer) (ch l : list VirtualCustomer) :
  sublist (c :: ch) l ->
  exists l', list_remove c l = Some l'
             /\ sublist ch l' /\ sublist l' l /\ length l = S (length l').
Proof.
  induction l as [|y l IH]; intros Hsub.
  - inversion Hsub.
  - cbn [list_remove]. destruct (customer_eqb y c) eqn:E.
    + exists l. split; [reflexivity|]. split; [|split; [apply sublist_cons; reflexivity | reflexivity]].
      inversion Hsub; subst; [assumption|].
      etransitivity; [|eassumption]. apply sublist_cons. reflexivity.
    + inversion Hsub as [| ? ? ? Hs | ? ? ? Hs]; subst.
      * rewrite customer_eqb_refl in E. discriminate.
      * destruct (IH Hs) as (l' & Hl' & H1 & H2 & H3). rewrite Hl'.
        exists (y :: l'). split; [reflexivity|].
        split; [apply sublist_cons; exact H1|].
        split; [apply sublist_skip; exact H2 | cbn [length]; rewrite H3; reflexivity].
Qed.

Lemma remove_churned_spec (ch l : list VirtualCustomer) :
  sublist ch l ->
  exists l', remove_churned ch l = Some l'
             /\ sublist l' l /\ (length l' + length ch = length l)%nat.
Proof.
  revert l. induction ch as [|c ch IH]; intros l Hsub.
  - exists l. split; [reflexivity|]. split; [reflexivity | cbn [length]; lia].
  - cbn [remove_churned].
    destruct (list_remove_spec c ch l Hsub) as (l1 & Hl1 & H1 & H2 & H3).
    rewrite Hl1. cbn.
    destruct (IH l1 H1) as (l' & Hl' & H4 & H5).
    exists l'. split; [exact Hl'|].
    split; [etransitivity; eassumption | cbn [length]; lia].
Qed.

(** On the conditions the cycle reports, which have no entry
    competitive_pressure, economic_growth or price_increase, the
    recomputation returns and adds no price term. *)
Lemma update_churn_on_conditions (e : EconomicCycleSimulator) (c : VirtualCustomer) :
  update_churn_probability c (get_market_conditions e)
  = Some (set_churn_probability c (pymin 0.8 (churn_score c 0 0 0))).
Proof.
  unfold update_churn_probability.
  destruct (mc_churn_keys e) as (-> & -> & ->). reflexivity.
Qed.

Lemma churn_on_conditions_range (c : VirtualCustomer) :
  satisfaction c <= 1 -> loyalty c <= 1 ->
  within 0 (churn_probability (set_churn_probability c (pymin 0.8 (churn_score c 0 0 0)))) 0.8.
Proof.
  intros Hs Hl. cbn [churn_probability set_churn_probability]. split.
  - apply pymin_lower; [lra|]. apply churn_score_nonneg; auto. right; lra.
  - apply pymin_spec.
Qed.

Lemma Forall2_Forall_r {A B : Type} (R : A -> B -> Prop) (P : A -> Prop) (P' : B -> Prop)
    (l : list A) (k : list B) :
  (forall x y, R x y -> P x -> P' y) -> Forall2 R l k -> Forall P l -> Forall P' k.
Proof.
  intros HR H. induction H as [|x y l k Hxy _ IH]; intros HP; [constructor|].
  apply Forall_cons in HP as [Hx HP]. constructor; [eapply HR; eassumption | exact (IH HP)].
Qed.

(** What the loop of the market tick makes of the population when it
    returns: it pairs every customer with its updated self; the churned
    customers are a subsequence of the updated population, and every
    expansion opportunity belongs to an updated customer that did not churn
    in the loop, with the potential the loop asks for. *)
Lemma update_customers_shape (e : EconomicCycleSimulator) (cs : list VirtualCustomer) (r : Rng)
    (updated churned : list VirtualCustomer) (expansions : list ExpansionEntry) :
  fst (update_customers (get_market_conditions e) cs r) = Some (updated, churned, expansions) ->
  Forall2 (fun c c' => c' = set_churn_probability c (pymin 0.8 (churn_score c 0 0 0)))
    cs updated
  /\ sublist churned updated
  /\ (length churned + length expansions <= length cs)%nat
  /\ Forall (fun en =>
               customer en ∈ updated
               /\ calculate_expansion_opportunity (customer en) = Some (opportunity en)
               /\ 0.5 < potential (opportunity en)) expansions.
Proof.
  revert r updated churned expansions.
  induction cs as [|c cs IH]; intros r updated churned expansions; cbn [update_customers].
  - cbn [ret fst]. intros H. injection H as <- <- <-.
    split; [constructor|]. split; [constructor|]. split; [cbn [length]; lia | constructor].
  - rewrite update_churn_on_conditions. unfold bind, bindE, random, ret. cbn [fst snd].
    set (c' := set_churn_probability c (pymin 0.8 (churn_score c 0 0 0))).
    assert (HF' : forall u ex,
               Forall (fun en => customer en ∈ u
                 /\ calculate_expansion_opportunity (customer en) = Some (opportunity en)
                 /\ 0.5 < potential (opportunity en)) ex ->
               Forall (fun en => customer en ∈ c' :: u
                 /\ calculate_expansion_opportunity (customer en) = Some (opportunity en)
                 /\ 0.5 < potential (opportunity en)) ex).
    { intros u ex H. eapply Forall_impl; [exact H|]. intros en (H1 & H2 & H3).
      split; [right; exact H1 | split; assumption]. }
    destruct (Qltb _ (churn_probability c')).
    + match goal with |- context [update_customers _ cs ?r1] =>
        specialize (IH r1);
        destruct (update_customers (get_market_conditions e) cs r1) as [[[[u ch] ex]|] r2]
      end; cbn [fst]; [|discriminate].
      destruct (IH u ch ex eq_refl) as (H2 & Hsub & Hcount & HF).
      intros H. injection H as <- <- <-. cbn [length].
      split; [constructor; [reflexivity | exact H2]|].
      split; [apply sublist_skip; exact Hsub|]. split; [lia|]. apply HF'. exact HF.
    + destruct (calculate_expansion_opportunity c') as [expansion|] eqn:Ex;
        cbn [fst snd]; [|discriminate].
      match goal with |- context [update_customers _ cs ?r1] =>
        specialize (IH r1);
        destruct (update_customers (get_market_conditions e) cs r1) as [[[[u ch] ex]|] r2]
      end; cbn [fst]; [|discriminate].
      destruct (IH u ch ex eq_refl) as (H2 & Hsub & Hcount & HF).
      destruct (Qltb 0.5 (potential expansion)) eqn:Epot; cbn [fst];
        intros H; injection H as <- <- <-; cbn [length].
      * split; [constructor; [reflexivity | exact H2]|].
        split; [apply sublist_cons; exact Hsub|]. split; [lia|].
        constructor; [|apply HF'; exact HF].
        cbn [customer opportunity]. split; [left|split; [exact Ex|]].
        apply Qltb_true in Epot. exact Epot.
      * split; [constructor; [reflexivity | exact H2]|].
        split; [apply sublist_cons; exact Hsub|]. split; [lia|]. apply HF'. exact HF.
Qed.

Lemma expansion_some (c : VirtualCustomer) :
  size_in_float_range c -> is_Some (calculate_expansion_opportunity c).
Proof.
  intros H. unfold calculate_expansion_opportunity, float_of_int.
  destruct (Qltb (satisfaction c) 0.6 || Qltb (loyalty c) 0.4); [eauto|].
  apply Z.ltb_lt in H. rewrite H. cbn [mbind option_bind]. eauto.
Qed.

(** The loop returns when every size converts to a float. *)
Lemma update_customers_returns (e : EconomicCycleSimulator) (cs : list VirtualCustomer)
    (r : Rng) :
  Forall size_in_float_range cs ->
  is_Some (fst (update_customers (get_market_conditions e) cs r)).
Proof.
  revert r. induction cs as [|c cs IH]; intros r HF; cbn [update_customers].
  - cbn [ret fst]. eauto.
  - apply Forall_cons in HF as [Hc HF].
    rewrite update_churn_on_conditions. unfold bind, bindE, random, ret. cbn [fst snd].
    set (c' := set_churn_probability c (pymin 0.8 (churn_score c 0 0 0))).
    destruct (Qltb _ (churn_probability c')).
    + match goal with |- context [update_customers _ cs ?r1] =>
        destruct (IH r1 HF) as [[[u ch] ex] Hu];
        destruct (update_customers (get_market_conditions e) cs r1) as [o r2]
      end. cbn [fst] in Hu. subst o. cbn [fst]. eauto.
    + destruct (expansion_some c' Hc) as [expansion ->]. cbn [fst snd].
      match goal with |- context [update_customers _ cs ?r1] =>
        destruct (IH r1 HF) as [[[u ch] ex] Hu];
        destruct (update_customers (get_market_conditions e) cs r1) as [o r2]
      end. cbn [fst] in Hu. subst o.
      destruct (Qltb 0.5 (potential expansion)); cbn [fst]; eauto.
Qed.

(** What a tick that returns has done to the population. *)
Lemma simulate_population (s s' : AdvancedMarketSimulator) (r r' : Rng) (result : MarketResult) :
  simulate_market_dynamics s r = (Some (result, s'), r') ->
  exists updated churned,
    Forall2 (fun c c' => c' = set_churn_probability c (pymin 0.8 (churn_score c 0 0 0)))
      (virtual_customers s) updated
    /\ sublist churned updated
    /\ sublist (virtual_customers s') updated
    /\ (length (virtual_customers s') + length churned = length updated)%nat
    /\ churned_customers (customer_metrics result) = len churned
    /\ (length churned + length (expansion_opportunities result)
        <= length (virtual_customers s))%nat
    /\ Forall (fun en =>
                 customer en ∈ updated
                 /\ calculate_expansion_opportunity (customer en) = Some (opportunity en)
                 /\ 0.5 < potential (opportunity en)) (expansion_opportunities result).
Proof.
  unfold simulate_market_dynamics, bind, bindE, ret.
  destruct (advance_cycle (economic_cycle s) r) as [e r1].
  pose proof (update_customers_shape e (virtual_customers s) r1) as Hshape.
  destruct (update_customers (get_market_conditions e) (virtual_customers s) r1)
    as [[[[u ch] ex]|] r2]; [|discriminate].
  destruct (Hshape u ch ex eq_refl) as (H2 & Hsub & Hcount & HF).
  destruct (remove_churned_spec ch u Hsub) as (remaining & Hrem & Hsub' & Hlen).
  rewrite Hrem.
  destruct (_generate_market_events (get_market_conditions e) r2) as [[events|] r3];
    [|discriminate].
  destruct (_update_competitive_landscape (get_market_conditions e)
              (competitive_landscape s) r3) as [[landscape|] r4]; [|discriminate].
  intros H. injection H as <- <- _.
  cbn [virtual_customers customer_metrics churned_customers expansion_opportunities].
  exists u, ch. repeat (split; [assumption || reflexivity|]). exact HF.
Qed.

(** C2. In the population update the recomputed churn probability lies in
    [0, 0.8]. The customers of the population have satisfaction and loyalty
    at most 1 (the constructor draws them from [0.4, 0.8] and [0.2, 0.7],
    and the only other writers, [react_to_product_changes] and
    [simulate_campaign_impact], clamp at 1), and the conditions the tick
    passes carry no price increase. For such a population the
    recomputation returns for every customer with a churn probability in
    [0, 0.8]; a tick that returns leaves only customers with a churn
    probability in [0, 0.8], and satisfaction and loyalty as they were; and
    the tick returns when the sizes convert to floats. The upper bound
    holds for every customer and every conditions the method returns on;
    the lower bound, when a price increase is flagged, for a price
    sensitivity that is not negative. *)
Theorem churn_probability_range (s : AdvancedMarketSimulator) (r : Rng) :
  Forall (fun c => satisfaction c <= 1 /\ loyalty c <= 1) (virtual_customers s) ->
  let mc := get_market_conditions (fst (advance_cycle (economic_cycle s) r)) in
  Forall (fun c => exists c', update_churn_probability c mc = Some c'
                              /\ within 0 (churn_probability c') 0.8)
    (virtual_customers s)
  /\ (forall result s' r',
        simulate_market_dynamics s r = (Some (result, s'), r') ->
        Forall (fun c' => within 0 (churn_probability c') 0.8
                          /\ satisfaction c' <= 1 /\ loyalty c' <= 1)
          (virtual_customers s')
        /\ Forall (fun en => within 0 (churn_probability (customer en)) 0.8)
             (expansion_opportunities result))
  /\ (Forall size_in_float_range (virtual_customers s) ->
      exists result s' r', simulate_market_dynamics s r = (Some (result, s'), r'))
  /\ (forall c mc' c',
        update_churn_probability c mc' = Some c' ->
        churn_probability c' <= 0.8
        /\ (satisfaction c <= 1 -> loyalty c <= 1 -> 0 <= price_sensitivity c ->
            0 <= churn_probability c')).
Proof.
  intros Hpop. cbv zeta. split; [|split; [|split]].
  - eapply Forall_impl; [exact Hpop|]. intros c [Hs Hl].
    eexists. split; [apply update_churn_on_conditions|].
    apply churn_on_conditions_range; assumption.
  - intros result s' r' H.
    destruct (simulate_population s s' r r' result H)
      as (u & ch & H2 & _ & Hsub & _ & _ & _ & HF).
    assert (Hu : Forall (fun c' => within 0 (churn_probability c') 0.8
                                   /\ satisfaction c' <= 1 /\ loyalty c' <= 1) u).
    { eapply Forall2_Forall_r; [|exact H2 | exact Hpop].
      intros c c' -> [Hs Hl]. split; [apply churn_on_conditions_range; assumption|].
      cbn [satisfaction loyalty set_churn_probability]. split; assumption. }
    split.
    + apply Forall_forall. intros c' Hin.
      eapply Forall_forall in Hu; [exact Hu|]. eapply elem_of_sublist; eassumption.
    + eapply Forall_impl; [exact HF|]. intros en (Hin & _ & _).
      eapply Forall_forall in Hu; [apply Hu | exact Hin].
  - intros Hsizes. unfold simulate_market_dynamics, bind, bindE, ret.
    destruct (advance_cycle (economic_cycle s) r) as [e r1].
    destruct (update_customers_returns e (virtual_customers s) r1 Hsizes) as [[[u ch] ex] Hu].
    pose proof (update_customers_shape e (virtual_customers s) r1 u ch ex Hu)
      as (_ & Hsub & _).
    destruct (update_customers (get_market_conditions e) (virtual_customers s) r1)
      as [o r2]. cbn [fst] in Hu. subst o.
    destruct (remove_churned_spec ch u Hsub) as (remaining & -> & _).
    destruct (events_some e r2) as (events & r3 & ->).
    rewrite update_landscape_some. eauto.
  - intros c mc' c' H.
    destruct (update_churn_inv c c' mc' H) as (cp & eg & pi & _ & _ & _ & ->).
    cbn [churn_probability set_churn_probability]. split.
    + apply pymin_spec.
    + intros Hs Hl Hp. apply pymin_lower; [lra|].
      apply churn_score_nonneg; auto.
Qed.

Lemma churn_probability_range_witness :
  Forall (fun c => satisfaction c <= 1 /\ loyalty c <= 1)
    (virtual_customers (simulator_init [sample_customer 0.5 0.4 0.5]))
  /\ exists result s' r',
       simulate_market_dynamics (simulator_init [sample_customer 0.5 0.4 0.5]) (rng_const 0.9)
       = (Some (result, s'), r')
       /\ Forall (fun c' => within 0 (churn_probability c') 0.8
                            /\ satisfaction c' <= 1 /\ loyalty c' <= 1)
            (virtual_customers s').
Proof.
  assert (Hpop : Forall (fun c => satisfaction c <= 1 /\ loyalty c <= 1)
                   (virtual_customers (simulator_init [sample_customer 0.5 0.4 0.5]))).
  { constructor; [|constructor]. cbn [satisfaction loyalty sample_customer]. split; lra. }
  split; [exact Hpop|].
  destruct (churn_probability_range (simulator_init [sample_customer 0.5 0.4 0.5])
              (rng_const 0.9) Hpop) as (_ & Hrun & Hret & _).
  destruct Hret as (result & s' & r' & H).
  { constructor; [|constructor]. unfold size_in_float_range.
    cbn [size sample_customer]. apply Z.ltb_lt. vm_compute. reflexivity. }
  exists result, s', r'. split; [exact H|]. apply (Hrun result s' r' H).
Defined.

(** *** Aggregate statistics of an empty population *)

(** C3, at the failing input. With no customer left, the market tick
    returns, and the averages it reports are numpy's [nan]: [np.mean] is
    applied to the empty list without a guard. The churn rate, whose divisor
    the code guards with [max(1, _)], is 0. *)
Theorem empty_population_statistics (s : AdvancedMarketSimulator) (r : Rng) :
  virtual_customers s = [] ->
  exists result s' r',
    simulate_market_dynamics s r = (Some (result, s'), r')
    /\ avg_satisfaction (customer_metrics result) = NpNaN
    /\ avg_loyalty (customer_metrics result) = NpNaN
    /\ churn_rate (customer_metrics result) == 0
    /\ total_customers (customer_metrics result) = 0%Z.
Proof.
  intros Hcs. unfold simulate_market_dynamics, bind, bindE.
  destruct (advance_cycle (economic_cycle s) r) as [e r1].
  rewrite Hcs. simpl.
  destruct (events_some e r1) as (events & r2 & ->).
  rewrite update_landscape_some. simpl.
  do 3 eexists. split; [reflexivity|]. simpl.
  repeat split; reflexivity.
Qed.

Lemma empty_population_statistics_witness :
  virtual_customers (simulator_init []) = []
  /\ exists result s' r',
       simulate_market_dynamics (simulator_init []) (rng_const 0) = (Some (result, s'), r')
       /\ avg_satisfaction (customer_metrics result) = NpNaN
       /\ avg_loyalty (customer_metrics result) = NpNaN
       /\ churn_rate (customer_metrics result) == 0
       /\ total_customers (customer_metrics result) = 0%Z.
Proof.
  split.
  - reflexivity.
  - apply (empty_population_statistics (simulator_init []) (rng_const 0)). reflexivity.
Defined.

(** The averages the tick reports are [np.mean] over the population it
    leaves, so they are [nan] as soon as that population is empty, also when
    it was emptied by this very tick. *)
Lemma simulate_result_averages (s s' : AdvancedMarketSimulator) (r r' : Rng)
    (result : MarketResult) :
  simulate_market_dynamics s r = (Some (result, s'), r') ->
  avg_satisfaction (customer_metrics result) = np_mean (map satisfaction (virtual_customers s'))
  /\ avg_loyalty (customer_metrics result) = np_mean (map loyalty (virtual_customers s'))
  /\ (virtual_customers s' = [] ->
      avg_satisfaction (customer_metrics result) = NpNaN
      /\ avg_loyalty (customer_metrics result) = NpNaN).
Proof.
  unfold simulate_market_dynamics, bind, bindE, ret.
  destruct (advance_cycle (economic_cycle s) r) as [e r1].
  destruct (update_customers (get_market_conditions e) (virtual_customers s) r1)
    as [[[[updated churned] expansions]|] r2]; [|discriminate].
  destruct (remove_churned churned updated) as [remaining|]; [|discriminate].
  destruct (_generate_market_events (get_market_conditions e) r2) as [[events|] r3];
    [|discriminate].
  destruct (_update_competitive_landscape (get_market_conditions e)
              (competitive_landscape s) r3) as [[landscape|] r4]; [|discriminate].
  intros H. injection H as <- <- _. cbn [customer_metrics avg_satisfaction avg_loyalty
                                          virtual_customers].
  split; [reflexivity|]. split; [reflexivity|].
  intros ->. split; reflexivity.
Qed.

(** A population of one dissatisfied customer, lost in the tick: the tick
    reports one churned customer, a churn rate of 1, and [nan] averages. *)
Lemma mass_churn_statistics :
  match fst (simulate_market_dynamics (simulator_init [sample_customer 0 0 0.5]) (rng_const 0)) with
  | Some (result, s') =>
      virtual_customers s' = []
      /\ churned_customers (customer_metrics result) = 1%Z
      /\ churn_rate (customer_metrics result) == 1
      /\ avg_satisfaction (customer_metrics result) = NpNaN
      /\ avg_loyalty (customer_metrics result) = NpNaN
  | None => False
  end.
Proof. vm_compute. repeat split. Qed.

(** *** The transition table *)

Lemma update_indicators_duration (e : EconomicCycleSimulator) (r : Rng) :
  phase_duration (fst (_update_economic_indicators e r)) = phase_duration e.
Proof.
  unfold _update_economic_indicators.
  destruct (current_phase e); reflexivity.
Qed.

Lemma phase_transition_result (e : EconomicCycleSimulator) (r : Rng) :
  fst (phase_transition e r)
  = if match min_duration (current_phase e) with
       | Some d => (d <? phase_duration e)%Z
                   && Qltb (draws r (cursor r)) (transition_probability (current_phase e))
       | None => false
       end
    then set_phase e (successor (current_phase e)) 0
    else e.
Proof.
  unfold phase_transition, maybe_transition, bind, random, ret.
  destruct (current_phase e); cbn [phase_eqb min_duration transition_probability successor andb];
    try reflexivity;
    match goal with |- context [(?d <? phase_duration e)%Z] =>
      destruct (d <? phase_duration e)%Z
    end; cbn [andb fst]; try reflexivity;
    match goal with |- context [Qltb ?u ?p] => destruct (Qltb u p) end; reflexivity.
Qed.

Lemma advance_cycle_cases (e : EconomicCycleSimulator) (r : Rng) :
  let e' := fst (advance_cycle e r) in
  if transition_due e r
  then current_phase e <> STAGNATION
       /\ current_phase e' = successor (current_phase e)
       /\ phase_duration e' = 0%Z
  else current_phase e' = current_phase e
       /\ phase_duration e' = (phase_duration e + 1)%Z.
Proof.
  cbv zeta. unfold advance_cycle, bind.
  pose proof (phase_transition_result
                (set_phase e (current_phase e) (phase_duration e + 1)%Z) r) as H.
  destruct (phase_transition _ r) as [e2 r2]. cbn [fst] in H. subst e2.
  rewrite update_indicators_phase, update_indicators_duration.
  unfold transition_due. cbn [current_phase phase_duration set_phase].
  destruct (min_duration (current_phase e)) as [d|] eqn:Hd.
  - destruct ((d <? phase_duration e + 1)%Z && Qltb _ _).
    + cbn [current_phase phase_duration set_phase]. split; [|split; reflexivity].
      intros E. rewrite E in Hd. discriminate.
    + split; reflexivity.
  - split; reflexivity.
Qed.

(** X1. One call of [advance_cycle] either moves the phase to its successor
    in the cycle Growth, Boom, Recession, Recovery, Growth and resets the
    duration to 0, or keeps the phase and adds one to the duration. It moves
    exactly when the phase is not Stagnation, the duration once incremented
    exceeds the minimum of the phase (24, 12, 18, 15) and the first draw is
    below the probability of the phase (0.3, 0.4, 0.5, 0.6). *)
Theorem advance_cycle_step (e : EconomicCycleSimulator) (r : Rng) :
  let e' := fst (advance_cycle e r) in
  if transition_due e r
  then current_phase e <> STAGNATION
       /\ current_phase e' = successor (current_phase e)
       /\ phase_duration e' = 0%Z
  else current_phase e' = current_phase e
       /\ phase_duration e' = (phase_duration e + 1)%Z.
Proof.
  exact (advance_cycle_cases e r).
Qed.

Lemma advance_n_growth (n : nat) (e : EconomicCycleSimulator) (r : Rng) :
  current_phase e = GROWTH ->
  (phase_duration e + Z.of_nat n <= 24)%Z ->
  current_phase (fst (advance_n n e r)) = GROWTH
  /\ phase_duration (fst (advance_n n e r)) = (phase_duration e + Z.of_nat n)%Z.
Proof.
  revert e r. induction n as [|n IH]; intros e r Hp Hd.
  - cbn [advance_n ret fst]. split; [exact Hp | lia].
  - cbn [advance_n]. unfold bind.
    pose proof (advance_cycle_cases e r) as Hs. cbv zeta in Hs.
    assert (Hnot : transition_due e r = false).
    { unfold transition_due. rewrite Hp. cbn [min_duration].
      replace (24 <? phase_duration e + 1)%Z with false; [reflexivity|].
      symmetry. apply Z.ltb_ge. lia. }
    rewrite Hnot in Hs. destruct Hs as [Hp' Hd'].
    destruct (advance_cycle e r) as [e' r']. cbn [fst] in *.
    destruct (IH e' r') as [H1 H2]; [congruence | lia |].
    split; [exact H1 | lia].
Qed.

(** X2. A freshly built cycle stays in Growth, its duration counting the
    calls, for its first 24 advances whatever the draws: the first phase
    change cannot come before the 25th call. *)
Theorem first_transition_not_before_25 (n : nat) (r : Rng) :
  (n <= 24)%nat ->
  current_phase (fst (advance_n n cycle_init r)) = GROWTH
  /\ phase_duration (fst (advance_n n cycle_init r)) = Z.of_nat n.
Proof.
  intros Hn. destruct (advance_n_growth n cycle_init r) as [H1 H2];
    [reflexivity | cbn [phase_duration cycle_init]; lia |].
  split; [exact H1|]. rewrite H2. cbn [phase_duration cycle_init]. lia.
Qed.

Lemma first_transition_not_before_25_witness :
  (1 <= 24)%nat
  /\ current_phase (fst (advance_n 1 cycle_init (rng_const 0))) = GROWTH
  /\ phase_duration (fst (advance_n 1 cycle_init (rng_const 0))) = Z.of_nat 1.
Proof.
  split; [lia|]. apply (first_transition_not_before_25 1 (rng_const 0)). lia.
Defined.

(** *** Product changes and expansion *)

Lemma clamp01 (x : Q) : within 0 (pymax 0 (pymin 1 x)) 1.
Proof.
  pose proof (pymin_spec 1 x) as (Hm & _ & _).
  pose proof (pymax_spec 0 (pymin 1 x)) as (HM & _ & [H | H]); split; lra.
Qed.

Lemma set_satisfaction_same (c : VirtualCustomer) : set_satisfaction c (satisfaction c) = c.
Proof. destruct c; reflexivity. Qed.

Lemma react_loop_spec (changes : list (string * Q)) (c : VirtualCustomer) (acc : gmap string Q) :
  let out := react_loop c acc changes in
  let step sat (fi : string * Q) :=
    match feature_preferences c !! fst fi with
    | Some w => pymax 0 (pymin 1 (sat + snd fi * w * 0.1))
    | None => sat
    end in
  snd out = set_satisfaction c (satisfaction (snd out))
  /\ satisfaction (snd out) = fold_left step changes (satisfaction c)
  /\ (snd out = c \/ within 0 (satisfaction (snd out)) 1)
  /\ (Exists (fun fi => is_Some (feature_preferences c !! fst fi)) changes ->
      within 0 (satisfaction (snd out)) 1)
  /\ (Forall (fun fi => feature_preferences c !! fst fi = None) changes ->
      out = (acc, c))
  /\ (NoDup (map fst changes) ->
      forall f,
        fst out !! f
        = match (w ← feature_preferences c !! f;
                 impact ← (list_to_map changes : gmap string Q) !! f;
                 Some (impact * w)) with
          | Some reaction => Some reaction
          | None => acc !! f
          end).
Proof.
  revert c acc. induction changes as [|[feature impact] rest IH]; intros c acc; cbv zeta.
  - cbn [react_loop fst snd fold_left]. split; [symmetry; apply set_satisfaction_same|].
    split; [reflexivity|]. split; [left; reflexivity|].
    split; [intros H; inversion H|]. split; [reflexivity|].
    intros _ f. cbn [list_to_map foldr]. rewrite lookup_empty.
    destruct (feature_preferences c !! f); reflexivity.
  - cbn [react_loop fold_left fst snd].
    destruct (feature_preferences c !! feature) as [w|] eqn:Hw.
    + match goal with |- context [react_loop ?c1 ?a1 rest] =>
        specialize (IH c1 a1); cbv zeta in IH;
        destruct (react_loop c1 a1 rest) as [reactions c']
      end.
      cbn [fst snd feature_preferences set_satisfaction satisfaction] in *.
      destruct IH as (Hset & Hfold & Hdis & Hin & Hnone & Hmap).
      assert (Hw1 : within 0 (satisfaction c') 1).
      { destruct Hdis as [-> | H]; [cbn [satisfaction]; apply clamp01 | exact H]. }
      split; [rewrite Hset at 1; reflexivity|]. split; [exact Hfold|].
      split; [right; exact Hw1|]. split; [intros _; exact Hw1|]. split.
      * intros HF. apply Forall_cons in HF as [Hn _]. cbn [fst] in Hn. congruence.
      * intros Hnd f. cbn [map fst] in Hnd. apply NoDup_cons in Hnd as [Hfresh Hnd].
        rewrite (Hmap Hnd f). cbn [list_to_map foldr]. fold (list_to_map (M := gmap string Q) rest).
        destruct (decide (feature = f)) as [<-|Hne].
        -- rewrite Hw. cbn [mbind option_bind].
           rewrite (not_elem_of_list_to_map_1 (M := gmap string) rest feature Hfresh).
           cbn [mbind option_bind]. rewrite !lookup_insert_eq. reflexivity.
        -- rewrite !lookup_insert_ne by exact Hne. reflexivity.
    + specialize (IH c acc). cbv zeta in IH.
      destruct IH as (Hset & Hfold & Hdis & Hin & Hnone & Hmap).
      split; [exact Hset|]. split; [exact Hfold|]. split; [exact Hdis|]. split; [|split].
      * intros Hex. apply Exists_cons in Hex as [[? Hh] | Hex]; [|apply Hin; exact Hex].
        cbn [fst] in Hh. congruence.
      * intros HF. apply Forall_cons in HF as [_ HF]. apply Hnone. exact HF.
      * intros Hnd f. cbn [map fst] in Hnd. apply NoDup_cons in Hnd as [Hfresh Hnd].
        rewrite (Hmap Hnd f). cbn [list_to_map foldr]. fold (list_to_map (M := gmap string Q) rest).
        destruct (decide (feature = f)) as [<-|Hne].
        -- rewrite Hw. cbn [mbind option_bind]. reflexivity.
        -- rewrite lookup_insert_ne by exact Hne. reflexivity.
Qed.

(** X3. [react_to_product_changes], on the items of a dict of changes
    (distinct features): the reaction it reports for a feature is the
    impact times the customer's preference weight, for exactly the changed
    features the customer has a preference for. The satisfaction is the
    running value that every matched change, in order, moves by a tenth of
    its reaction and clamps to [0, 1]; so it lies in [0, 1] as soon as one
    change matched, and nothing but the satisfaction changes. When no
    change names a preferred feature the customer is unchanged and no
    reaction is reported. *)
Theorem react_to_product_changes_spec (c : VirtualCustomer) (changes : list (string * Q)) :
  NoDup (map fst changes) ->
  let out := react_to_product_changes c changes in
  let step sat (fi : string * Q) :=
    match feature_preferences c !! fst fi with
    | Some w => pymax 0 (pymin 1 (sat + snd fi * w * 0.1))
    | None => sat
    end in
  (forall f,
      fst out !! f
      = (w ← feature_preferences c !! f;
         impact ← (list_to_map changes : gmap string Q) !! f;
         Some (impact * w)))
  /\ satisfaction (snd out) = fold_left step changes (satisfaction c)
  /\ snd out = set_satisfaction c (satisfaction (snd out))
  /\ (Exists (fun fi => is_Some (feature_preferences c !! fst fi)) changes ->
      within 0 (satisfaction (snd out)) 1)
  /\ (Forall (fun fi => feature_preferences c !! fst fi = None) changes ->
      out = (∅, c)).
Proof.
  intros Hnd. cbv zeta. unfold react_to_product_changes.
  destruct (react_loop_spec changes c ∅) as (Hset & Hfold & _ & Hin & Hnone & Hmap).
  split; [|split; [exact Hfold | split; [exact Hset | split; [exact Hin | exact Hnone]]]].
  intros f. rewrite (Hmap Hnd f), lookup_empty.
  destruct (feature_preferences c !! f) as [w|]; cbn [mbind option_bind]; [|reflexivity].
  destruct (list_to_map changes !! f); reflexivity.
Qed.

Lemma react_to_product_changes_spec_witness :
  let c := set_preferences (sample_customer 0.5 0.5 0.5) {["security"%string := 0.5]} in
  let out := react_to_product_changes c [("security"%string, 2); ("pricing"%string, 1)] in
  NoDup (map fst [("security"%string, (2 : Q)); ("pricing"%string, (1 : Q))])
  /\ fst out !! "security"%string = Some (2 * 0.5)
  /\ fst out !! "pricing"%string = None
  /\ satisfaction (snd out) == 0.6
  /\ within 0 (satisfaction (snd out)) 1.
Proof.
  cbv zeta.
  assert (Hnd : NoDup (map fst [("security"%string, (2 : Q)); ("pricing"%string, (1 : Q))])).
  { cbn [map fst]. apply NoDup_cons. split; [|apply NoDup_singleton].
    intros H. apply list_elem_of_singleton in H. discriminate. }
  split; [exact Hnd|].
  destruct (react_to_product_changes_spec
              (set_preferences (sample_customer 0.5 0.5 0.5) {["security"%string := 0.5]})
              [("security"%string, 2); ("pricing"%string, 1)] Hnd)
    as (Hmap & Hfold & _ & Hin & _).
  split; [rewrite Hmap; reflexivity|]. split; [rewrite Hmap; reflexivity|].
  split; [rewrite Hfold; vm_compute; reflexivity|].
  apply Hin. constructor. cbn [fst feature_preferences set_preferences].
  rewrite lookup_singleton_eq. eauto.
Defined.

Lemma max_by_value_spec (rest : list (string * Q)) (best : string * Q) :
  let m := max_by_value best rest in
  (m = best \/ m ∈ rest)
  /\ snd best <= snd m
  /\ Forall (fun x => snd x <= snd m) rest.
Proof.
  revert best. induction rest as [|x rest IH]; intros best; cbv zeta; cbn [max_by_value].
  - split; [left; reflexivity|]. split; [lra | constructor].
  - destruct (Qltb (snd best) (snd x)) eqn:E.
    + apply Qltb_true in E.
      destruct (IH x) as (Hin & Hle & HF). split; [|split].
      * right. destruct Hin as [-> | Hin]; [left | right; exact Hin].
      * lra.
      * constructor; assumption.
    + apply Qltb_false in E.
      destruct (IH best) as (Hin & Hle & HF). split; [|split].
      * destruct Hin as [-> | Hin]; [left; reflexivity | right; right; exact Hin].
      * exact Hle.
      * constructor; [lra | exact HF].
Qed.

(** X4. [calculate_expansion_opportunity] reports nothing (potential 0, no
    type, value 0) for a customer whose satisfaction is below 0.6 or whose
    loyalty is below 0.4, whatever its size. Otherwise, when the size
    converts to a float, it reports the customer's expansion potential, the
    largest of the three candidate values together with the type it belongs
    to, and a probability of at most 0.8; and when the size does not
    convert, it raises. *)
Theorem calculate_expansion_opportunity_spec (c : VirtualCustomer) :
  let seats := inject_Z (size c) * 0.1 * expansion_potential c in
  let upgrade := budget c * 0.2 * expansion_potential c in
  let products := lifetime_value c * 0.3 * expansion_potential c in
  (satisfaction c < 0.6 \/ loyalty c < 0.4 ->
   calculate_expansion_opportunity c = Some (mkExpansion 0 None 0 None))
  /\ (0.6 <= satisfaction c -> 0.4 <= loyalty c ->
      (size_in_float_range c ->
       exists e,
         calculate_expansion_opportunity c = Some e
         /\ potential e = expansion_potential c
         /\ seats <= exp_value e /\ upgrade <= exp_value e /\ products <= exp_value e
         /\ ((exp_type e, exp_value e) = (Some "seat_expansion"%string, seats)
             \/ (exp_type e, exp_value e) = (Some "feature_upgrade"%string, upgrade)
             \/ (exp_type e, exp_value e) = (Some "additional_products"%string, products))
         /\ exists p, probability e = Some p /\ p <= 0.8)
      /\ (~ size_in_float_range c -> calculate_expansion_opportunity c = None)).
Proof.
  cbv zeta. unfold calculate_expansion_opportunity. split.
  - intros H.
    assert (E : Qltb (satisfaction c) 0.6 || Qltb (loyalty c) 0.4 = true).
    { apply orb_true_iff. destruct H as [H | H]; [left | right]; apply Qltb_true; exact H. }
    rewrite E. reflexivity.
  - intros Hs Hl.
    assert (E : Qltb (satisfaction c) 0.6 || Qltb (loyalty c) 0.4 = false).
    { apply orb_false_iff. split; apply Qltb_false; assumption. }
    rewrite E. unfold float_of_int, size_in_float_range. split.
    + intros Hsize. apply Z.ltb_lt in Hsize. rewrite Hsize. cbn [mbind option_bind].
      match goal with |- context [max_by_value ?b ?l] =>
        destruct (max_by_value_spec l b) as (Hin & Hb & HF);
        generalize dependent (max_by_value b l)
      end.
      intros [ty v] Hin Hb HF. eexists. split; [reflexivity|].
      cbn [potential exp_value exp_type probability fst snd] in *.
      apply Forall_cons in HF as [H1 HF]. apply Forall_cons in HF as [H2 _].
      cbn [snd] in *.
      split; [reflexivity|]. split; [exact Hb|]. split; [exact H1|]. split; [exact H2|].
      split.
      * destruct Hin as [Hin | Hin].
        -- left. injection Hin as -> ->. reflexivity.
        -- apply elem_of_cons in Hin as [Hin | Hin].
           ++ right; left. injection Hin as -> ->. reflexivity.
           ++ apply list_elem_of_singleton in Hin. right; right.
              injection Hin as -> ->. reflexivity.
      * eexists. split; [reflexivity | apply pymin_spec].
    + intros Hsize.
      destruct (Z.abs (size c) <? float_limit)%Z eqn:Elt; [|reflexivity].
      apply Z.ltb_lt in Elt. contradiction.
Qed.

Lemma calculate_expansion_opportunity_spec_witness :
  let c := sample_customer 0.7 0.5 0.5 in
  0.6 <= satisfaction c /\ 0.4 <= loyalty c /\ size_in_float_range c
  /\ exists e,
       calculate_expansion_opportunity c = Some e
       /\ potential e = expansion_potential c
       /\ lifetime_value c * 0.3 * expansion_potential c <= exp_value e
       /\ exists p, probability e = Some p /\ p <= 0.8.
Proof.
  cbv zeta.
  assert (Hs : 0.6 <= satisfaction (sample_customer 0.7 0.5 0.5))
    by (cbn [satisfaction sample_customer]; lra).
  assert (Hl : 0.4 <= loyalty (sample_customer 0.7 0.5 0.5))
    by (cbn [loyalty sample_customer]; lra).
  assert (Hz : size_in_float_range (sample_customer 0.7 0.5 0.5))
    by (apply Z.ltb_lt; vm_compute; reflexivity).
  split; [exact Hs|]. split; [exact Hl|]. split; [exact Hz|].
  destruct (proj1 (proj2 (calculate_expansion_opportunity_spec (sample_customer 0.7 0.5 0.5))
                     Hs Hl) Hz) as (e & He & Hp & _ & _ & Hprod & _ & Hprob).
  exists e. split; [exact He|]. split; [exact Hp|]. split; [exact Hprod | exact Hprob].
Defined.

(** *** The market tick as a whole *)

Lemma churn_rate_bounds (a b : nat) :
  within 0 (inject_Z (Z.of_nat a) / inject_Z (Z.max 1 (Z.of_nat b + Z.of_nat a))) 1.
Proof.
  assert (Hpos : 0 < inject_Z (Z.max 1 (Z.of_nat b + Z.of_nat a))).
  { change 0 with (inject_Z 0). rewrite <- Zlt_Qlt. lia. }
  assert (Ha : 0 <= inject_Z (Z.of_nat a)).
  { change 0 with (inject_Z 0). rewrite <- Zle_Qle. lia. }
  assert (Hle : inject_Z (Z.of_nat a) <= inject_Z (Z.max 1 (Z.of_nat b + Z.of_nat a))).
  { rewrite <- Zle_Qle. lia. }
  split.
  - apply Qle_shift_div_l; [exact Hpos | lra].
  - apply Qle_shift_div_r; [exact Hpos | lra].
Qed.

Lemma simulate_market_dynamics_returns (s : AdvancedMarketSimulator) (r : Rng) :
  Forall size_in_float_range (virtual_customers s) ->
  exists result s' r',
    simulate_market_dynamics s r = (Some (result, s'), r')
    /\ (total_customers (customer_metrics result) + churned_customers (customer_metrics result)
        = len (virtual_customers s))%Z
    /\ total_customers (customer_metrics result) = len (virtual_customers s')
    /\ (length (virtual_customers s') <= length (virtual_customers s))%nat
    /\ within 0 (churn_rate (customer_metrics result)) 1
    /\ Forall size_in_float_range (virtual_customers s').
Proof.
  intros Hsizes. unfold simulate_market_dynamics, bind, bindE, ret.
  destruct (advance_cycle (economic_cycle s) r) as [e r1].
  destruct (update_customers_returns e (virtual_customers s) r1 Hsizes) as [[[u ch] ex] Hu].
  pose proof (update_customers_shape e (virtual_customers s) r1 u ch ex Hu)
    as (H2 & Hsub & _).
  destruct (update_customers (get_market_conditions e) (virtual_customers s) r1)
    as [o r2]. cbn [fst] in Hu. subst o.
  destruct (remove_churned_spec ch u Hsub) as (remaining & Hrem & Hsub' & Hcount).
  rewrite Hrem.
  destruct (events_some e r2) as (events & r3 & ->).
  rewrite update_landscape_some.
  pose proof (Forall2_length _ _ _ H2) as Hlen.
  do 3 eexists. split; [reflexivity|].
  cbn [customer_metrics total_customers churned_customers churn_rate virtual_customers].
  unfold len. split; [lia|]. split; [reflexivity|]. split; [lia|].
  split; [apply churn_rate_bounds|].
  assert (Hu' : Forall size_in_float_range u).
  { eapply Forall2_Forall_r; [|exact H2 | exact Hsizes]. intros c c' -> Hc. exact Hc. }
  apply Forall_forall. intros c Hin.
  eapply Forall_forall in Hu'; [exact Hu'|]. eapply elem_of_sublist; eassumption.
Qed.

(** X5. The market tick does not raise when the size of every customer
    converts to a float, as the sizes the constructor draws do, whatever is
    drawn. It conserves customers: those it reports as remaining and those
    it reports as churned add up to the population it started from, so the
    population never grows; the churn rate it reports lies in [0, 1]; and
    the sizes of the customers it keeps still convert. *)
Theorem simulate_market_dynamics_total (s : AdvancedMarketSimulator) (r : Rng) :
  Forall size_in_float_range (virtual_customers s) ->
  exists result s' r',
    simulate_market_dynamics s r = (Some (result, s'), r')
    /\ (total_customers (customer_metrics result) + churned_customers (customer_metrics result)
        = len (virtual_customers s))%Z
    /\ total_customers (customer_metrics result) = len (virtual_customers s')
    /\ (length (virtual_customers s') <= length (virtual_customers s))%nat
    /\ within 0 (churn_rate (customer_metrics result)) 1
    /\ Forall size_in_float_range (virtual_customers s').
Proof.
  exact (simulate_market_dynamics_returns s r).
Qed.

Lemma sample_population_sizes :
  Forall size_in_float_range
    (virtual_customers (simulator_init [sample_customer 0.7 0.5 0.5; sample_customer 0 0 0.5])).
Proof.
  cbn [virtual_customers simulator_init].
  repeat constructor; apply Z.ltb_lt; vm_compute; reflexivity.
Qed.

Lemma simulate_market_dynamics_total_witness :
  Forall size_in_float_range
    (virtual_customers (simulator_init [sample_customer 0.7 0.5 0.5; sample_customer 0 0 0.5]))
  /\ exists result s' r',
       simulate_market_dynamics
         (simulator_init [sample_customer 0.7 0.5 0.5; sample_customer 0 0 0.5]) (rng_const 0.5)
       = (Some (result, s'), r')
       /\ (total_customers (customer_metrics result)
           + churned_customers (customer_metrics result) = 2)%Z
       /\ within 0 (churn_rate (customer_metrics result)) 1.
Proof.
  split; [exact sample_population_sizes|].
  destruct (simulate_market_dynamics_total
              (simulator_init [sample_customer 0.7 0.5 0.5; sample_customer 0 0 0.5])
              (rng_const 0.5) sample_population_sizes)
    as (result & s' & r' & H & Hsum & _ & _ & Hrate & _).
  exists result, s', r'. split; [exact H|]. split; [exact Hsum | exact Hrate].
Defined.

(** A satisfied, loyal customer whose size is beyond the float range, and
    who does not churn in the tick: the tick raises. *)
Lemma simulate_market_dynamics_overflow :
  fst (simulate_market_dynamics
         (simulator_init [set_size (sample_customer 0.7 0.5 0.5) float_limit]) (rng_const 0.9))
  = None.
Proof. vm_compute. reflexivity. Qed.

(** X6. The tick advances the economic cycle first and once, with the draws
    it was given; the conditions it reports are those of the advanced cycle,
    and the landscape it reports is the one it stores. Every expansion
    opportunity it reports has a potential above 0.5, hence belongs to a
    customer with satisfaction at least 0.6 and loyalty at least 0.4, and
    churned customers and expansion opportunities together never outnumber
    the population. *)
Theorem simulate_market_dynamics_order (s s' : AdvancedMarketSimulator) (r r' : Rng)
    (result : MarketResult) :
  simulate_market_dynamics s r = (Some (result, s'), r') ->
  economic_cycle s' = fst (advance_cycle (economic_cycle s) r)
  /\ market_conditions result = get_market_conditions (economic_cycle s')
  /\ result_landscape result = competitive_landscape s'
  /\ market_size result = total_market_size s
  /\ (churned_customers (customer_metrics result) + expansion_count (customer_metrics result)
      <= len (virtual_customers s))%Z
  /\ Forall (fun en =>
               0.5 < potential (opportunity en)
               /\ 0.6 <= satisfaction (customer en) /\ 0.4 <= loyalty (customer en))
       (expansion_opportunities result).
Proof.
  unfold simulate_market_dynamics, bind, bindE, ret.
  destruct (advance_cycle (economic_cycle s) r) as [e r1].
  pose proof (update_customers_shape e (virtual_customers s) r1) as Hshape.
  destruct (update_customers (get_market_conditions e) (virtual_customers s) r1)
    as [[[[u ch] ex]|] r2]; [|discriminate].
  destruct (Hshape u ch ex eq_refl) as (_ & _ & Hcount & HF).
  destruct (remove_churned ch u) as [remaining|]; [|discriminate].
  destruct (_generate_market_events (get_market_conditions e) r2) as [[events|] r3];
    [|discriminate].
  destruct (_update_competitive_landscape (get_market_conditions e)
              (competitive_landscape s) r3) as [[landscape|] r4]; [|discriminate].
  intros H. injection H as <- <- _.
  cbn [economic_cycle market_conditions result_landscape competitive_landscape market_size
       customer_metrics churned_customers expansion_count expansion_opportunities fst].
  split; [reflexivity|]. split; [reflexivity|]. split; [reflexivity|]. split; [reflexivity|].
  split; [unfold len; lia|].
  eapply Forall_impl; [exact HF|]. intros en (_ & Hop & Hpot).
  split; [exact Hpot|].
  unfold calculate_expansion_opportunity in Hop.
  destruct (Qltb (satisfaction (customer en)) 0.6) eqn:E1;
    [cbn [orb] in Hop; injection Hop as Hop; rewrite <- Hop in Hpot;
     cbn [potential] in Hpot; lra|].
  destruct (Qltb (loyalty (customer en)) 0.4) eqn:E2;
    [cbn [orb] in Hop; injection Hop as Hop; rewrite <- Hop in Hpot;
     cbn [potential] in Hpot; lra|].
  apply Qltb_false in E1, E2. split; assumption.
Qed.

Lemma simulate_market_dynamics_order_witness :
  exists result s' r',
    simulate_market_dynamics (simulator_init []) (rng_const 0) = (Some (result, s'), r')
    /\ economic_cycle s' = fst (advance_cycle (economic_cycle (simulator_init [])) (rng_const 0))
    /\ market_conditions result = get_market_conditions (economic_cycle s').
Proof.
  destruct (simulate_market_dynamics_returns (simulator_init []) (rng_const 0))
    as (result & s' & r' & H & _); [constructor|].
  exists result, s', r'. split; [exact H|].
  destruct (simulate_market_dynamics_order (simulator_init []) s' (rng_const 0) r' result H)
    as (H1 & H2 & _).
  split; [exact H1 | exact H2].
Defined.

Lemma simulate_landscape (s s' : AdvancedMarketSimulator) (r r' : Rng) (result : MarketResult) :
  simulate_market_dynamics s r = (Some (result, s'), r') ->
  map fst (competitive_landscape s') = map fst (competitive_landscape s)
  /\ (competitive_landscape s <> [] -> total_share (competitive_landscape s') == 1).
Proof.
  unfold simulate_market_dynamics, bind, bindE, ret.
  destruct (advance_cycle (economic_cycle s) r) as [e r1].
  destruct (update_customers (get_market_conditions e) (virtual_customers s) r1)
    as [[[[u ch] ex]|] r2]; [|discriminate].
  destruct (remove_churned ch u) as [remaining|]; [|discriminate].
  destruct (_generate_market_events (get_market_conditions e) r2) as [[events|] r3];
    [|discriminate].
  rewrite update_landscape_some.
  intros H. injection H as _ <- _. cbn [competitive_landscape].
  pose proof (perturb_shares_clamped (gdp_growth e) (competitive_landscape s) r3) as [Hc Hk].
  generalize dependent (fst (perturb_shares (gdp_growth e) (competitive_landscape s) r3)).
  intros l1 Hc Hk. split.
  - rewrite <- Hk, <- list_fmap_compose. reflexivity.
  - intros Hne.
    assert (Hne1 : l1 <> []).
    { intros ->. destruct (competitive_landscape s); [congruence | discriminate]. }
    pose proof (total_share_pos l1 Hne1 Hc) as Hpos.
    rewrite total_share_scaled by lra. field. lra.
Qed.

(** X7. Any number of successive market ticks runs through without
    raising when the size of every customer converts to a float. Over the
    run the population never grows and the landscape keeps the same
    competitors in the same order; after at least one tick the shares of a
    landscape that has a competitor sum to 1 in exact arithmetic, which the
    code's floats follow up to rounding. *)
Theorem simulate_n_spec (n : nat) (s : AdvancedMarketSimulator) (r : Rng) :
  Forall size_in_float_range (virtual_customers s) ->
  exists s' r',
    simulate_n n s r = (Some s', r')
    /\ (length (virtual_customers s') <= length (virtual_customers s))%nat
    /\ map fst (competitive_landscape s') = map fst (competitive_landscape s)
    /\ ((0 < n)%nat -> competitive_landscape s <> [] ->
        total_share (competitive_landscape s') == 1).
Proof.
  revert s r. induction n as [|n IH]; intros s r Hsizes.
  - exists s, r. split; [reflexivity|]. split; [lia|]. split; [reflexivity | lia].
  - cbn [simulate_n]. unfold bindE.
    destruct (simulate_market_dynamics_returns s r Hsizes)
      as (res & s1 & r1 & H & _ & _ & Hle & _ & Hsizes1).
    destruct (simulate_landscape s s1 r r1 res H) as (Hkeys & Hsum).
    rewrite H. cbn [snd].
    destruct (IH s1 r1 Hsizes1) as (s' & r' & Hn & Hle' & Hkeys' & Hsum').
    exists s', r'. split; [exact Hn|]. split; [lia|].
    split; [rewrite Hkeys', Hkeys; reflexivity|].
    intros _ Hne. destruct n as [|n].
    + cbn [simulate_n ret] in Hn. injection Hn as <- _. apply Hsum. exact Hne.
    + apply Hsum'; [lia|]. intros E. rewrite E in Hkeys.
      destruct (competitive_landscape s); [congruence | discriminate].
Qed.

Lemma simulate_n_spec_witness :
  Forall size_in_float_range
    (virtual_customers (simulator_init [sample_customer 0.7 0.5 0.5; sample_customer 0 0 0.5]))
  /\ exists s' r',
       simulate_n 2 (simulator_init [sample_customer 0.7 0.5 0.5; sample_customer 0 0 0.5])
         (rng_const 0.5) = (Some s', r')
       /\ (0 < 2)%nat
       /\ competitive_landscape
            (simulator_init [sample_customer 0.7 0.5 0.5; sample_customer 0 0 0.5]) <> []
       /\ total_share (competitive_landscape s') == 1.
Proof.
  split; [exact sample_population_sizes|].
  destruct (simulate_n_spec 2
              (simulator_init [sample_customer 0.7 0.5 0.5; sample_customer 0 0 0.5])
              (rng_const 0.5) sample_population_sizes)
    as (s' & r' & H & _ & _ & Hsum).
  exists s', r'. split; [exact H|]. split; [lia|]. split; [discriminate|].
  apply Hsum; [lia | discriminate].
Defined.

(** *** Market events *)

Lemma gated_event_spec (p : Q) (ty ev imp : string) (lo hi : Q) (r : Rng) :
  valid_rng r -> 0 <= lo -> lo <= hi ->
  (length (fst (gated_event p ty ev imp lo hi r)) <= 1)%nat
  /\ Forall (fun x => ev_type x = ty /\ within lo (ev_severity x) hi)
       (fst (gated_event p ty ev imp lo hi r))
  /\ valid_rng (snd (gated_event p ty ev imp lo hi r)).
Proof.
  intros Hr Hlo Hhi. cbv [gated_event bind random uniform ret]. cbn [fst snd draws cursor].
  destruct (Qltb _ p); cbn [fst snd length].
  - split; [lia|]. split; [|intros n; apply (Hr n)].
    constructor; [|constructor]. cbn [ev_type ev_severity]. split; [reflexivity|].
    destruct (Hr (S (cursor r))) as [H0 H1]. cbn [draws cursor]. unfold within. split; nra.
  - split; [lia|]. split; [constructor | intros n; apply (Hr n)].
Qed.

(** X8. On the conditions the cycle reports, [_generate_market_events]
    returns at most five events, each with a severity that is not negative;
    an economic event is among them exactly when gdp growth is negative, and
    its severity is ten times the absolute growth. *)
Theorem generate_market_events_spec (e : EconomicCycleSimulator) (r : Rng) :
  valid_rng r ->
  exists events,
    fst (_generate_market_events (get_market_conditions e) r) = Some events
    /\ (length events <= 5)%nat
    /\ Forall (fun ev => 0 <= ev_severity ev) events
    /\ (gdp_growth e < 0 <->
        exists ev, ev ∈ events /\ ev_type ev = "economic"%string)
    /\ Forall (fun ev => ev_type ev = "economic"%string ->
                         ev_severity ev == Qabs (gdp_growth e) * 10) events.
Proof.
  intros Hr. unfold _generate_market_events. rewrite mc_gdp_growth, mc_tech. unfold bind.
  destruct (gated_event_spec 0.1 "competitive" "Major competitor launches new product"
              "negative" 0.2 0.7 r Hr) as (L1 & F1 & Hr1); [lra | lra |].
  destruct (gated_event 0.1 _ _ _ 0.2 0.7 r) as [ev1 r1]. cbn [fst snd] in *.
  destruct (gated_event_spec 0.05 "technology" "New technology disruption in market"
              "mixed" 0.3 0.8 r1 Hr1) as (L2 & F2 & Hr2); [lra | lra |].
  destruct (gated_event 0.05 _ _ _ 0.3 0.8 r1) as [ev2 r2]. cbn [fst snd] in *.
  destruct (gated_event_spec 0.03 "regulatory" "New data privacy regulations announced"
              "negative" 0.1 0.5 r2 Hr2) as (L3 & F3 & _); [lra | lra |].
  destruct (gated_event 0.03 _ _ _ 0.1 0.5 r2) as [ev3 r3]. cbn [fst snd ret] in *.
  eexists. split; [reflexivity|].
  assert (Hrest : Forall (fun ev => ev_type ev <> "economic"%string /\ 0 <= ev_severity ev)
                    (ev1 ++ ev2 ++ ev3)).
  { rewrite !Forall_app. repeat split.
    - eapply Forall_impl; [exact F1|]. intros x [-> [? ?]]. split; [discriminate | lra].
    - eapply Forall_impl; [exact F2|]. intros x [-> [? ?]]. split; [discriminate | lra].
    - eapply Forall_impl; [exact F3|]. intros x [-> [? ?]]. split; [discriminate | lra]. }
  assert (Hsector : forall tech, Qltb 0.9 tech = true ->
            0 <= ev_severity (mkEvent "sector" "Tech sector boom - increased investment"
                                "positive" ((tech - 0.5) * 2))).
  { intros tech E. apply Qltb_true in E. cbn [ev_severity]. lra. }
  destruct (Qltb (gdp_growth e) 0) eqn:Eg; destruct (Qltb 0.9 (tech_sector_performance e)) eqn:Et;
    cbn [app length]; rewrite ?length_app.
  all: split; [lia|].
  all: split; [repeat (constructor; [first [apply Qle_trans with (y := 0); [lra|];
                  cbn [ev_severity]; pose proof (Qabs_nonneg (gdp_growth e)); lra
                | apply Hsector; exact Et]|]);
               eapply Forall_impl; [exact Hrest|]; intros x [_ Hx]; exact Hx|].
  all: split.
  all: try (apply Qltb_true in Eg).
  all: try (apply Qltb_false in Eg).
  all: try (split; [intros _; eexists; split; [left|reflexivity]
                   | intros _; exact Eg]).
  all: try (split; [intros Hneg; lra|]; intros (ev & Hin & Hty); exfalso;
            repeat (apply elem_of_cons in Hin as [-> | Hin]; [discriminate Hty|]);
            rewrite Forall_forall in Hrest; destruct (Hrest ev Hin) as [Hne _];
            apply Hne; exact Hty).
  all: repeat (constructor; [cbn [ev_type ev_severity]; intros Hty;
                             first [reflexivity | discriminate Hty]|]).
  all: eapply Forall_impl; [exact Hrest|]; intros x [Hne _] Hty; contradiction.
Qed.

Lemma generate_market_events_spec_witness :
  valid_rng (rng_const 0.5)
  /\ exists events,
       fst (_generate_market_events (get_market_conditions cycle_init) (rng_const 0.5))
       = Some events
       /\ (length events <= 5)%nat
       /\ Forall (fun ev => 0 <= ev_severity ev) events.
Proof.
  assert (Hv : valid_rng (rng_const 0.5)) by (apply rng_const_valid; lra).
  split; [exact Hv|].
  destruct (generate_market_events_spec cycle_init (rng_const 0.5) Hv)
    as (events & H1 & H2 & H3 & _).
  exists events. split; [exact H1|]. split; [exact H2 | exact H3].
Defined.

(** *** Segment analysis *)

Lemma segment_value_inj (g h : CustomerSegment) : segment_value g = segment_value h -> g = h.
Proof. destruct g, h; intros H; first [reflexivity | discriminate H]. Qed.

Lemma segment_eqb_eq (g h : CustomerSegment) : segment_eqb g h = true <-> g = h.
Proof. destruct g, h; cbn; split; congruence. Qed.

Lemma np_mean_number (l : list Q) : l <> [] -> np_mean l <> NpNaN.
Proof. destruct l; [congruence | discriminate]. Qed.

Lemma segments_fold_sound (cs : list VirtualCustomer) (gs : list CustomerSegment)
    (acc : gmap string SegmentStats) (k : string) (st : SegmentStats) :
  fold_left
    (fun segments g =>
       match segment_customers cs g with
       | [] => segments
       | _ :: _ => <[segment_value g := segment_stats (segment_customers cs g)]> segments
       end) gs acc !! k = Some st ->
  acc !! k = Some st
  \/ exists g, g ∈ gs /\ k = segment_value g /\ segment_customers cs g <> []
               /\ st = segment_stats (segment_customers cs g).
Proof.
  revert acc. induction gs as [|g gs IH]; intros acc H; cbn [fold_left] in H.
  - left. exact H.
  - apply IH in H as [H | (h & Hin & Hk & Hne & Hst)].
    + destruct (segment_customers cs g) as [|x l] eqn:E; [left; exact H|].
      apply lookup_insert_Some in H as [[<- <-] | [_ H]]; [|left; exact H].
      right. exists g. split; [left|]. rewrite E. repeat split. discriminate.
    + right. exists h. split; [right; exact Hin | auto].
Qed.

Lemma segments_fold_other (cs : list VirtualCustomer) (gs : list CustomerSegment)
    (acc : gmap string SegmentStats) (h : CustomerSegment) :
  h ∉ gs ->
  fold_left
    (fun segments g =>
       match segment_customers cs g with
       | [] => segments
       | _ :: _ => <[segment_value g := segment_stats (segment_customers cs g)]> segments
       end) gs acc !! segment_value h
  = acc !! segment_value h.
Proof.
  revert acc. induction gs as [|g gs IH]; intros acc Hnotin; cbn [fold_left]; [reflexivity|].
  apply not_elem_of_cons in Hnotin as [Hne Hnotin].
  rewrite IH by exact Hnotin.
  destruct (segment_customers cs g); [reflexivity|].
  apply lookup_insert_ne. intros E. apply segment_value_inj in E. congruence.
Qed.

Lemma segments_fold_complete (cs : list VirtualCustomer) (gs : list CustomerSegment)
    (acc : gmap string SegmentStats) (g : CustomerSegment) :
  NoDup gs -> g ∈ gs -> segment_customers cs g <> [] ->
  fold_left
    (fun segments g =>
       match segment_customers cs g with
       | [] => segments
       | _ :: _ => <[segment_value g := segment_stats (segment_customers cs g)]> segments
       end) gs acc !! segment_value g
  = Some (segment_stats (segment_customers cs g)).
Proof.
  intros Hnd. revert acc. induction Hnd as [|h gs Hnotin Hnd IH]; intros acc Hin Hne.
  - inversion Hin.
  - cbn [fold_left]. apply elem_of_cons in Hin as [-> | Hin].
    + rewrite segments_fold_other by exact Hnotin.
      destruct (segment_customers cs h) as [|x l]; [congruence|].
      apply lookup_insert_eq.
    + apply IH; assumption.
Qed.

Lemma segment_customers_nonempty (cs : list VirtualCustomer) (g : CustomerSegment) :
  segment_customers cs g <> [] <-> exists c, c ∈ cs /\ segment c = g.
Proof.
  unfold segment_customers. split.
  - intros H. destruct (filter _ cs) as [|c l] eqn:E; [congruence|].
    assert (Hin : c ∈ filter (fun c => segment_eqb (segment c) g = true) cs)
      by (rewrite E; left).
    apply list_elem_of_filter in Hin as [Hc Hin]. exists c. split; [exact Hin|].
    apply segment_eqb_eq. exact Hc.
  - intros (c & Hin & Hg) E.
    assert (Hc : c ∈ filter (fun c => segment_eqb (segment c) g = true) cs).
    { apply list_elem_of_filter. split; [apply segment_eqb_eq; exact Hg | exact Hin]. }
    rewrite E in Hc. inversion Hc.
Qed.

(** X9. [get_customer_segments_analysis] has an entry for a segment exactly
    when some customer belongs to it. Every entry is keyed by a segment
    name, counts at least one customer, and none of its five averages is
    [nan]: here the means are taken of non-empty lists only. *)
Theorem get_customer_segments_analysis_spec (s : AdvancedMarketSimulator) :
  let analysis := get_customer_segments_analysis s in
  (forall g, is_Some (analysis !! segment_value g) <->
             exists c, c ∈ virtual_customers s /\ segment c = g)
  /\ (forall k st, analysis !! k = Some st ->
        exists g, k = segment_value g
                  /\ st = segment_stats (segment_customers (virtual_customers s) g)
                  /\ (1 <= seg_count st)%Z
                  /\ seg_avg_satisfaction st <> NpNaN /\ seg_avg_loyalty st <> NpNaN
                  /\ seg_avg_ltv st <> NpNaN /\ seg_churn_risk st <> NpNaN
                  /\ seg_expansion_potential st <> NpNaN).
Proof.
  cbv zeta. unfold get_customer_segments_analysis.
  assert (Hsound : forall k st,
    fold_left
      (fun segments g =>
         match segment_customers (virtual_customers s) g with
         | [] => segments
         | _ :: _ => <[segment_value g := segment_stats
                         (segment_customers (virtual_customers s) g)]> segments
         end) [ENTERPRISE; MID_MARKET; SMB; STARTUP] (∅ : gmap string SegmentStats) !! k
    = Some st ->
    exists g, k = segment_value g /\ segment_customers (virtual_customers s) g <> []
              /\ st = segment_stats (segment_customers (virtual_customers s) g)).
  { intros k st H. apply segments_fold_sound in H as [H | (g & _ & Hk & Hne & Hst)].
    - rewrite lookup_empty in H. discriminate.
    - exists g. auto. }
  split.
  - intros g. rewrite <- segment_customers_nonempty. split.
    + intros [st Hst]. destruct (Hsound _ _ Hst) as (h & Hk & Hne & _).
      apply segment_value_inj in Hk. subst h. exact Hne.
    + intros Hne. eexists. apply segments_fold_complete; [|destruct g|exact Hne].
      * repeat (constructor; [rewrite ?elem_of_cons, ?elem_of_nil; intuition discriminate|]).
        constructor.
      * left.
      * right; left.
      * right; right; left.
      * right; right; right; left.
  - intros k st H. destruct (Hsound k st H) as (g & Hk & Hne & Hst).
    exists g. split; [exact Hk|]. split; [exact Hst|]. subst st.
    destruct (segment_customers (virtual_customers s) g) as [|c l]; [congruence|].
    cbn [segment_stats seg_count seg_avg_satisfaction seg_avg_loyalty seg_avg_ltv
         seg_churn_risk seg_expansion_potential map].
    split; [unfold len; cbn [length]; lia|].
    repeat split; discriminate.
Qed.

Lemma get_customer_segments_analysis_spec_witness :
  get_customer_segments_analysis (simulator_init [sample_customer 0.5 0.5 0.5]) !! "smb"%string
  = Some (segment_stats [sample_customer 0.5 0.5 0.5])
  /\ exists g, "smb"%string = segment_value g
               /\ (1 <= seg_count (segment_stats [sample_customer 0.5 0.5 0.5]))%Z
               /\ seg_avg_satisfaction (segment_stats [sample_customer 0.5 0.5 0.5]) <> NpNaN.
Proof.
  assert (H : get_customer_segments_analysis (simulator_init [sample_customer 0.5 0.5 0.5])
              !! "smb"%string = Some (segment_stats [sample_customer 0.5 0.5 0.5]))
    by reflexivity.
  split; [exact H|].
  destruct (proj2 (get_customer_segments_analysis_spec
                     (simulator_init [sample_customer 0.5 0.5 0.5])) _ _ H)
    as (g & Hk & _ & Hc & Hs & _).
  exists g. split; [exact Hk|]. split; [exact Hc | exact Hs].
Defined.

(** *** Campaigns *)

Lemma campaign_effects_nonneg (ty : string) (eff : CampaignEffect) :
  campaign_effects ty = Some eff ->
  0 <= eff_satisfaction eff /\ 0 <= eff_loyalty eff.
Proof.
  unfold campaign_effects.
  repeat match goal with |- context [if ?b then _ else _] => destruct b end;
    intros H; try discriminate H; injection H as <-; cbn; split; lra.
Qed.

(** X10. [simulate_campaign_impact] with a campaign type it does not know
    reports zeros and changes nothing. With a known type it reports how many
    customers it reached; the population keeps its size and order, a
    customer it did not reach is unchanged, and a customer it reached has
    satisfaction and loyalty of at most 1, neither lower than before when
    they were at most 1, and is otherwise as before. *)
Theorem simulate_campaign_impact_spec (s : AdvancedMarketSimulator) (ty : string)
    (target : option string) :
  let out := simulate_campaign_impact s ty target in
  (campaign_effects ty = None -> out = (mkImpact 0 0 0 0, s))
  /\ (forall eff, campaign_effects ty = Some eff ->
        customers_affected (fst out)
        = len (filter (fun c => targeted target c = true) (virtual_customers s))
        /\ competitive_landscape (snd out) = competitive_landscape s
        /\ economic_cycle (snd out) = economic_cycle s
        /\ Forall2 (fun c c' =>
                      if targeted target c
                      then satisfaction c' <= 1 /\ loyalty c' <= 1
                           /\ (satisfaction c <= 1 -> satisfaction c <= satisfaction c')
                           /\ (loyalty c <= 1 -> loyalty c <= loyalty c')
                           /\ set_loyalty (set_satisfaction c (satisfaction c')) (loyalty c') = c'
                      else c' = c)
             (virtual_customers s) (virtual_customers (snd out))).
Proof.
  cbv zeta. unfold simulate_campaign_impact. split.
  - intros ->. reflexivity.
  - intros eff Heff. rewrite Heff. cbn [fst snd customers_affected competitive_landscape
                                         economic_cycle virtual_customers].
    destruct (campaign_effects_nonneg ty eff Heff) as [Hs Hl].
    split; [reflexivity|]. split; [reflexivity|]. split; [reflexivity|].
    apply Forall2_fmap_r, Forall_Forall2_diag, Forall_forall. intros c _.
    unfold compose. cbv beta.
    destruct (targeted target c); [|reflexivity].
    unfold apply_campaign. cbn [satisfaction loyalty set_loyalty set_satisfaction].
    pose proof (pymin_spec 1.0 (satisfaction c + eff_satisfaction eff)) as (H1 & _ & H3).
    pose proof (pymin_spec 1.0 (loyalty c + eff_loyalty eff)) as (H4 & _ & H6).
    split; [lra|]. split; [lra|].
    split; [intros ?; destruct H3; lra|]. split; [intros ?; destruct H6; lra|].
    reflexivity.
Qed.

Lemma simulate_campaign_impact_spec_witness :
  campaign_effects "flash_sale" = None
  /\ simulate_campaign_impact (simulator_init []) "flash_sale" None
     = (mkImpact 0 0 0 0, simulator_init [])
  /\ campaign_effects "product_demo" = Some (mkEffect 0.1 0.05 0.15)
  /\ customers_affected
       (fst (simulate_campaign_impact (simulator_init [sample_customer 0.5 0.5 0.5])
               "product_demo" None))
     = len (filter (fun c => targeted None c = true)
              (virtual_customers (simulator_init [sample_customer 0.5 0.5 0.5]))).
Proof.
  split; [reflexivity|].
  split; [apply (proj1 (simulate_campaign_impact_spec (simulator_init []) "flash_sale" None));
          reflexivity|].
  split; [reflexivity|].
  apply (proj2 (simulate_campaign_impact_spec (simulator_init [sample_customer 0.5 0.5 0.5])
                  "product_demo" None) (mkEffect 0.1 0.05 0.15)).
  reflexivity.
Defined.

(** *** More on churn, the landscape and the cycle *)

Lemma pymin_mono (a x y : Q) : x <= y -> pymin a x <= pymin a y.
Proof.
  intros H.
  destruct (pymin_spec a x) as (Hx1 & Hx2 & _).
  destruct (pymin_spec a y) as (_ & _ & [Hy | Hy]); lra.
Qed.

(** X25. The recomputed churn probability is monotone in the customer:
    under the same market conditions, a customer that is no more satisfied,
    no more loyal and no less price sensitive than another comes out with a
    churn probability that is no lower. *)
Theorem update_churn_probability_monotone (c1 c2 c1' c2' : VirtualCustomer)
    (mc : gmap string pyval) :
  update_churn_probability c1 mc = Some c1' ->
  update_churn_probability c2 mc = Some c2' ->
  satisfaction c2 <= satisfaction c1 ->
  loyalty c2 <= loyalty c1 ->
  price_sensitivity c1 <= price_sensitivity c2 ->
  churn_probability c1' <= churn_probability c2'.
Proof.
  intros H1 H2 Hs Hl Hp.
  destruct (update_churn_inv c1 c1' mc H1) as (cp & eg & pi & E1 & E2 & E3 & ->).
  destruct (update_churn_inv c2 c2' mc H2) as (cp' & eg' & pi' & E1' & E2' & E3' & ->).
  rewrite E1 in E1'. rewrite E2 in E2'. rewrite E3 in E3'.
  injection E1' as <-. injection E2' as <-. injection E3' as <-.
  cbn [churn_probability set_churn_probability]. apply pymin_mono.
  unfold churn_score.
  assert (Hprice : (if Qltb 0 pi then price_sensitivity c1 * pi * 0.2 else 0)
                   <= (if Qltb 0 pi then price_sensitivity c2 * pi * 0.2 else 0)).
  { destruct (Qltb 0 pi) eqn:E; [|lra]. apply Qltb_true in E. nra. }
  destruct (Qltb 0.7 cp), (Qltb eg 0.3); lra.
Qed.

Lemma update_churn_probability_monotone_witness :
  update_churn_probability (sample_customer 0.9 0.8 0.2) ∅
  = Some (set_churn_probability (sample_customer 0.9 0.8 0.2)
            (pymin 0.8 (churn_score (sample_customer 0.9 0.8 0.2) 0 0 0)))
  /\ update_churn_probability (sample_customer 0.5 0.4 0.5) ∅
     = Some (set_churn_probability (sample_customer 0.5 0.4 0.5)
               (pymin 0.8 (churn_score (sample_customer 0.5 0.4 0.5) 0 0 0)))
  /\ churn_probability
       (set_churn_probability (sample_customer 0.9 0.8 0.2)
          (pymin 0.8 (churn_score (sample_customer 0.9 0.8 0.2) 0 0 0)))
     <= churn_probability
          (set_churn_probability (sample_customer 0.5 0.4 0.5)
             (pymin 0.8 (churn_score (sample_customer 0.5 0.4 0.5) 0 0 0))).
Proof.
  assert (H1 : update_churn_probability (sample_customer 0.9 0.8 0.2) ∅
               = Some (set_churn_probability (sample_customer 0.9 0.8 0.2)
                         (pymin 0.8 (churn_score (sample_customer 0.9 0.8 0.2) 0 0 0))))
    by reflexivity.
  assert (H2 : update_churn_probability (sample_customer 0.5 0.4 0.5) ∅
               = Some (set_churn_probability (sample_customer 0.5 0.4 0.5)
                         (pymin 0.8 (churn_score (sample_customer 0.5 0.4 0.5) 0 0 0))))
    by reflexivity.
  split; [exact H1|]. split; [exact H2|].
  apply (update_churn_probability_monotone (sample_customer 0.9 0.8 0.2)
           (sample_customer 0.5 0.4 0.5) _ _ ∅ H1 H2);
    cbn [satisfaction loyalty price_sensitivity sample_customer]; lra.
Defined.

(** X26. One round of the landscape's first loop leaves the competitor's
    strength alone and moves a share that was in [0.01, 0.8] by little: by at
    most 0.02 either way when gdp growth is not negative; when it is
    negative, a competitor stronger than 0.7 loses at most 0.01 and gains at
    most 0.03, and any other gains at most 0.01 and loses at most 0.03. *)
Theorem perturb_one_drift (gdp : Q) (d : Competitor) (r : Rng) :
  valid_rng r ->
  within 0.01 (share d) 0.8 ->
  let d' := fst (perturb_one gdp d r) in
  strength d' = strength d
  /\ (0 <= gdp -> within (share d - 0.02) (share d') (share d + 0.02))
  /\ (gdp < 0 -> 0.7 < strength d -> within (share d - 0.01) (share d') (share d + 0.03))
  /\ (gdp < 0 -> strength d <= 0.7 -> within (share d - 0.03) (share d') (share d + 0.01)).
Proof.
  intros Hr [Hlo Hhi]. cbv zeta. cbv [perturb_one bind uniform random ret]. cbn [fst snd share strength].
  destruct (Hr (cursor r)) as [H0 H1].
  split; [reflexivity|].
  assert (Hclamp : forall x lo hi, lo <= x - share d -> x - share d <= hi ->
            lo <= 0 -> 0 <= hi ->
            within (share d + lo) (pymax 0.01 (pymin 0.8 x)) (share d + hi)).
  { intros x lo hi Hxl Hxh Hl0 Hh0.
    destruct (pymin_spec 0.8 x) as (Hm1 & Hm2 & [Hm | Hm]);
    destruct (pymax_spec 0.01 (pymin 0.8 x)) as (HM1 & HM2 & [HM | HM]);
    split; lra. }
  split; [|split].
  - intros Hg. assert (E : Qltb gdp 0 = false) by (apply Qltb_false; exact Hg).
    rewrite E.
    pose proof (Hclamp (share d + (-0.02 + (0.02 - -0.02) * draws r (cursor r)))
                  (-0.02) 0.02) as H.
    unfold within in *. split; [apply Qle_trans with (y := share d + -0.02); [lra|]
                               | apply Qle_trans with (y := share d + 0.02); [|lra]];
      apply H; nra.
  - intros Hg Hs. assert (E : Qltb gdp 0 = true) by (apply Qltb_true; exact Hg).
    assert (E' : Qltb 0.7 (strength d) = true) by (apply Qltb_true; exact Hs).
    rewrite E, E'.
    pose proof (Hclamp (share d + (-0.02 + (0.02 - -0.02) * draws r (cursor r) + 0.01))
                  (-0.01) 0.03) as H.
    unfold within in *. split; [apply Qle_trans with (y := share d + -0.01); [lra|]
                               | apply Qle_trans with (y := share d + 0.03); [|lra]];
      apply H; nra.
  - intros Hg Hs. assert (E : Qltb gdp 0 = true) by (apply Qltb_true; exact Hg).
    assert (E' : Qltb 0.7 (strength d) = false) by (apply Qltb_false; exact Hs).
    rewrite E, E'.
    pose proof (Hclamp (share d + (-0.02 + (0.02 - -0.02) * draws r (cursor r) - 0.01))
                  (-0.03) 0.01) as H.
    unfold within in *. split; [apply Qle_trans with (y := share d + -0.03); [lra|]
                               | apply Qle_trans with (y := share d + 0.01); [|lra]];
      apply H; nra.
Qed.

Lemma perturb_one_drift_witness :
  valid_rng (rng_const 0)
  /\ within 0.01 (share (mkCompetitor 0.35 0.9)) 0.8
  /\ let d' := fst (perturb_one 0.025 (mkCompetitor 0.35 0.9) (rng_const 0)) in
     strength d' = strength (mkCompetitor 0.35 0.9)
     /\ (0 <= 0.025 -> within (share (mkCompetitor 0.35 0.9) - 0.02) (share d')
                          (share (mkCompetitor 0.35 0.9) + 0.02))
     /\ (0.025 < 0 -> 0.7 < strength (mkCompetitor 0.35 0.9) ->
         within (share (mkCompetitor 0.35 0.9) - 0.01) (share d')
           (share (mkCompetitor 0.35 0.9) + 0.03))
     /\ (0.025 < 0 -> strength (mkCompetitor 0.35 0.9) <= 0.7 ->
         within (share (mkCompetitor 0.35 0.9) - 0.03) (share d')
           (share (mkCompetitor 0.35 0.9) + 0.01)).
Proof.
  assert (Hv : valid_rng (rng_const 0)) by (apply rng_const_valid; lra).
  assert (Hw : within 0.01 (share (mkCompetitor 0.35 0.9)) 0.8)
    by (cbn [share]; split; lra).
  split; [exact Hv|]. split; [exact Hw|].
  apply (perturb_one_drift 0.025 (mkCompetitor 0.35 0.9) (rng_const 0) Hv Hw).
Defined.

Lemma advance_cycle_keeps (e : EconomicCycleSimulator) (r : Rng) :
  inflation_rate (fst (advance_cycle e r)) = inflation_rate e
  /\ market_volatility (fst (advance_cycle e r)) = market_volatility e.
Proof.
  unfold advance_cycle, bind.
  pose proof (phase_transition_keeps
                (set_phase e (current_phase e) (phase_duration e + 1)%Z) r) as [Hinf Hvol].
  destruct (phase_transition _ r) as [e2 r2]. cbn [fst] in Hinf, Hvol.
  rewrite update_indicators_redraw. cbv [redraw bind uniform random ret].
  cbn [fst inflation_rate market_volatility set_indicators].
  split; [exact Hinf | exact Hvol].
Qed.

Lemma reachable_not_stagnation (e : EconomicCycleSimulator) :
  reachable e -> current_phase e <> STAGNATION.
Proof.
  intros He. induction He as [|e r He IH Hr]; [discriminate|].
  apply advance_cycle_no_stagnation. exact IH.
Qed.

(** The indicator part of the state a freshly built engine can be in. *)
Lemma reachable_bounds (e : EconomicCycleSimulator) :
  reachable e ->
  e = cycle_init
  \/ (within (gdp_lo (phase_bounds (current_phase e))) (gdp_growth e)
        (gdp_hi (phase_bounds (current_phase e)))
      /\ within (unemp_lo (phase_bounds (current_phase e))) (unemployment_rate e)
           (unemp_hi (phase_bounds (current_phase e)))
      /\ within (rate_lo (phase_bounds (current_phase e))) (interest_rates e)
           (rate_hi (phase_bounds (current_phase e)))
      /\ within (tech_lo (phase_bounds (current_phase e))) (tech_sector_performance e)
           (tech_hi (phase_bounds (current_phase e)))).
Proof.
  intros H. destruct H as [|e r He Hr]; [left; reflexivity|]. right.
  unfold advance_cycle, bind.
  pose proof (phase_transition_valid
                (set_phase e (current_phase e) (phase_duration e + 1)%Z) r Hr) as Hr2.
  destruct (phase_transition _ r) as [e2 r2]. cbn [snd] in Hr2.
  rewrite update_indicators_redraw.
  destruct (bounds_ordered (current_phase e2)) as (Hg & Hu & Hi & Ht).
  destruct (redraw_spec e2 (phase_bounds (current_phase e2)) r2 Hr2 Hg Hu Hi Ht)
    as (H1 & H2 & H3 & H4 & _ & _ & H7).
  cbn [fst]. rewrite H7. repeat split; first [apply H1 | apply H2 | apply H3 | apply H4].
Qed.

(** X27. Over the whole life of a freshly built engine, whatever is drawn:
    the inflation rate stays 0.03 and the market volatility 0.1, the phase
    duration is never negative, gdp growth is negative only in Recession
    and never below -0.03, and the unemployment rate stays within
    [0.02, 0.12]. *)
Theorem reachable_invariants (e : EconomicCycleSimulator) :
  reachable e ->
  inflation_rate e = 0.03
  /\ market_volatility e = 0.1
  /\ (0 <= phase_duration e)%Z
  /\ (gdp_growth e < 0 -> current_phase e = RECESSION)
  /\ -0.03 <= gdp_growth e
  /\ within 0.02 (unemployment_rate e) 0.12.
Proof.
  intros He.
  assert (Hkeep : inflation_rate e = 0.03 /\ market_volatility e = 0.1
                  /\ (0 <= phase_duration e)%Z).
  { induction He as [|e r He IH Hr]; [repeat split; discriminate|].
    destruct IH as (Hi & Hv & Hd).
    destruct (advance_cycle_keeps e r) as [Hinf Hvol].
    split; [rewrite Hinf; exact Hi|]. split; [rewrite Hvol; exact Hv|].
    pose proof (advance_cycle_cases e r) as Hs. cbv zeta in Hs.
    destruct (transition_due e r).
    - destruct Hs as (_ & _ & H2). rewrite H2. lia.
    - destruct Hs as (_ & H2). rewrite H2. lia. }
  destruct Hkeep as (Hi & Hv & Hd).
  split; [exact Hi|]. split; [exact Hv|]. split; [exact Hd|].
  destruct (reachable_bounds e He) as [-> | (Hg & Hu & _ & _)].
  - cbn [gdp_growth unemployment_rate current_phase cycle_init]. unfold within.
    repeat split; lra.
  - pose proof (reachable_not_stagnation e He) as Hns.
    unfold within in *. destruct (current_phase e);
      cbn [phase_bounds gdp_lo gdp_hi unemp_lo unemp_hi] in *;
      try congruence;
      (split; [intros Hneg; first [reflexivity | exfalso; lra]|]);
      repeat split; lra.
Qed.

(** The writers of satisfaction and loyalty keep both at 1 at most: the
    bounds the population update relies on hold of the customers the
    constructor draws (satisfaction in [0.4, 0.8], loyalty in [0.2, 0.7])
    and survive every method that writes them. *)
Lemma population_bounds_writers (c : VirtualCustomer) :
  satisfaction c <= 1 -> loyalty c <= 1 ->
  (forall changes,
      satisfaction (snd (react_to_product_changes c changes)) <= 1
      /\ loyalty (snd (react_to_product_changes c changes)) <= 1)
  /\ (forall effects,
        satisfaction (apply_campaign effects c) <= 1
        /\ loyalty (apply_campaign effects c) <= 1)
  /\ (forall mc c', update_churn_probability c mc = Some c' ->
        satisfaction c' = satisfaction c /\ loyalty c' = loyalty c).
Proof.
  intros Hs Hl. split; [|split].
  - intros changes. unfold react_to_product_changes.
    destruct (react_loop_spec changes c ∅) as (Hset & _ & Hdis & _).
    split.
    + destruct Hdis as [-> | [_ H]]; assumption.
    + rewrite Hset. cbn [loyalty set_satisfaction]. exact Hl.
  - intros effects. unfold apply_campaign.
    cbn [satisfaction loyalty set_loyalty set_satisfaction].
    split.
    + pose proof (pymin_spec 1.0 (satisfaction c + eff_satisfaction effects)) as (H & _).
      lra.
    + pose proof (pymin_spec 1.0 (loyalty c + eff_loyalty effects)) as (H & _). lra.
  - intros mc c' H.
    destruct (update_churn_inv c c' mc H) as (cp & eg & pi & _ & _ & _ & ->).
    split; reflexivity.
Qed.

Lemma reachable_invariants_witness :
  reachable (fst (advance_cycle cycle_init (rng_const 0)))
  /\ inflation_rate (fst (advance_cycle cycle_init (rng_const 0))) = 0.03
  /\ market_volatility (fst (advance_cycle cycle_init (rng_const 0))) = 0.1
  /\ (0 <= phase_duration (fst (advance_cycle cycle_init (rng_const 0))))%Z.
Proof.
  assert (Hr : reachable (fst (advance_cycle cycle_init (rng_const 0)))).
  { apply reach_step; [constructor | apply rng_const_valid; lra]. }
  split; [exact Hr|].
  destruct (reachable_invariants _ Hr) as (H1 & H2 & H3 & _).
  split; [exact H1|]. split; [exact H2 | exact H3].
Defined.

End MarketProps.

Module SimProps.
Import Sim.

Section SchedulerProps.

Variable Organization : Type.
Variable Snapshot : Type.
Variables Activities Collaborations Negotiations Events Summary : Type.

Variable activities :
  Market.MarketResult -> prog (State Organization Snapshot) (option Activities).
Variable collaborations : prog (State Organization Snapshot) (option Collaborations).
Variable negotiations : prog (State Organization Snapshot) (option Negotiations).
Variable update_metrics :
  Market.MarketResult -> Activities -> prog (State Organization Snapshot) (option unit).
Variable daily_events : Market.MarketResult -> prog (State Organization Snapshot) (option Events).
Variable update_financials : Market.MarketResult -> prog (State Organization Snapshot) (option unit).
Variable agent_summary : Activities -> option Summary.
Variable plus_days : Z -> Z -> option Z.
Variable snapshot_of :
  Z -> Z -> Market.MarketResult -> Activities -> Summary -> Collaborations ->
  Negotiations -> Events -> OrganizationalSimulator Organization Snapshot -> Snapshot.

(** C8. With the running flag off, [advance_day] returns the status
    simulation_not_running and leaves the simulator (day counter,
    snapshots, metrics, market state, organization) and the random and clock
    sources exactly as they were, whatever the per-day steps of the agent
    layer would do. *)
Theorem advance_day_not_running (env : Env) (s : OrganizationalSimulator Organization Snapshot) :
  is_running _ _ s = false ->
  advance_day _ _ _ _ _ _ _ activities collaborations negotiations update_metrics
    daily_events update_financials agent_summary plus_days snapshot_of (env, s)
  = (Some (NotRunning _ "simulation_not_running"), (env, s)).
Proof.
  intros H. unfold advance_day, bind, get. simpl. rewrite H. reflexivity.
Qed.

(** The snapshot history once the day's snapshot is appended and the cap
    applied: the new snapshot is its last entry, it holds 365 entries at
    most, it is a tail of the history with the snapshot appended, and below
    the cap nothing is dropped. *)
Lemma keep_last_year_spec (l : list Snapshot) (x : Snapshot) :
  let l' := keep_last_year Snapshot (l ++ [x]) in
  length l' = Nat.min 365 (length l + 1)
  /\ last l' = Some x
  /\ (exists dropped, l ++ [x] = dropped ++ l')
  /\ ((length l < 365)%nat -> l' = l ++ [x]).
Proof.
  cbv zeta. unfold keep_last_year. rewrite length_app. cbn [length].
  destruct (365 <? Z.of_nat (length l + 1))%Z eqn:E.
  - apply Z.ltb_lt in E. split; [rewrite length_drop, length_app; cbn [length]; lia|].
    split; [rewrite drop_app_le by lia; apply last_snoc|].
    split; [eexists; symmetry; apply take_drop | lia].
  - apply Z.ltb_ge in E. split; [rewrite length_app; cbn [length]; lia|].
    split; [apply last_snoc|]. split; [exists []; reflexivity | reflexivity].
Qed.

(** [_capture_daily_snapshot] raises on every call, whatever it is given:
    the communication system does not answer to message_history. *)
Lemma capture_daily_snapshot_raises (market_results : Market.MarketResult)
    (acts : Activities) (cols : Collaborations) (negs : Negotiations) (evs : Events)
    (st : State Organization Snapshot) :
  fst (_capture_daily_snapshot _ _ _ _ _ _ _ agent_summary snapshot_of market_results acts
         cols negs evs st) = None.
Proof.
  unfold _capture_daily_snapshot, bind, bindE, clock, get, ret.
  destruct st as [[rng amb] s]. cbn [now fst snd].
  destruct (agent_summary acts); reflexivity.
Qed.

(** X23. On a running simulator [advance_day] never returns: whatever the
    per-day steps of the agent layer do, the call raises, at the latest
    when [_capture_daily_snapshot] reads the attribute message_history,
    which the communication system does not have. So the only result
    [advance_day] ever returns is the status simulation_not_running, of a
    simulator that is not running and that it leaves as it was. *)
Theorem advance_day_running_raises (env : Env)
    (s : OrganizationalSimulator Organization Snapshot) :
  let out := advance_day _ _ _ _ _ _ _ activities collaborations negotiations update_metrics
               daily_events update_financials agent_summary plus_days snapshot_of (env, s) in
  (is_running _ _ s = true -> fst out = None)
  /\ (forall d, fst out = Some d ->
        is_running _ _ s = false
        /\ d = NotRunning _ "simulation_not_running" /\ snd out = (env, s)).
Proof.
  cbv zeta.
  assert (Hrun : is_running _ _ s = true ->
                 fst (advance_day _ _ _ _ _ _ _ activities collaborations negotiations
                        update_metrics daily_events update_financials agent_summary plus_days
                        snapshot_of (env, s)) = None).
  { intros H. destruct env as [rng amb].
    unfold advance_day, bind, bindE, get, modify, clock, ret. cbn [fst snd].
    rewrite H. cbn [negb now fst snd].
    destruct (plus_days _ _); [|reflexivity].
    destruct (market_tick _ _ _) as [[result|] st0]; [|reflexivity].
    destruct (activities result st0) as [[acts|] st1]; [|reflexivity].
    destruct (collaborations st1) as [[cols|] st2]; [|reflexivity].
    destruct (negotiations st2) as [[negs|] st3]; [|reflexivity].
    destruct (update_metrics result acts st3) as [[[]|] st4]; [|reflexivity].
    destruct (daily_events result st4) as [[evs|] st5]; [|reflexivity].
    destruct (update_financials result st5) as [[[]|] st6]; [|reflexivity].
    pose proof (capture_daily_snapshot_raises result acts cols negs evs st6) as Hc.
    destruct (_capture_daily_snapshot _ _ _ _ _ _ _ agent_summary snapshot_of result acts
                cols negs evs st6) as [o st7].
    cbn [fst] in Hc. subst o. reflexivity. }
  split; [exact Hrun|].
  intros d Hd. destruct (is_running _ _ s) eqn:E.
  - rewrite (Hrun eq_refl) in Hd. discriminate.
  - assert (Hstop : advance_day _ _ _ _ _ _ _ activities collaborations negotiations
                      update_metrics daily_events update_financials agent_summary plus_days
                      snapshot_of (env, s)
                    = (Some (NotRunning _ "simulation_not_running"), (env, s))).
    { unfold advance_day, bind, get. cbn [fst snd]. rewrite E. reflexivity. }
    rewrite Hstop in Hd |- *. cbn [fst snd] in *.
    injection Hd as <-. repeat split.
Qed.

End SchedulerProps.

Lemma advance_day_running_raises_witness :
  is_running _ _ (mkOrgSim unit unit 3 true (Market.simulator_init []) ∅ ∅ ∅ [tt; tt] tt)
  = true
  /\ fst (advance_day unit unit unit unit unit unit unit
            (fun _ => ret (Some tt)) (ret (Some tt)) (ret (Some tt)) (fun _ _ => ret (Some tt))
            (fun _ => ret (Some tt)) (fun _ => ret (Some tt)) (fun _ => Some tt)
            (fun t n => Some (t + n)%Z) (fun _ _ _ _ _ _ _ _ _ => tt)
            (sample_env, mkOrgSim unit unit 3 true (Market.simulator_init []) ∅ ∅ ∅ [tt; tt] tt))
     = None.
Proof.
  split; [reflexivity|].
  apply (proj1 (advance_day_running_raises unit unit unit unit unit unit unit
                  (fun _ => ret (Some tt)) (ret (Some tt)) (ret (Some tt))
                  (fun _ _ => ret (Some tt)) (fun _ => ret (Some tt)) (fun _ => ret (Some tt))
                  (fun _ => Some tt) (fun t n => Some (t + n)%Z)
                  (fun _ _ _ _ _ _ _ _ _ => tt) sample_env
                  (mkOrgSim unit unit 3 true (Market.simulator_init []) ∅ ∅ ∅ [tt; tt] tt))).
  reflexivity.
Defined.

Lemma advance_day_not_running_witness :
  is_running _ _ sample_simulator = false
  /\ advance_day unit unit unit unit unit unit unit
       (fun _ => ret (Some tt)) (ret (Some tt)) (ret (Some tt)) (fun _ _ => ret (Some tt))
       (fun _ => ret (Some tt)) (fun _ => ret (Some tt)) (fun _ => Some tt)
       (fun t n => Some (t + n)%Z) (fun _ _ _ _ _ _ _ _ _ => tt)
       (sample_env, sample_simulator)
     = (Some (NotRunning _ "simulation_not_running"), (sample_env, sample_simulator)).
Proof.
  split.
  - reflexivity.
  - apply (advance_day_not_running unit unit unit unit unit unit unit
             (fun _ => ret (Some tt)) (ret (Some tt)) (ret (Some tt))
             (fun _ _ => ret (Some tt)) (fun _ => ret (Some tt)) (fun _ => ret (Some tt))
             (fun _ => Some tt) (fun t n => Some (t + n)%Z)
             (fun _ _ _ _ _ _ _ _ _ => tt) sample_env sample_simulator).
    reflexivity.
Defined.

Lemma keep_last_year_spec_witness :
  (length [tt; tt] < 365)%nat
  /\ keep_last_year unit ([tt; tt] ++ [tt]) = [tt; tt] ++ [tt].
Proof.
  split; [cbn [length]; lia|].
  apply (keep_last_year_spec unit [tt; tt] tt). cbn [length]. lia.
Defined.

End SimProps.

Module MemoryProps.
Import Memory.

Section MemoryFacts.

Variable V : Type.
Variable isoformat : Z -> string.
Variable dumps_lower_decision : DecisionRecord -> string.
Variable dumps_lower_lesson : LessonRecord -> string.
Variable dumps_lower_practice : PracticeRecord -> string.
Variable lower : string -> string.




Lemma last_slice_suffix {A : Type} (n : Z) (l : list A) :
  exists pre, l = pre ++ last_slice n l.
Proof.
  unfold last_slice. destruct (0 <? n)%Z.
  - exists (take (length l - Z.to_nat n) l). symmetry. apply take_drop.
  - exists (take (Z.to_nat (- n)) l). symmetry. apply take_drop.
Qed.

Lemma last_slice_length {A : Type} (n : Z) (l : list A) :
  length (last_slice n l)
  = if (0 <? n)%Z then Nat.min (Z.to_nat n) (length l)
    else (length l - Z.to_nat (- n))%nat.
Proof.
  unfold last_slice. destruct (0 <? n)%Z; rewrite length_drop; lia.
Qed.

Lemma last_slice_one {A : Type} (l : list A) (x : A) :
  last l = Some x -> last_slice 1 l = [x].
Proof.
  intros H. apply last_Some in H as [pre ->].
  unfold last_slice. change (0 <? 1)%Z with true. cbv iota.
  change (Z.to_nat 1) with 1%nat.
  rewrite length_app. cbn [length]. rewrite drop_app_le by lia.
  rewrite drop_ge by lia. reflexivity.
Qed.

(** X20. [get_performance_trends] returns a tail of the metric's series:
    nothing for a metric never recorded; for a positive number of periods
    its last entries, as many as asked or all if there are fewer; and for
    zero periods the whole series, since [l[-0:]] is [l]. *)
Theorem get_performance_trends_spec (mem : OrganizationalMemory V) (metric : string) (n : Z) :
  let series := default [] (performance_history V mem !! metric) in
  let trend := get_performance_trends V mem metric n in
  (exists pre, series = pre ++ trend)
  /\ (performance_history V mem !! metric = None -> trend = [])
  /\ ((0 < n)%Z -> length trend = Nat.min (Z.to_nat n) (length series))
  /\ (n = 0%Z -> trend = series).
Proof.
  cbv zeta. unfold get_performance_trends. split; [apply last_slice_suffix|].
  split; [|split].
  - intros ->. cbn [default]. unfold last_slice. destruct (0 <? n)%Z; apply drop_nil.
  - intros Hn. rewrite last_slice_length.
    replace (0 <? n)%Z with true; [reflexivity|]. symmetry. apply Z.ltb_lt. exact Hn.
  - intros ->. reflexivity.
Qed.

Lemma record_metric_spec (ts : string) (h : gmap string (list (string * V)))
    (k : string) (v : V) :
  (exists series,
      record_metric V ts h (k, v) !! k = Some series
      /\ (length series <= 100)%nat
      /\ last series = Some (ts, v)
      /\ exists pre, default [] (h !! k) ++ [(ts, v)] = pre ++ series)
  /\ (forall k', k' <> k -> record_metric V ts h (k, v) !! k' = h !! k').
Proof.
  unfold record_metric. cbn [fst snd]. split.
  - eexists. rewrite lookup_insert_eq. split; [reflexivity|].
    destruct (100 <? Z.of_nat (length (default [] (h !! k) ++ [(ts, v)])))%Z eqn:E.
    + split; [rewrite last_slice_length; cbn; lia|].
      split; [|apply last_slice_suffix].
      unfold last_slice. cbn [Z.ltb Z.compare]. apply Z.ltb_lt in E.
      rewrite length_app in *. cbn [length] in *.
      rewrite drop_app_le by lia. apply last_snoc.
    + apply Z.ltb_ge in E. split; [lia|]. split; [apply last_snoc|].
      exists []. reflexivity.
  - intros k' Hk. apply lookup_insert_ne. congruence.
Qed.

Lemma record_metrics_bounded (ts : string) (metrics : list (string * V))
    (h : gmap string (list (string * V))) :
  (forall k series, h !! k = Some series -> (length series <= 100)%nat) ->
  forall k series,
    fold_left (record_metric V ts) metrics h !! k = Some series ->
    (length series <= 100)%nat.
Proof.
  revert h. induction metrics as [|[k0 v0] metrics IH]; intros h Hh k series; cbn [fold_left].
  - apply Hh.
  - apply IH. intros k' s' Hs'.
    destruct (record_metric_spec ts h k0 v0) as ((s0 & Hs0 & Hlen & _) & Hother).
    destruct (decide (k' = k0)) as [->|Hne].
    + rewrite Hs0 in Hs'. injection Hs' as <-. exact Hlen.
    + rewrite (Hother k' Hne) in Hs'. eapply Hh. exact Hs'.
Qed.

Lemma record_metrics_other (ts : string) (metrics : list (string * V))
    (h : gmap string (list (string * V))) (k : string) :
  k ∉ map fst metrics ->
  fold_left (record_metric V ts) metrics h !! k = h !! k.
Proof.
  revert h. induction metrics as [|[k0 v0] metrics IH]; intros h Hk; cbn [fold_left].
  - reflexivity.
  - cbn [map fst] in Hk. apply not_elem_of_cons in Hk as [Hne Hk].
    rewrite IH by exact Hk.
    apply (proj2 (record_metric_spec ts h k0 v0)). exact Hne.
Qed.

Lemma record_metrics_last (ts : string) (metrics : list (string * V))
    (h : gmap string (list (string * V))) (k : string) (v : V) :
  NoDup (map fst metrics) -> (k, v) ∈ metrics ->
  exists series, fold_left (record_metric V ts) metrics h !! k = Some series
                 /\ last series = Some (ts, v).
Proof.
  revert h. induction metrics as [|[k0 v0] metrics IH]; intros h Hnd Hin; cbn [fold_left].
  - inversion Hin.
  - cbn [map fst] in Hnd. apply NoDup_cons in Hnd as [Hnotin Hnd].
    apply elem_of_cons in Hin as [Heq | Hin].
    + injection Heq as -> ->.
      rewrite record_metrics_other by exact Hnotin.
      destruct (record_metric_spec ts h k0 v0) as ((s0 & Hs0 & _ & Hlast & _) & _).
      exists s0. split; assumption.
    + apply IH; assumption.
Qed.

Lemma record_metrics_exact (ts : string) (metrics : list (string * V))
    (h : gmap string (list (string * V))) (k : string) (v : V) :
  NoDup (map fst metrics) -> (k, v) ∈ metrics ->
  let series := default [] (h !! k) ++ [(ts, v)] in
  fold_left (record_metric V ts) metrics h !! k
  = Some (if (100 <? Z.of_nat (length series))%Z then last_slice 100 series else series).
Proof.
  revert h. induction metrics as [|[k0 v0] metrics IH]; intros h Hnd Hin; cbv zeta;
    cbn [fold_left].
  - inversion Hin.
  - cbn [map fst] in Hnd. apply NoDup_cons in Hnd as [Hnotin Hnd].
    apply elem_of_cons in Hin as [Heq | Hin].
    + injection Heq as -> ->.
      rewrite record_metrics_other by exact Hnotin.
      unfold record_metric. cbn [fst snd]. apply lookup_insert_eq.
    + assert (Hne : k <> k0).
      { intros ->. apply Hnotin. apply list_elem_of_fmap. exists (k0, v). split; auto. }
      pose proof (IH (record_metric V ts h (k0, v0)) Hnd Hin) as H. cbv zeta in H.
      rewrite H. rewrite (proj2 (record_metric_spec ts h k0 v0) k Hne). reflexivity.
Qed.

Lemma last_slice_100_snoc {A : Type} (old : list A) (x : A) :
  (100 <= length old)%nat ->
  last_slice 100 (old ++ [x]) = drop (length old - 99) old ++ [x].
Proof.
  intros H. unfold last_slice. change (0 <? 100)%Z with true. cbv iota.
  rewrite length_app. cbn [length].
  replace (length old + 1 - Z.to_nat 100)%nat with (length old - 99)%nat by lia.
  apply drop_app_le. lia.
Qed.

(** X21. [update_performance_history] appends to the series of each metric
    it is given one entry, the value under the current timestamp: below
    the cap of 100 the series is the old one with the entry added; from the
    cap on the oldest entries go, so that the last 99 of the old series and
    the new entry remain. The new entry is what [get_performance_trends]
    then returns as the latest. Every series stays at 100 entries at most,
    the series of the metrics it was not given are as they were, and
    nothing else in the memory changes. *)
Theorem update_performance_history_spec (metrics : list (string * V))
    (a : Ambient) (mem : OrganizationalMemory V) :
  let mem' := snd (snd (update_performance_history V isoformat metrics (a, mem))) in
  let ts := isoformat (times a (time_cursor a)) in
  (NoDup (map fst metrics) ->
   forall k v, (k, v) ∈ metrics ->
     let old := default [] (performance_history V mem !! k) in
     ((length old < 100)%nat ->
      performance_history V mem' !! k = Some (old ++ [(ts, v)]))
     /\ ((100 <= length old)%nat ->
         performance_history V mem' !! k = Some (drop (length old - 99) old ++ [(ts, v)]))
     /\ get_performance_trends V mem' k 1 = [(ts, v)])
  /\ ((forall k series, performance_history V mem !! k = Some series ->
                        (length series <= 100)%nat) ->
      forall k series, performance_history V mem' !! k = Some series ->
                       (length series <= 100)%nat)
  /\ (forall k, k ∉ map fst metrics ->
        performance_history V mem' !! k = performance_history V mem !! k)
  /\ decisions_archive V mem' = decisions_archive V mem
  /\ lessons_learned V mem' = lessons_learned V mem
  /\ best_practices V mem' = best_practices V mem
  /\ organizational_events V mem' = organizational_events V mem.
Proof.
  cbv zeta. unfold update_performance_history, bind, ambient, modify, now.
  cbn [fst snd performance_history decisions_archive lessons_learned best_practices
       organizational_events].
  split; [|split; [apply record_metrics_bounded|]].
  - intros Hnd k v Hin.
    pose proof (record_metrics_exact (isoformat (times a (time_cursor a))) metrics
                  (performance_history V mem) k v Hnd Hin) as Hs. cbv zeta in Hs.
    rewrite length_app in Hs. cbn [length] in Hs.
    split; [|split].
    + intros Hlt. rewrite Hs.
      replace (100 <? Z.of_nat (length (default [] (performance_history V mem !! k)) + 1))%Z
        with false; [reflexivity|]. symmetry. apply Z.ltb_ge. lia.
    + intros Hge. rewrite Hs.
      replace (100 <? Z.of_nat (length (default [] (performance_history V mem !! k)) + 1))%Z
        with true; [|symmetry; apply Z.ltb_lt; lia].
      rewrite last_slice_100_snoc by exact Hge. reflexivity.
    + unfold get_performance_trends. cbn [performance_history].
      destruct (record_metrics_last (isoformat (times a (time_cursor a))) metrics
                  (performance_history V mem) k v Hnd Hin) as (series & Hser & Hlast).
      rewrite Hser. cbn [default]. apply last_slice_one. exact Hlast.
  - split; [intros k Hk; apply record_metrics_other; exact Hk|]. repeat split.
Qed.

End MemoryFacts.



Lemma get_performance_trends_spec_witness :
  performance_history Q (memory_init Q) !! "revenue"%string = None
  /\ get_performance_trends Q (memory_init Q) "revenue" 6 = []
  /\ (0 < 6)%Z
  /\ length (get_performance_trends Q (memory_init Q) "revenue" 6)
     = Nat.min (Z.to_nat 6)
         (length (default [] (performance_history Q (memory_init Q) !! "revenue"%string)))
  /\ get_performance_trends Q (memory_init Q) "revenue" 0
     = default [] (performance_history Q (memory_init Q) !! "revenue"%string).
Proof.
  assert (H : performance_history Q (memory_init Q) !! "revenue"%string = None)
    by apply lookup_empty.
  destruct (get_performance_trends_spec Q (memory_init Q) "revenue" 6) as (_ & H1 & H2 & _).
  destruct (get_performance_trends_spec Q (memory_init Q) "revenue" 0) as (_ & _ & _ & H3).
  split; [exact H|]. split; [apply H1; exact H|]. split; [lia|].
  split; [apply H2; lia | apply H3; reflexivity].
Defined.

Lemma update_performance_history_spec_witness :
  let mem := mkMemory Q ∅ [] [] [] [] [] {["revenue"%string := [("2023-12-31"%string, 0.25)]]} in
  NoDup (map fst [("revenue"%string, 0.5)])
  /\ (length (default [] (performance_history Q mem !! "revenue"%string)) < 100)%nat
  /\ performance_history Q
       (snd (snd (update_performance_history Q Comm.sample_iso [("revenue"%string, 0.5)]
                    (Comm.sample_ambient, mem)))) !! "revenue"%string
     = Some (default [] (performance_history Q mem !! "revenue"%string)
             ++ [(Comm.sample_iso (times Comm.sample_ambient (time_cursor Comm.sample_ambient)),
                  0.5)]).
Proof.
  cbv zeta.
  assert (Hnd : NoDup (map fst [("revenue"%string, 0.5)])).
  { repeat constructor. intros H. inversion H. }
  assert (Hold : default [] (performance_history Q
                   (mkMemory Q ∅ [] [] [] [] []
                      {["revenue"%string := [("2023-12-31"%string, 0.25)]]})
                   !! "revenue"%string) = [("2023-12-31"%string, 0.25)]).
  { cbn [performance_history]. rewrite lookup_singleton_eq. reflexivity. }
  split; [exact Hnd|].
  split; [rewrite Hold; cbn [length]; lia|].
  apply (proj1 (proj1 (update_performance_history_spec Q Comm.sample_iso
                         [("revenue"%string, 0.5)] Comm.sample_ambient
                         (mkMemory Q ∅ [] [] [] [] []
                            {["revenue"%string := [("2023-12-31"%string, 0.25)]]}))
                  Hnd "revenue"%string 0.5 ltac:(left))).
  rewrite Hold. cbn [length]. lia.
Defined.

End MemoryProps.
